(** * hyperbyte-plot: the panel manager, the orchestrator and the backend factory

    A shallow embedding of [internal/ui/ui.go] and [internal/app/app.go].
    Go's [int] is a 64-bit two's-complement integer, modelled as [Z] with the
    wrap-around written out.  A run-time panic (nil dereference, index out of
    range) is a value of the [result] monad.  Objects that callers share with
    the UI ([*backend.TimeSeriesResult] and the arrays behind its [Points]
    slice) live in an explicit [Heap]; the widgets and the [QueryHistory]
    cells are created by [NewTUI], never handed out, and are held by value. *)

From Stdlib Require Import ZArith Lia Floats.PrimFloat.
From stdpp Require Import base option list gmap strings pretty sorting.

Local Open Scope Z_scope.

(** ** Go's [int] *)

Definition int_min : Z := - 2 ^ 63.
Definition int_max : Z := 2 ^ 63 - 1.

Definition wrap (z : Z) : Z := (z + 2 ^ 63) mod 2 ^ 64 - 2 ^ 63.

Definition int_add (a b : Z) : Z := wrap (a + b).
Definition int_sub (a b : Z) : Z := wrap (a - b).

(** [a % b] truncates toward zero; the callers guard [b > 0]. *)
Definition int_rem (a b : Z) : Z := Z.rem a b.

(** [len(s)] of a slice held as a list. *)
Definition len {A} (l : list A) : Z := Z.of_nat (length l).

(** ** Panics *)

Inductive result (A : Type) : Type :=
| Ok (a : A)
| Panic (msg : string).
Arguments Ok {A} a.
Arguments Panic {A} msg.

#[global] Instance result_ret : MRet result := fun A a => Ok a.
#[global] Instance result_bind : MBind result := fun A B f r =>
  match r with
  | Ok a => f a
  | Panic msg => Panic msg
  end.

Definition nil_deref : string := "invalid memory address or nil pointer dereference".
Definition out_of_range : string := "index out of range".

(** [s[i]] with Go's bounds check. *)
Definition index {A} (s : list A) (i : Z) : result A :=
  if (i <? 0) || (len s <=? i) then Panic out_of_range
  else match s !! Z.to_nat i with
       | Some x => Ok x
       | None => Panic out_of_range
       end.

(** [s[i] = x], after the bounds check of [index]. *)
Definition store {A} (s : list A) (i : Z) (x : A) : list A :=
  <[Z.to_nat i := x]> s.

(** ** backend/types.go *)

(** A [time.Time] is held as its instant, in nanoseconds; [Before] and
    [After] compare instants.  The location a time carries is not modelled. *)
Definition Time : Type := Z.
Definition Before (a b : Time) : bool := a <? b.
Definition After (a b : Time) : bool := b <? a.

Record DataPoint := mkDataPoint { Timestamp : Time; Value : float }.

Definition loc : Type := positive.

(** A slice header: backing array, offset into it, length. *)
Record Slice := mkSlice { s_base : loc; s_off : nat; s_len : nat }.

Record TimeSeriesResult := mkTimeSeriesResult { Points : Slice }.

Record Query := mkQuery { q_Name : string; q_Expr : string }.

Definition error : Type := string.

Record Heap := mkHeap {
  h_series : gmap loc TimeSeriesResult;
  h_arrays : gmap loc (list DataPoint)
}.

Definition slice_elems (h : Heap) (s : Slice) : list DataPoint :=
  take (s_len s) (drop (s_off s) (default [] (h_arrays h !! s_base s))).

(** [p.Points] through a possibly nil pointer [p]. *)
Definition deref_series (h : Heap) (p : option loc) : result TimeSeriesResult :=
  match p with
  | None => Panic nil_deref
  | Some l => match h_series h !! l with
              | Some ts => Ok ts
              | None => Panic nil_deref
              end
  end.

(** [make([]DataPoint, n)]: a fresh zeroed array and the slice over it. *)
Definition zero_point : DataPoint := mkDataPoint 0 0%float.

Definition make_points (h : Heap) (n : nat) : Heap * Slice :=
  let l := fresh (dom (h_arrays h)) in
  (mkHeap (h_series h) (<[l := replicate n zero_point]> (h_arrays h)),
   mkSlice l 0 n).

(** Overwrite the elements a slice denotes (truncated to its length). *)
Definition slice_write (h : Heap) (s : Slice) (xs : list DataPoint) : Heap :=
  let old := default [] (h_arrays h !! s_base s) in
  let new := take (s_off s) old ++ take (s_len s) xs
             ++ drop (s_off s + Nat.min (s_len s) (length xs)) old in
  mkHeap (h_series h) (<[s_base s := new]> (h_arrays h)).

(** [&backend.TimeSeriesResult{Points: pts}] *)
Definition new_series (h : Heap) (pts : Slice) : Heap * loc :=
  let l := fresh (dom (h_series h)) in
  (mkHeap (<[l := mkTimeSeriesResult pts]> (h_series h)) (h_arrays h), l).

(** [[]backend.DataPoint{p1, ..., pn}] *)
Definition slice_literal (h : Heap) (xs : list DataPoint) : Heap * Slice :=
  let l := fresh (dom (h_arrays h)) in
  (mkHeap (h_series h) (<[l := xs]> (h_arrays h)), mkSlice l 0 (length xs)).

(** ** The widgets of the drawing library, as far as the UI code drives them *)

Inductive Color := ColorDefault | ColorWhite | ColorYellow.
Inductive Align := AlignLeft | AlignCenter.

Record TextView := mkTextView {
  tv_title : string;
  tv_text : string;
  tv_border : bool;
  tv_borderColor : Color;
  tv_titleColor : Color;
  tv_dynamicColors : bool;
  tv_wordWrap : bool;
  tv_align : Align;
  tv_innerWidth : Z;
  tv_innerHeight : Z
}.

Definition NewTextView : TextView :=
  mkTextView "" "" false ColorDefault ColorDefault false true AlignLeft 15 10.

Definition SetText (p : TextView) (s : string) : TextView :=
  mkTextView (tv_title p) s (tv_border p) (tv_borderColor p) (tv_titleColor p)
    (tv_dynamicColors p) (tv_wordWrap p) (tv_align p) (tv_innerWidth p) (tv_innerHeight p).

Definition SetTitle (p : TextView) (s : string) : TextView :=
  mkTextView s (tv_text p) (tv_border p) (tv_borderColor p) (tv_titleColor p)
    (tv_dynamicColors p) (tv_wordWrap p) (tv_align p) (tv_innerWidth p) (tv_innerHeight p).

Definition SetBorder (p : TextView) (b : bool) : TextView :=
  mkTextView (tv_title p) (tv_text p) b (tv_borderColor p) (tv_titleColor p)
    (tv_dynamicColors p) (tv_wordWrap p) (tv_align p) (tv_innerWidth p) (tv_innerHeight p).

Definition SetColors (p : TextView) (c : Color) : TextView :=
  mkTextView (tv_title p) (tv_text p) (tv_border p) c c
    (tv_dynamicColors p) (tv_wordWrap p) (tv_align p) (tv_innerWidth p) (tv_innerHeight p).

Definition SetDynamicColors (p : TextView) (b : bool) : TextView :=
  mkTextView (tv_title p) (tv_text p) (tv_border p) (tv_borderColor p) (tv_titleColor p)
    b (tv_wordWrap p) (tv_align p) (tv_innerWidth p) (tv_innerHeight p).

Definition SetWordWrap (p : TextView) (b : bool) : TextView :=
  mkTextView (tv_title p) (tv_text p) (tv_border p) (tv_borderColor p) (tv_titleColor p)
    (tv_dynamicColors p) b (tv_align p) (tv_innerWidth p) (tv_innerHeight p).

Definition SetTextAlign (p : TextView) (a : Align) : TextView :=
  mkTextView (tv_title p) (tv_text p) (tv_border p) (tv_borderColor p) (tv_titleColor p)
    (tv_dynamicColors p) (tv_wordWrap p) a (tv_innerWidth p) (tv_innerHeight p).

(** An item of the horizontal flex: the panel it shows (a pointer into
    [panels], held as its index), fixed size, proportion, focus flag. *)
Record FlexItem := mkFlexItem {
  fi_panel : Z;
  fi_fixedSize : Z;
  fi_proportion : Z;
  fi_focus : bool
}.

(** The closure [UpdateTimeSeries] hands to [QueueUpdateDraw]; it captures
    [t], [index] and [err]. *)
Record DrawUpdate := mkDrawUpdate { du_index : Z; du_err : option error }.

Record Application := mkApplication {
  a_focus : option Z;          (* the panel holding the input focus *)
  a_updates : list DrawUpdate  (* queued, not yet run by the event loop *)
}.

(** ** ui.go: the state

    [histories] is a slice of pointers to cells that [NewTUI] allocates one by
    one and that no method hands out, so no two entries alias and the cells
    are held by value.  The main [flex] container and the quit callback's body
    are not needed below; [onQuit] records whether a callback is installed. *)

Record QueryHistory := mkQueryHistory {
  Name : string;
  TimeSeries : option loc;
  LastError : option error
}.

Record TUI := mkTUI {
  app : option Application;
  scrollView : option (list FlexItem);
  panels : list TextView;
  timeRange : option TextView;
  focusIndex : Z;
  scrollOffset : Z;
  visiblePanels : Z;
  histories : list QueryHistory;
  onQuit : bool                (* whether a quit callback is installed *)
}.

Definition set_app (t : TUI) (a : option Application) : TUI :=
  mkTUI a (scrollView t) (panels t) (timeRange t) (focusIndex t) (scrollOffset t)
    (visiblePanels t) (histories t) (onQuit t).
Definition set_scrollView (t : TUI) (sv : option (list FlexItem)) : TUI :=
  mkTUI (app t) sv (panels t) (timeRange t) (focusIndex t) (scrollOffset t)
    (visiblePanels t) (histories t) (onQuit t).
Definition set_panels (t : TUI) (ps : list TextView) : TUI :=
  mkTUI (app t) (scrollView t) ps (timeRange t) (focusIndex t) (scrollOffset t)
    (visiblePanels t) (histories t) (onQuit t).
Definition set_timeRange (t : TUI) (tr : option TextView) : TUI :=
  mkTUI (app t) (scrollView t) (panels t) tr (focusIndex t) (scrollOffset t)
    (visiblePanels t) (histories t) (onQuit t).
Definition set_focusIndex (t : TUI) (f : Z) : TUI :=
  mkTUI (app t) (scrollView t) (panels t) (timeRange t) f (scrollOffset t)
    (visiblePanels t) (histories t) (onQuit t).
Definition set_scrollOffset (t : TUI) (s : Z) : TUI :=
  mkTUI (app t) (scrollView t) (panels t) (timeRange t) (focusIndex t) s
    (visiblePanels t) (histories t) (onQuit t).
Definition set_visiblePanels (t : TUI) (v : Z) : TUI :=
  mkTUI (app t) (scrollView t) (panels t) (timeRange t) (focusIndex t) (scrollOffset t)
    v (histories t) (onQuit t).
Definition set_histories (t : TUI) (hs : list QueryHistory) : TUI :=
  mkTUI (app t) (scrollView t) (panels t) (timeRange t) (focusIndex t) (scrollOffset t)
    (visiblePanels t) hs (onQuit t).

(** ** ui.go: navigation *)

(** The loop of [updateScrollView]: [AddItem(t.panels[i], 0, 1, i == t.focusIndex)]
    for [i] from the offset up to [endIndex]. *)
Definition add_visible (t : TUI) (first endIndex : Z) : result (list FlexItem) :=
  mapM (fun i => _ ← index (panels t) i;
                 mret (mkFlexItem i 0 1 (i =? focusIndex t)))
       (seqZ first (endIndex - first)).

Definition updateScrollView (t : TUI) : result TUI :=
  match scrollView t with
  | None => Panic nil_deref                       (* t.scrollView.Clear() *)
  | Some _ =>
    let t := set_scrollView t (Some []) in
    if len (panels t) =? 0 then Ok t
    else
      let maxOffset := int_sub (len (panels t)) (visiblePanels t) in
      let maxOffset := if maxOffset <? 0 then 0 else maxOffset in
      let t := if maxOffset <? scrollOffset t then set_scrollOffset t maxOffset else t in
      let t := if scrollOffset t <? 0 then set_scrollOffset t 0 else t in
      let endIndex := int_add (scrollOffset t) (visiblePanels t) in
      let endIndex := if len (panels t) <? endIndex then len (panels t) else endIndex in
      items ← add_visible t (scrollOffset t) endIndex;
      mret (set_scrollView t (Some items))
  end.

Definition scrollToShowFocus (t : TUI) : result TUI :=
  if len (panels t) =? 0 then Ok t
  else
    let visibleStart := scrollOffset t in
    let visibleEnd := int_sub (int_add (scrollOffset t) (visiblePanels t)) 1 in
    let t := if visibleEnd <? focusIndex t
             then set_scrollOffset t (int_add (int_sub (focusIndex t) (visiblePanels t)) 1)
             else t in
    let t := if focusIndex t <? visibleStart
             then set_scrollOffset t (focusIndex t)
             else t in
    updateScrollView t.

Definition SetFocus (a : option Application) (p : Z) : result Application :=
  match a with
  | None => Panic nil_deref
  | Some a => Ok (mkApplication (Some p) (a_updates a))
  end.

Definition updateFocus (t : TUI) : result TUI :=
  if len (panels t) =? 0 then Ok t
  else
    let t := set_panels t
      (imap (fun i panel => if Z.of_nat i =? focusIndex t
                            then SetColors panel ColorYellow
                            else SetColors panel ColorWhite) (panels t)) in
    let visibleStart := scrollOffset t in
    let visibleEnd := int_sub (int_add (scrollOffset t) (visiblePanels t)) 1 in
    if (visibleStart <=? focusIndex t) && (focusIndex t <=? visibleEnd) then
      _ ← index (panels t) (focusIndex t);
      a ← SetFocus (app t) (focusIndex t);
      mret (set_app t (Some a))
    else Ok t.

Definition focusNext (t : TUI) : result TUI :=
  if 0 <? len (panels t) then
    let t := set_focusIndex t (int_rem (int_add (focusIndex t) 1) (len (panels t))) in
    t ← scrollToShowFocus t;
    updateFocus t
  else Ok t.

Definition focusPrev (t : TUI) : result TUI :=
  if 0 <? len (panels t) then
    let t := set_focusIndex t
      (int_rem (int_add (int_sub (focusIndex t) 1) (len (panels t))) (len (panels t))) in
    t ← scrollToShowFocus t;
    updateFocus t
  else Ok t.

(** ** What the UI code takes from outside the repository *)

Class Externals := {
  (** [time.Time.Format("15:04:05")] *)
  Format_clock : Time -> string;
  (** [fmt.Sprintf("%.0f", x)] and [fmt.Sprintf("%.2f", x)] *)
  Sprintf_f0 : float -> string;
  Sprintf_f2 : float -> string;
  (** [asciigraph.Plot(values, Height(h), Width(w), Caption(c))] *)
  Plot : list float -> Z -> Z -> string -> string;
  (** [sort.Slice]: reorders the slice it is given by [less]; not stable. *)
  sort_Slice : (DataPoint -> DataPoint -> bool) -> list DataPoint -> list DataPoint;
  sort_Slice_perm : forall less l, sort_Slice less l ≡ₚ l
}.

Definition newline : string := String (Ascii.ascii_of_nat 10) EmptyString.

Section UI.
Context `{!Externals}.

(** ** ui.go: the time-range footer *)

(** The locals of [updateTimeRange]. *)
Record range_acc := mkRangeAcc {
  earliestTime : option Time;
  latestTime : option Time;
  hasData : bool
}.

(** The body of the inner loop, for one [point].  The module is built as
    Go 1.23 ([go.mod]), where [point] is a new variable in each iteration, so
    [&point.Timestamp] keeps denoting the timestamp of the point it was taken
    from. *)
Definition scan_point (acc : range_acc) (point : DataPoint) : range_acc :=
  if negb (hasData acc) then
    mkRangeAcc (Some (Timestamp point)) (Some (Timestamp point)) true
  else
    match earliestTime acc, latestTime acc with
    | Some e, Some l =>
        mkRangeAcc
          (if Before (Timestamp point) e then Some (Timestamp point) else Some e)
          (if After (Timestamp point) l then Some (Timestamp point) else Some l)
          true
    | _, _ => acc   (* both are set together with [hasData] *)
    end.

(** The body of the outer loop, for one [history]. *)
Definition scan_history (h : Heap) (acc : range_acc) (history : QueryHistory)
  : result range_acc :=
  match TimeSeries history with
  | None => Ok acc
  | Some _ =>
      ts ← deref_series h (TimeSeries history);
      let points := slice_elems h (Points ts) in
      if 0 <? len points then Ok (foldl scan_point acc points) else Ok acc
  end.

Fixpoint scan_histories (h : Heap) (acc : range_acc) (hs : list QueryHistory)
  : result range_acc :=
  match hs with
  | [] => Ok acc
  | history :: hs => acc ← scan_history h acc history; scan_histories h acc hs
  end.

Definition waiting_text : string := "[gray]Time Range: Waiting for data...[white]".

Definition range_text (earliest latest : Time) : string :=
  "[yellow]Time Range:[white] " +:+ Format_clock earliest +:+
  " [gray]to[white] " +:+ Format_clock latest.

Definition updateTimeRange (h : Heap) (t : TUI) : result TUI :=
  match timeRange t with
  | None => Ok t
  | Some tr =>
      acc ← scan_histories h (mkRangeAcc None None false) (histories t);
      let timeRangeText :=
        match hasData acc, earliestTime acc, latestTime acc with
        | true, Some e, Some l => range_text e l
        | _, _, _ => waiting_text
        end in
      Ok (set_timeRange t (Some (SetText tr timeRangeText)))
  end.

(** ** ui.go: rendering one panel *)

Definition less_by_time (a b : DataPoint) : bool := Before (Timestamp a) (Timestamp b).

(** The loop computing [maxY] and [minY]. *)
Definition max_min (v0 : float) (values : list float) : float * float :=
  foldl (fun '(maxY, minY) v =>
           (if PrimFloat.ltb maxY v then v else maxY,
            if PrimFloat.ltb v minY then v else minY))
        (v0, v0) values.

Definition renderTimeSeriesGraph (h : Heap) (t : TUI) (i : Z) : result (Heap * TUI) :=
  history ← index (histories t) i;
  panel ← index (panels t) i;
  ts ← deref_series h (TimeSeries history);
  let stored := slice_elems h (Points ts) in
  if len stored =? 0 then
    Ok (h, set_panels t (store (panels t) i (SetText panel "No data available")))
  else
    (* points := make(...); copy(points, history.TimeSeries.Points) *)
    let '(h, points) := make_points h (length stored) in
    let h := slice_write h points stored in
    (* sort.Slice(points, ...) works in place on the new array *)
    let h := slice_write h points (sort_Slice less_by_time (slice_elems h points)) in
    let sorted := slice_elems h points in
    let values := map Value sorted in
    v0 ← index values 0;
    let '(maxY, minY) := max_min v0 values in
    let absMaxY := if PrimFloat.ltb maxY (PrimFloat.opp minY)
                   then PrimFloat.opp minY else maxY in
    let yDigits := Z.of_nat (String.length (Sprintf_f0 absMaxY)) in
    let yDigits := if PrimFloat.ltb absMaxY 0%float then int_add yDigits 1 else yDigits in
    let margin := int_add yDigits 7 in
    let graphWidth := int_sub (tv_innerWidth panel) margin in
    let graphHeight := int_sub (tv_innerHeight panel) 6 in
    let graphWidth := if graphWidth <? 20 then 20 else graphWidth in
    let graphHeight := if graphHeight <? 3 then 3 else graphHeight in
    let graph := Plot values graphHeight graphWidth (Name history +:+ " Time Series") in
    latest ← index sorted (int_sub (len sorted) 1);
    oldest ← index sorted 0;
    let timeRange := Format_clock (Timestamp oldest) +:+ " to " +:+
                     Format_clock (Timestamp latest) in
    let content := "[yellow]Current: " +:+ Sprintf_f2 (Value latest) +:+ "[white]" +:+
                   newline +:+ "[gray]Time Range: " +:+ timeRange +:+ "[white]" +:+
                   newline +:+ newline +:+ graph in
    Ok (h, set_panels t (store (panels t) i (SetText panel content))).

(** ** ui.go: updates *)

Definition QueueUpdateDraw (a : Application) (u : DrawUpdate) : Application :=
  mkApplication (a_focus a) (a_updates a ++ [u]).

Definition set_LastError (q : QueryHistory) (e : option error) : QueryHistory :=
  mkQueryHistory (Name q) (TimeSeries q) e.
Definition set_TimeSeries (q : QueryHistory) (p : option loc) : QueryHistory :=
  mkQueryHistory (Name q) p (LastError q).

Definition UpdateTimeSeries (t : TUI) (i : Z) (timeSeries : option loc)
    (err : option error) : result TUI :=
  if (i <? 0) || (len (histories t) <=? i) then Ok t
  else
    history ← index (histories t) i;
    let history :=
      match err with
      | Some _ => set_LastError history err
      | None => set_LastError (set_TimeSeries history timeSeries) None
      end in
    let t := set_histories t (store (histories t) i history) in
    match app t with
    | Some a =>
        if i <? len (panels t)
        then Ok (set_app t (Some (QueueUpdateDraw a (mkDrawUpdate i err))))
        else Ok t
    | None => Ok t
    end.

(** The queued closure, run later by the event loop on the state of then. *)
Definition run_update (h : Heap) (t : TUI) (u : DrawUpdate) : result (Heap * TUI) :=
  '(h, t) ← match du_err u with
            | Some err =>
                panel ← index (panels t) (du_index u);
                Ok (h, set_panels t
                         (store (panels t) (du_index u)
                            (SetText panel ("[red]Error: " +:+ err +:+ "[white]"))))
            | None => renderTimeSeriesGraph h t (du_index u)
            end;
  t ← updateTimeRange h t;
  Ok (h, t).

(** One turn of the event loop: take the oldest queued update and run it. *)
Definition draw_next (h : Heap) (t : TUI) : result (Heap * TUI) :=
  match app t with
  | Some (mkApplication fo (u :: us)) =>
      run_update h (set_app t (Some (mkApplication fo us))) u
  | _ => Ok (h, t)
  end.

Definition UpdateMetric (h : Heap) (t : TUI) (i : Z) (result_ : DataPoint)
    (err : option error) : result (Heap * TUI) :=
  match err with
  | Some _ => t ← UpdateTimeSeries t i None err; Ok (h, t)
  | None =>
      let '(h, pts) := slice_literal h [result_] in
      let '(h, timeSeries) := new_series h pts in
      t ← UpdateTimeSeries t i (Some timeSeries) None;
      Ok (h, t)
  end.

(** ** ui.go: construction *)

Fixpoint init_histories (h : Heap) (queries : list Query) : Heap * list QueryHistory :=
  match queries with
  | [] => (h, [])
  | query :: queries =>
      let '(h, pts) := slice_literal h [] in
      let '(h, ts) := new_series h pts in
      let '(h, hs) := init_histories h queries in
      (h, mkQueryHistory (q_Name query) (Some ts) None :: hs)
  end.

(** One panel of [setupUI]. *)
Definition new_panel (query : Query) : TextView :=
  SetWordWrap
    (SetDynamicColors
       (SetText (SetBorder (SetTitle NewTextView (" " +:+ q_Name query +:+ " ")) true)
                "Initializing...")
       true)
    false.

(** [setupUI]; the instructions line, the assembly of the main container and
    the key bindings (Tab and Right call [focusNext], Backtab and Left call
    [focusPrev], q and Q call the quit callback) leave the state of this
    model as it is. *)
Definition setupUI (t : TUI) (queries : list Query) : result TUI :=
  let t := set_scrollView t (Some []) in
  let t := set_panels t (map new_panel queries) in
  let t := if len queries <=? 2 then set_visiblePanels t (len queries)
           else if len queries =? 3 then set_visiblePanels t 3
           else set_visiblePanels t 3 in
  t ← updateScrollView t;
  let t := set_timeRange t
    (Some (SetDynamicColors
             (SetTextAlign (SetText NewTextView "Time Range: Waiting for data...")
                           AlignCenter)
             true)) in
  updateFocus t.

Definition NewApplication : Application := mkApplication None [].

Definition NewTUI (h : Heap) (queries : list Query) (onQuit_ : bool)
  : result (Heap * TUI) :=
  let '(h, hs) := init_histories h queries in
  let tui := mkTUI (Some NewApplication) None [] None 0 0 3 hs onQuit_ in
  t ← setupUI tui queries;
  Ok (h, t).

End UI.

(** * internal/app and internal/config *)

Module App.

(** ** The backend clients, as far as their constructors go *)

Record PromConfig := mkPromConfig { prom_URL : string }.
Record InfluxDBConfig := mkInfluxDBConfig {
  influx_URL : string; influx_Token : string; influx_Org : string; influx_Bucket : string
}.
Record InfluxDB1Config := mkInfluxDB1Config {
  influx1_URL : string; influx1_Username : string; influx1_Password : string;
  influx1_Database : string; influx1_UseHTTPS : bool
}.
Record MockConfig := mkMockConfig { mock_Seed : Z }.

Inductive Backend :=
| PromClient (c : PromConfig)
| InfluxDBClient (c : InfluxDBConfig)
| InfluxDB1Client (c : InfluxDB1Config)
| MockClient (c : MockConfig) (seed : Z).

(** [Backend.Name()] *)
Definition BackendName (b : Backend) : string :=
  match b with
  | PromClient _ => "prometheus"
  | InfluxDBClient _ => "influxdb"
  | InfluxDB1Client _ => "influxdb1"
  | MockClient _ _ => "mock"
  end.

(** What lies outside the repository: the client libraries, the clock, the
    network. [None] is Go's [nil] error. *)
Class Network := {
  (** [api.NewClient(api.Config{Address: url})] of the Prometheus library *)
  api_NewClient : string -> option error;
  (** [client.NewHTTPClient(conf)] of the InfluxDB v1 library *)
  NewHTTPClient : InfluxDB1Config -> option error;
  (** [time.Now().UnixNano()] *)
  UnixNano : Z;
  (** [backend.Connect(ctx)] within its five seconds *)
  Connect : Backend -> option error
}.

Section Orchestration.
Context `{!Externals} `{!Network}.

Definition prom_NewClient (config : PromConfig) : error + Backend :=
  match api_NewClient (prom_URL config) with
  | Some err => inl ("failed to create Prometheus client: " +:+ err)
  | None => inr (PromClient config)
  end.

Definition influxdb_NewClient (config : InfluxDBConfig) : error + Backend :=
  if String.eqb (influx_URL config) "" then inl "InfluxDB URL is required"
  else if String.eqb (influx_Token config) "" then inl "InfluxDB token is required"
  else if String.eqb (influx_Org config) "" then inl "InfluxDB organization is required"
  else if String.eqb (influx_Bucket config) "" then inl "InfluxDB bucket is required"
  else inr (InfluxDBClient config).

Definition influxdb1_NewClient (config : InfluxDB1Config) : error + Backend :=
  if String.eqb (influx1_URL config) "" then inl "InfluxDB v1 URL is required"
  else if String.eqb (influx1_Database config) "" then inl "InfluxDB v1 database is required"
  else match NewHTTPClient config with
       | Some err => inl ("failed to create InfluxDB v1 client: " +:+ err)
       | None => inr (InfluxDB1Client config)
       end.

Definition mock_NewClient (config : MockConfig) : Backend :=
  let seed := mock_Seed config in
  let seed := if seed =? 0 then UnixNano else seed in
  MockClient config seed.

(** ** config.go *)

Record Config := mkConfig {
  cfg_Backend : string;
  cfg_Prometheus : PromConfig;
  cfg_InfluxDB : InfluxDBConfig;
  cfg_InfluxDB1 : InfluxDB1Config;
  cfg_Mock : MockConfig;
  cfg_Queries : list Query
}.

Definition set_Backend (c : Config) (b : string) : Config :=
  mkConfig b (cfg_Prometheus c) (cfg_InfluxDB c) (cfg_InfluxDB1 c) (cfg_Mock c)
    (cfg_Queries c).

Definition unsupported_backend (name : string) : error :=
  "unsupported backend: " +:+ name +:+ " (supported: prometheus, influxdb, influxdb1, mock)".

(** [fmt.Errorf("query %d: ... is required", i)] *)
Definition query_error (i : nat) (what : string) : error :=
  "query " +:+ pretty i +:+ ": " +:+ what +:+ " is required".

Fixpoint validate_queries (i : nat) (queries : list Query) : option error :=
  match queries with
  | [] => None
  | query :: queries =>
      if String.eqb (q_Name query) "" then Some (query_error i "name")
      else if String.eqb (q_Expr query) "" then Some (query_error i "expr")
      else validate_queries (S i) queries
  end.

(** [Validate] writes the default backend into the configuration; the
    configuration it leaves is returned next to the error. *)
Definition Validate (c : Config) : Config * option error :=
  let c := if String.eqb (cfg_Backend c) "" then set_Backend c "prometheus" else c in
  let backend_error :=
    if String.eqb (cfg_Backend c) "prometheus" then
      if String.eqb (prom_URL (cfg_Prometheus c)) "" then Some "prometheus.url is required"
      else None
    else if String.eqb (cfg_Backend c) "influxdb" then
      if String.eqb (influx_URL (cfg_InfluxDB c)) "" then Some "influxdb.url is required"
      else if String.eqb (influx_Token (cfg_InfluxDB c)) "" then Some "influxdb.token is required"
      else if String.eqb (influx_Org (cfg_InfluxDB c)) "" then Some "influxdb.org is required"
      else if String.eqb (influx_Bucket (cfg_InfluxDB c)) "" then Some "influxdb.bucket is required"
      else None
    else if String.eqb (cfg_Backend c) "influxdb1" then
      if String.eqb (influx1_URL (cfg_InfluxDB1 c)) "" then Some "influxdb1.url is required"
      else if String.eqb (influx1_Database (cfg_InfluxDB1 c)) ""
           then Some "influxdb1.database is required"
      else None
    else if String.eqb (cfg_Backend c) "mock" then None
    else Some (unsupported_backend (cfg_Backend c)) in
  match backend_error with
  | Some err => (c, Some err)
  | None =>
      if len (cfg_Queries c) =? 0 then (c, Some "at least one query is required")
      else (c, validate_queries 0 (cfg_Queries c))
  end.

(** What reading and parsing the file at the given path gave. *)
Inductive ConfigFile :=
| ReadFailed (err : error)
| ParseFailed (err : error)
| Parsed (c : Config).

Definition LoadConfig (file : ConfigFile) : error + Config :=
  match file with
  | ReadFailed err => inl ("failed to read config file: " +:+ err)
  | ParseFailed err => inl ("failed to parse YAML: " +:+ err)
  | Parsed config =>
      match Validate config with
      | (_, Some err) => inl ("invalid configuration: " +:+ err)
      | (config, None) => inr config
      end
  end.

(** ** app.go: construction *)

Definition createBackend (cfg : Config) : error + Backend :=
  if String.eqb (cfg_Backend cfg) "prometheus" || String.eqb (cfg_Backend cfg) "" then
    prom_NewClient (cfg_Prometheus cfg)
  else if String.eqb (cfg_Backend cfg) "influxdb" then
    influxdb_NewClient (cfg_InfluxDB cfg)
  else if String.eqb (cfg_Backend cfg) "influxdb1" then
    influxdb1_NewClient (cfg_InfluxDB1 cfg)
  else if String.eqb (cfg_Backend cfg) "mock" then
    inr (mock_NewClient (cfg_Mock cfg))
  else inl (unsupported_backend (cfg_Backend cfg)).

Record App := mkApp {
  config : Config;
  backend : Backend;
  ui : TUI
}.

Definition New (h : Heap) (file : ConfigFile) : result (error + Heap * App) :=
  match LoadConfig file with
  | inl err => Ok (inl ("failed to load config: " +:+ err))
  | inr cfg =>
      match createBackend cfg with
      | inl err => Ok (inl ("failed to create backend: " +:+ err))
      | inr backend =>
          match Connect backend with
          | Some err => Ok (inl err)
          | None =>
              '(h, tui) ← NewTUI h (cfg_Queries cfg) true;
              Ok (inr (h, mkApp cfg backend tui))
          end
      end
  end.

(** ** main.go *)

Inductive Process :=
| Exit (code : Z)                 (* [os.Exit(code)] before [Start] *)
| Started (h : Heap) (a : App)    (* [application.Start()] is entered *)
| Crashed (msg : string).

Definition main (file_exists : bool) (h : Heap) (file : ConfigFile) : Process :=
  if negb file_exists then Exit 1
  else match New h file with
       | Ok (inl _) => Exit 1
       | Ok (inr (h, a)) => Started h a
       | Panic msg => Crashed msg
       end.

End Orchestration.

(** ** app.go: the goroutines of [Start], [updateLoop], [updateMetrics], [Stop]

    One record holds what the goroutines share; an [action] is one atomic
    step of one goroutine, and [exec] is defined where that step can run. *)

Inductive LoopState := LoopNotStarted | LoopSelecting | LoopReturned.
Inductive InitialState := InitialNotSpawned | InitialPending | InitialDone.
Inductive StopState := StopNotCalled | StopAtWait | StopAtClose | StopReturned.

Record Orch := mkOrch {
  o_queries : nat;            (* [len(a.config.Queries)] *)
  o_ticker : option bool;     (* [a.updateTicker]: nil, or whether it still runs *)
  o_tick : bool;              (* a tick waits in [a.updateTicker.C] *)
  o_cancelled : bool;         (* [a.ctx] is done *)
  o_ui_stopped : bool;
  o_wg : nat;                 (* the counter of [a.wg] *)
  o_loop : LoopState;         (* the goroutine running [updateLoop] *)
  o_initial : InitialState;   (* the goroutine of [go a.updateMetrics()] *)
  o_in_flight : nat;          (* per-query goroutines started and not yet returned *)
  o_stop : StopState;         (* the goroutine running [Stop] *)
  o_closed : bool             (* [a.backend.Close()] has run *)
}.

Definition initial (queries : nat) : Orch :=
  mkOrch queries None false false false 0 LoopNotStarted InitialNotSpawned 0
         StopNotCalled false.

Inductive action :=
| ActStart            (* [Start] up to [a.ui.Run()] *)
| ActInitialUpdate    (* the initial [updateMetrics] spawns its goroutines *)
| ActTickArrives      (* the running ticker sends on its channel *)
| ActLoopTick         (* [updateLoop] receives the tick and runs [updateMetrics] *)
| ActLoopDone         (* [updateLoop] receives [ctx.Done()], returns, [wg.Done()] *)
| ActTaskReturns      (* one per-query goroutine returns *)
| ActStopBegin        (* [Stop]: ticker stop, [a.cancel()], [a.ui.Stop()] *)
| ActStopWaited       (* [a.wg.Wait()] returns *)
| ActStopClose.       (* [a.backend.Close()] *)

Definition exec (a : action) (s : Orch) : option Orch :=
  match a with
  | ActStart =>
      match o_ticker s with
      | None =>
          Some (mkOrch (o_queries s) (Some true) (o_tick s) (o_cancelled s)
                  (o_ui_stopped s) (S (o_wg s)) LoopSelecting InitialPending
                  (o_in_flight s) (o_stop s) (o_closed s))
      | Some _ => None
      end
  | ActInitialUpdate =>
      match o_initial s with
      | InitialPending =>
          Some (mkOrch (o_queries s) (o_ticker s) (o_tick s) (o_cancelled s)
                  (o_ui_stopped s) (o_wg s) (o_loop s) InitialDone
                  (o_in_flight s + o_queries s)%nat (o_stop s) (o_closed s))
      | _ => None
      end
  | ActTickArrives =>
      match o_ticker s with
      | Some true =>
          Some (mkOrch (o_queries s) (o_ticker s) true (o_cancelled s)
                  (o_ui_stopped s) (o_wg s) (o_loop s) (o_initial s)
                  (o_in_flight s) (o_stop s) (o_closed s))
      | _ => None
      end
  | ActLoopTick =>
      match o_loop s, o_tick s with
      | LoopSelecting, true =>
          Some (mkOrch (o_queries s) (o_ticker s) false (o_cancelled s)
                  (o_ui_stopped s) (o_wg s) (o_loop s) (o_initial s)
                  (o_in_flight s + o_queries s)%nat (o_stop s) (o_closed s))
      | _, _ => None
      end
  | ActLoopDone =>
      match o_loop s, o_cancelled s with
      | LoopSelecting, true =>
          Some (mkOrch (o_queries s) (o_ticker s) (o_tick s) (o_cancelled s)
                  (o_ui_stopped s) (Nat.pred (o_wg s)) LoopReturned (o_initial s)
                  (o_in_flight s) (o_stop s) (o_closed s))
      | _, _ => None
      end
  | ActTaskReturns =>
      match o_in_flight s with
      | S n =>
          Some (mkOrch (o_queries s) (o_ticker s) (o_tick s) (o_cancelled s)
                  (o_ui_stopped s) (o_wg s) (o_loop s) (o_initial s)
                  n (o_stop s) (o_closed s))
      | O => None
      end
  | ActStopBegin =>
      match o_stop s with
      | StopNotCalled =>
          Some (mkOrch (o_queries s)
                  (match o_ticker s with Some _ => Some false | None => None end)
                  (o_tick s) true true (o_wg s) (o_loop s) (o_initial s)
                  (o_in_flight s) StopAtWait (o_closed s))
      | _ => None
      end
  | ActStopWaited =>
      match o_stop s, o_wg s with
      | StopAtWait, O =>
          Some (mkOrch (o_queries s) (o_ticker s) (o_tick s) (o_cancelled s)
                  (o_ui_stopped s) (o_wg s) (o_loop s) (o_initial s)
                  (o_in_flight s) StopAtClose (o_closed s))
      | _, _ => None
      end
  | ActStopClose =>
      match o_stop s with
      | StopAtClose =>
          Some (mkOrch (o_queries s) (o_ticker s) (o_tick s) (o_cancelled s)
                  (o_ui_stopped s) (o_wg s) (o_loop s) (o_initial s)
                  (o_in_flight s) StopReturned true)
      | _ => None
      end
  end.

(** A schedule, run from left to right. *)
Fixpoint run (schedule : list action) (s : Orch) : option Orch :=
  match schedule with
  | [] => Some s
  | a :: schedule =>
      match exec a s with
      | Some s => run schedule s
      | None => None
      end
  end.

End App.
(** * Specification-side definitions *)

(** ** The panel view state of the specification *)

(** Every length and offset stays far from the ends of [int]; a Go slice
    cannot come near [2^61] elements. *)
Definition bound : Z := 2 ^ 61.

(** What navigation relies on: the widgets exist, focus indexes a panel, at
    least one panel is shown at a time.  The scroll offset is arbitrary. *)
Record nav_ready (t : TUI) : Prop := {
  nr_app : is_Some (app t);
  nr_scrollView : is_Some (scrollView t);
  nr_len : len (panels t) <= bound;
  nr_focus : 0 <= focusIndex t < len (panels t);
  nr_visible : 1 <= visiblePanels t <= bound;
  nr_scroll : - bound <= scrollOffset t <= bound
}.

(** The focused panel lies in the visible window. *)
Definition focus_visible (t : TUI) : Prop :=
  scrollOffset t <= focusIndex t <= scrollOffset t + visiblePanels t - 1.

(** The scroll adjustment in the words of the specification: move the window
    when focus is right or left of it, then clamp. *)
Definition scroll_to_show (f s v n : Z) : Z :=
  let s1 := if s + v - 1 <? f then f - v + 1
            else if f <? s then f
            else s in
  Z.max 0 (Z.min s1 (Z.max 0 (n - v))).

Inductive direction := Next | Prev.

Definition focus_step (d : direction) : TUI -> result TUI :=
  match d with Next => focusNext | Prev => focusPrev end.

(** Wraparound modulo the query count. *)
Definition focus_target (d : direction) (f n : Z) : Z :=
  match d with Next => (f + 1) mod n | Prev => (f - 1) mod n end.


(** Apply a transition [k] times, stopping at the first panic. *)
Fixpoint iterate (k : nat) (step : TUI -> result TUI) (t : TUI) : result TUI :=
  match k with
  | O => Ok t
  | S k => t ← step t; iterate k step t
  end.

(** A state navigation may start from: nothing is asked of an empty panel
    list. *)
Definition nav_start (t : TUI) : Prop := 0 < len (panels t) -> nav_ready t.

(** ** Stored data *)

(** What one update writes into the cell of its query. *)
Definition updated_history (q : QueryHistory) (timeSeries : option loc)
    (err : option error) : QueryHistory :=
  match err with
  | Some _ => mkQueryHistory (Name q) (TimeSeries q) err
  | None => mkQueryHistory (Name q) timeSeries None
  end.

(** The redraw an in-range update schedules, when the panel exists. *)
Definition enqueue (t : TUI) (i : Z) (err : option error) : TUI :=
  match app t with
  | Some a =>
      if i <? len (panels t)
      then set_app t (Some (QueueUpdateDraw a (mkDrawUpdate i err)))
      else t
  | None => t
  end.

(** [p] points to the series [ts], whose slice is backed by an array. *)
Definition series_at (h : Heap) (p : loc) (ts : TimeSeriesResult) : Prop :=
  h_series h !! p = Some ts /\
  is_Some (h_arrays h !! s_base (Points ts)) /\
  Z.of_nat (s_len (Points ts)) <= bound.

(** Every non-nil series pointer of the histories points into the heap. *)
Definition heap_closed (h : Heap) (hs : list QueryHistory) : Prop :=
  Forall (fun q => forall p, TimeSeries q = Some p -> is_Some (h_series h !! p)) hs.

(** [h'] has everything [h] has, unchanged; it may have new arrays. *)
Definition heap_extends (h h' : Heap) : Prop :=
  h_series h' = h_series h /\
  forall l arr, h_arrays h !! l = Some arr -> h_arrays h' !! l = Some arr.

(** The points a history holds. *)
Definition stored_points (h : Heap) (q : QueryHistory) : list DataPoint :=
  match TimeSeries q with
  | Some p => match h_series h !! p with
              | Some ts => slice_elems h (Points ts)
              | None => []
              end
  | None => []
  end.

(** The union of all panels' stored points. *)
Definition all_points (h : Heap) (hs : list QueryHistory) : list DataPoint :=
  concat (map (stored_points h) hs).

(** The footer for a list of timestamps: the placeholder when there is none,
    else the range from a least to a greatest one. *)
Definition footer_for `{!Externals} (text : string) (stamps : list Time) : Prop :=
  match stamps with
  | [] => text = waiting_text
  | _ :: _ =>
      exists lo hi, lo ∈ stamps /\ hi ∈ stamps /\
                    (forall x, x ∈ stamps -> lo <= x <= hi) /\
                    text = range_text lo hi
  end.

(** Every history holds a series (the pointer is not nil). *)
Definition series_non_nil (t : TUI) : Prop :=
  Forall (fun q => is_Some (TimeSeries q)) (histories t).

(** What the locals of [updateTimeRange] hold once the timestamps [stamps]
    have been scanned. *)
Definition acc_for (acc : range_acc) (stamps : list Time) : Prop :=
  match stamps with
  | [] => acc = mkRangeAcc None None false
  | _ :: _ =>
      exists lo hi, acc = mkRangeAcc (Some lo) (Some hi) true /\
                    lo ∈ stamps /\ hi ∈ stamps /\
                    (forall x, x ∈ stamps -> lo <= x <= hi)
  end.

(** ** The backend factory *)

(** The identifiers [createBackend] knows; the empty one means Prometheus. *)
Definition supported_backends : list string :=
  ["prometheus"; ""; "influxdb"; "influxdb1"; "mock"].

(** The name of the backend an identifier selects. *)
Definition selected_name (identifier : string) : string :=
  if String.eqb identifier "" then "prometheus" else identifier.

(** ** Shutdown *)

(** The schedule on which [Stop] closes the backend early: the initial
    refresh is in flight, the quit key is pressed, the update loop sees the
    cancellation and returns, [wg.Wait()] returns, [Close] runs. *)
Definition early_close : list App.action :=
  [App.ActStart; App.ActInitialUpdate; App.ActStopBegin; App.ActLoopDone;
   App.ActStopWaited; App.ActStopClose].

(** What holds of [Stop] on every schedule: once it is past its first step
    the context is cancelled and the UI stopped, and the backend is closed
    only by its last step. *)
Definition stop_inv (s : App.Orch) : Prop :=
  (App.o_stop s <> App.StopNotCalled ->
   App.o_cancelled s = true /\ App.o_ui_stopped s = true) /\
  (App.o_closed s = true -> App.o_stop s = App.StopReturned).

(** ** Stand-ins for the outside world, for closed examples *)

Definition example_externals : Externals := {|
  Format_clock := fun t => pretty t;
  Sprintf_f0 := fun _ => "0";
  Sprintf_f2 := fun _ => "0.00";
  Plot := fun _ _ _ caption => caption;
  sort_Slice := fun less l => merge_sort (fun a b => Is_true (less a b)) l;
  sort_Slice_perm := fun less l => merge_sort_Permutation _ l
|}.

Definition example_network : App.Network := {|
  App.api_NewClient := fun _ => None;
  App.NewHTTPClient := fun _ => None;
  App.UnixNano := 1;
  App.Connect := fun _ => None
|}.

Definition empty_heap : Heap := mkHeap ∅ ∅.

Definition example_queries : list Query :=
  [mkQuery "cpu" "up"; mkQuery "mem" "free"; mkQuery "disk" "used";
   mkQuery "net" "rx"].

(** Two stored series: timestamps 10 < 20 in the first, 15 < 40 in the
    second. *)
Definition example_heap : Heap :=
  mkHeap
    (<[1%positive := mkTimeSeriesResult (mkSlice 1%positive 0%nat 2%nat)]>
       (<[2%positive := mkTimeSeriesResult (mkSlice 2%positive 0%nat 2%nat)]> ∅))
    (<[1%positive := [mkDataPoint 10 1%float; mkDataPoint 20 2%float]]>
       (<[2%positive := [mkDataPoint 15 3%float; mkDataPoint 40 4%float]]> ∅)).

(** Two panels over those series. *)
Definition example_two_panels : TUI :=
  mkTUI (Some NewApplication) (Some [mkFlexItem 0 0 1 true; mkFlexItem 1 0 1 false])
    [new_panel (mkQuery "cpu" "up"); new_panel (mkQuery "mem" "free")]
    (Some NewTextView) 0 0 2
    [mkQueryHistory "cpu" (Some 1%positive) None;
     mkQueryHistory "mem" (Some 2%positive) None]
    true.

(** Four panels, the first three visible, the third one focused. *)
Definition example_four_panels : TUI :=
  mkTUI (Some NewApplication) (Some []) (map new_panel example_queries)
    (Some NewTextView) 2 0 3 [] true.


(** * The rest of the code *)

(** ** ui.go: the key bindings installed by [setupUI] *)

Inductive Key :=
| KeyRune (r : Z)      (* a character key, with its code point *)
| KeyTab
| KeyRight
| KeyBacktab
| KeyLeft
| KeyOther.

(** What the input capture did: the state it left, whether it called the
    quit callback, and whether it returned the event for further handling. *)
Record KeyOutcome := mkKeyOutcome {
  ko_state : TUI;
  ko_quit : bool;
  ko_passed : bool
}.

Definition rune_q : Z := 113.
Definition rune_Q : Z := 81.

Definition inputCapture (t : TUI) (event : Key) : result KeyOutcome :=
  match event with
  | KeyRune r =>
      if (r =? rune_q) || (r =? rune_Q)
      then Ok (mkKeyOutcome t (onQuit t) false)
      else Ok (mkKeyOutcome t false true)
  | KeyTab | KeyRight => t ← focusNext t; Ok (mkKeyOutcome t false false)
  | KeyBacktab | KeyLeft => t ← focusPrev t; Ok (mkKeyOutcome t false false)
  | KeyOther => Ok (mkKeyOutcome t false true)
  end.

(** ** The panel view, specification side *)

(** The items of the scroll view for a state: the panels from the scroll
    offset on, as many as are visible at once (all, when there are fewer),
    each with proportion 1, the focused one flagged. *)
Definition window_items (t : TUI) : list FlexItem :=
  map (fun i => mkFlexItem i 0 1 (i =? focusIndex t))
      (seqZ (scrollOffset t) (Z.min (visiblePanels t) (len (panels t)))).

(** The colours [updateFocus] gives panel [j] when [f] has the focus. *)
Definition focus_colour (f : Z) (j : nat) : Color :=
  if Z.of_nat j =? f then ColorYellow else ColorWhite.

(** The number of panels shown at once for [n] queries. *)
Definition visible_for (n : Z) : Z := if n <=? 2 then n else 3.

(** The text of a panel in error. *)
Definition error_text (e : error) : string := "[red]Error: " +:+ e +:+ "[white]".

(** The text of a panel with data: current value, time span, graph. *)
Definition panel_content `{!Externals} (latest oldest : DataPoint) (graph : string)
  : string :=
  "[yellow]Current: " +:+ Sprintf_f2 (Value latest) +:+ "[white]" +:+
  newline +:+ "[gray]Time Range: " +:+
  (Format_clock (Timestamp oldest) +:+ " to " +:+ Format_clock (Timestamp latest))
  +:+ "[white]" +:+ newline +:+ newline +:+ graph.

(** [sort.Slice] with [less] leaves no later element less than an earlier
    one; for [less_by_time] the timestamps are in ascending order. *)
Definition sorts_by_time `{!Externals} : Prop :=
  forall l, StronglySorted (fun a b => Timestamp a <= Timestamp b)
                           (sort_Slice less_by_time l).

(** A sort that meets [sorts_by_time], for closed examples. *)
Definition ascending (less : DataPoint -> DataPoint -> bool) (a b : DataPoint) : Prop :=
  Is_true (negb (less b a)).

Definition sorting_externals : Externals := {|
  Format_clock := fun t => pretty t;
  Sprintf_f0 := fun _ => "0";
  Sprintf_f2 := fun _ => "0.00";
  Plot := fun _ _ _ caption => caption;
  sort_Slice := fun less l => merge_sort (ascending less) l;
  sort_Slice_perm := fun less l => merge_sort_Permutation _ l
|}.

(** ** Configuration, specification side *)

(** A query with both fields filled in. *)
Definition complete_query (q : Query) : Prop := q_Name q <> "" /\ q_Expr q <> "".

(** A configuration names a known backend, gives that backend its required
    settings, and lists at least one query, all complete. *)
Definition valid_config (c : App.Config) : Prop :=
  (((App.cfg_Backend c = "" \/ App.cfg_Backend c = "prometheus") /\
    App.prom_URL (App.cfg_Prometheus c) <> "") \/
   (App.cfg_Backend c = "influxdb" /\
    App.influx_URL (App.cfg_InfluxDB c) <> "" /\
    App.influx_Token (App.cfg_InfluxDB c) <> "" /\
    App.influx_Org (App.cfg_InfluxDB c) <> "" /\
    App.influx_Bucket (App.cfg_InfluxDB c) <> "") \/
   (App.cfg_Backend c = "influxdb1" /\
    App.influx1_URL (App.cfg_InfluxDB1 c) <> "" /\
    App.influx1_Database (App.cfg_InfluxDB1 c) <> "") \/
   App.cfg_Backend c = "mock") /\
  App.cfg_Queries c <> [] /\
  Forall complete_query (App.cfg_Queries c).

(** ** Shutdown after [Start], specification side *)

(** What holds on every schedule once [Start] has run: the WaitGroup counts
    exactly the running update loop; the loop returns only on cancellation;
    [Stop] stops the ticker and cancels first, passes [wg.Wait()] only after
    the loop has returned, and closes the backend last. *)
Definition started_inv (s : App.Orch) : Prop :=
  is_Some (App.o_ticker s) /\
  ((App.o_loop s = App.LoopSelecting /\ App.o_wg s = 1%nat) \/
   (App.o_loop s = App.LoopReturned /\ App.o_wg s = 0%nat /\
    App.o_cancelled s = true)) /\
  (App.o_stop s <> App.StopNotCalled ->
   App.o_ticker s = Some false /\ App.o_cancelled s = true /\
   App.o_ui_stopped s = true) /\
  (App.o_stop s = App.StopAtClose \/ App.o_stop s = App.StopReturned ->
   App.o_loop s = App.LoopReturned) /\
  (App.o_closed s = true -> App.o_stop s = App.StopReturned).

(** ** Helpers shared by the backend clients *)

(** [strings.Contains(s, substr)] on byte strings. *)
Fixpoint Contains (s substr : string) : bool :=
  String.prefix substr s ||
  match s with
  | EmptyString => false
  | String _ s' => Contains s' substr
  end.

(** The double quote, for the query templates. *)
Definition dquote : string := String (Ascii.ascii_of_nat 34) EmptyString.
Definition tab : string := String (Ascii.ascii_of_nat 9) EmptyString.

(** [time.Minute], in nanoseconds. *)
Definition Minute : Z := 60000000000.

(** [&backend.TimeSeriesResult{Points: points}] for a slice built by
    [append]: a new array holding the points and a new series over it.  The
    nil slice left when nothing was appended is held as the empty slice; the
    UI only takes the length of [Points] and ranges over it. *)
Definition series_of (h : Heap) (points : list DataPoint) : Heap * loc :=
  let '(h, pts) := slice_literal h points in
  new_series h pts.

(** A cell of a decoded response: Go's [interface{}] with the dynamic types
    the clients look at. *)
Inductive Value_ :=
| VNil
| VFloat64 (f : float)
| VInt64 (z : Z)
| VInt (z : Z)
| VString (s : string)
| VJSONNumber (s : string)
| VOther (type_name : string).

(** Conversions of the Go standard library the clients call. *)
Class Conversions := {
  (** [strconv.ParseFloat(s, 64)], [None] on error *)
  ParseFloat : string -> option float;
  (** [json.Number.Float64()], [None] on error *)
  Number_Float64 : string -> option float;
  (** [float64(v)] for an integer [v] *)
  float_of_int : Z -> float;
  (** [time.Parse(time.RFC3339, s)], [None] on error *)
  Parse_RFC3339 : string -> option Time;
  (** [strings.ToUpper] *)
  ToUpper : string -> string
}.

(** ** internal/backend/influxdb1/client.go *)

Module InfluxDB1.

Record Series := mkSeries { Values : list (list Value_) }.
Record Result := mkResult { Series_ : list Series }.
Record Response := mkResponse {
  Results : list Result;
  Error_ : option error      (* what [response.Error()] returns *)
}.

Record Query := mkQuery { Command : string; Database : string }.

Section Client.
Context `{!Conversions}.
(** [c.client.Query(query)] of the client library *)
Variable client_Query : Query -> error + Response.

Definition getDefaultMeasurement (expr : string) : string :=
  if Contains expr "cpu" then "cpu"
  else if Contains expr "memory" || Contains expr "mem" then "mem"
  else if Contains expr "disk" then "disk"
  else if Contains expr "net" then "net"
  else "metrics".

Definition convertToFloat64 (value : Value_) : error + float :=
  match value with
  | VFloat64 v => inr v
  | VInt64 v => inr (float_of_int v)
  | VInt v => inr (float_of_int v)
  | VString v =>
      match ParseFloat v with
      | Some f => inr f
      | None => inl ("cannot convert string value to float: " +:+ v)
      end
  | VJSONNumber v =>
      match Number_Float64 v with
      | Some f => inr f
      | None => inl ("cannot convert json.Number to float: " +:+ v)
      end
  | VNil => inl "unsupported value type: <nil>"
  | VOther type_name => inl ("unsupported value type: " +:+ type_name)
  end.

(** One turn of the loop over [series.Values]: the points so far and the row. *)
Definition add_row (points : list DataPoint) (values : list Value_) : list DataPoint :=
  if len values <? 2 then points
  else
    match values !! 0%nat with
    | Some (VString timestampStr) =>
        match Parse_RFC3339 timestampStr with
        | None => points
        | Some timestamp =>
            match values !! 1%nat with
            | Some VNil => points ++ [mkDataPoint timestamp 0%float]
            | Some v =>
                match convertToFloat64 v with
                | inl _ => points
                | inr value => points ++ [mkDataPoint timestamp value]
                end
            | None => points
            end
        end
    | _ => points
    end.

Definition select_query (expr : string) : string :=
  "SELECT mean(" +:+ dquote +:+ expr +:+ dquote +:+ ") FROM " +:+ dquote +:+
  getDefaultMeasurement expr +:+ dquote +:+
  " WHERE time >= now() - 5m GROUP BY time(1m) fill(0) ORDER BY time DESC".

(** The InfluxQL sent: a full query as it is, a bare field wrapped. *)
Definition queryStr (expr : string) : string :=
  if Contains (ToUpper expr) "SELECT" then expr else select_query expr.

Definition QueryTimeSeries (database : string) (h : Heap) (expr : string)
  : Heap * (error + loc) :=
  match client_Query (mkQuery (queryStr expr) database) with
  | inl err => (h, inl ("query failed: " +:+ err))
  | inr response =>
      match Error_ response with
      | Some err => (h, inl ("InfluxDB v1 query error: " +:+ err))
      | None =>
          match Results response with
          | [] => let '(h, p) := series_of h [] in (h, inr p)
          | result :: _ =>
              match Series_ result with
              | [] => let '(h, p) := series_of h [] in (h, inr p)
              | series :: _ =>
                  if len (Values series) =? 0
                  then let '(h, p) := series_of h [] in (h, inr p)
                  else let '(h, p) := series_of h (foldl add_row [] (Values series)) in
                       (h, inr p)
              end
          end
      end
  end.

End Client.
End InfluxDB1.

(** ** internal/backend/influxdb/client.go *)

Module InfluxDB.

(** One record of a query result: [record.Time()] and [record.Value()]. *)
Record Record_ := mkRecord { rec_Time : Time; rec_Value : Value_ }.

(** What iterating a query result gives: the records [result.Next()] steps
    through, and what [result.Err()] returns after the loop. *)
Record QueryResult := mkQueryResult {
  records : list Record_;
  Err : option error
}.

Section Client.
Context `{!Conversions}.
(** [c.queryAPI.Query(ctx, query)] of the client library *)
Variable queryAPI_Query : string -> error + QueryResult.

Definition indent : string := newline +:+ tab +:+ tab +:+ tab.

(** The Flux query built around a bare filter expression. *)
Definition wrap_filter (bucket expr : string) : string :=
  indent +:+ "from(bucket: " +:+ dquote +:+ bucket +:+ dquote +:+ ")" +:+
  indent +:+ "|> range(start: -5m)" +:+
  indent +:+ "|> filter(fn: (r) => " +:+ expr +:+ ")" +:+
  indent +:+ "|> aggregateWindow(every: 1m, fn: mean, createEmpty: true)" +:+
  indent +:+ "|> fill(value: 0.0)" +:+
  indent +:+ "|> sort(columns: [" +:+ dquote +:+ "_time" +:+ dquote +:+ "], desc: true)" +:+
  newline +:+ tab +:+ tab.

Definition build_query (bucket expr : string) : string :=
  if negb (Contains expr "from(bucket:") then wrap_filter bucket expr else expr.

(** The type switch on [record.Value()]; [None] where the loop continues. *)
Definition record_value (value : Value_) : option float :=
  match value with
  | VFloat64 v => Some v
  | VInt64 v => Some (float_of_int v)
  | VString v =>
      match ParseFloat v with
      | Some f => Some f
      | None => None
      end
  | _ => None
  end.

(** One turn of the loop over the records. *)
Definition add_record (points : list DataPoint) (record : Record_) : list DataPoint :=
  let timestamp := rec_Time record in
  match rec_Value record with
  | VNil => points
  | v =>
      match record_value v with
      | Some value => points ++ [mkDataPoint timestamp value]
      | None => points
      end
  end.

Definition QueryTimeSeries (bucket : string) (h : Heap) (expr : string)
  : Heap * (error + loc) :=
  match queryAPI_Query (build_query bucket expr) with
  | inl err => (h, inl ("query failed: " +:+ err))
  | inr result =>
      let points := foldl add_record [] (records result) in
      match Err result with
      | Some err => (h, inl ("error reading query result: " +:+ err))
      | None => let '(h, p) := series_of h points in (h, inr p)
      end
  end.

End Client.
End InfluxDB.

(** ** internal/backend/prom/client.go *)

Module Prom.

(** [model.SamplePair]: a [model.Time] (milliseconds) and a value. *)
Record SamplePair := mkSamplePair { sp_Timestamp : Z; sp_Value : float }.
Record SampleStream := mkSampleStream { ss_Values : list SamplePair }.

(** [model.Value] by its type. *)
Inductive QueryValue :=
| ValMatrix (matrix : list SampleStream)
| ValOther (type_name : string).   (* scalar, vector, string, none *)

Record Range := mkRange { Start : Time; End_ : Time; Step : Z }.

Section Client.
(** [c.api.QueryRange(ctx, expr, range)]; the warnings are only logged. *)
Variable api_QueryRange : string -> Range -> error + QueryValue.
(** [time.Now()] *)
Variable now : Time.
(** [model.Time.Time()] of the client library *)
Variable Time_of_ms : Z -> Time.

(** The inner loop, over the samples of one stream. *)
Definition add_samples (points : list DataPoint) (samples : list SamplePair)
  : list DataPoint :=
  foldl (fun points sample =>
           points ++ [mkDataPoint (Time_of_ms (sp_Timestamp sample)) (sp_Value sample)])
        points samples.

Definition QueryTimeSeries (h : Heap) (expr : string) : Heap * (error + loc) :=
  let end_ := now in
  let start := end_ + (-5) * Minute in
  let step := Minute in
  match api_QueryRange expr (mkRange start end_ step) with
  | inl err => (h, inl ("query failed: " +:+ err))
  | inr (ValMatrix matrix) =>
      let points :=
        foldl (fun points sampleStream => add_samples points (ss_Values sampleStream))
              [] matrix in
      let '(h, p) := series_of h points in (h, inr p)
  | inr (ValOther type_name) =>
      (h, inl ("unsupported result type for range query: " +:+ type_name))
  end.

End Client.
End Prom.

(** ** internal/backend/mock/client.go *)

Module Mock.

(** [math/rand]: the generator's state and the two draws the client makes. *)
Class RandLib := {
  Rand : Type;
  rand_New : Z -> Rand;                 (* [rand.New(rand.NewSource(seed))] *)
  Intn : Rand -> Z -> Z * Rand;
  Float64 : Rand -> float * Rand
}.

Section Client.
Context `{!RandLib}.
(** [time.Now()], read once the simulated delay is over *)
Variable now : Time.

Record Client := mkClient { seed : Z; rand : Rand }.

(** The value drawn for one point. *)
Definition baseValue (expr : string) (r : Rand) : float * Rand :=
  let '(x, r) := Float64 r in
  if String.eqb expr "cpu_usage" then (50 + x * 30, r)%float
  else if String.eqb expr "memory_usage" then (4000 + x * 2000, r)%float
  else if String.eqb expr "disk_usage" then (20 + x * 40, r)%float
  else if String.eqb expr "network_bytes" then (1000 + x * 5000, r)%float
  else (x * 1000, r)%float.

(** The loop [for i := 4; i >= 0; i--], with [k + 1] turns left: [i = k]. *)
Fixpoint generate (k : nat) (expr : string) (points : list DataPoint) (r : Rand)
  : list DataPoint * Rand :=
  let timestamp := now + - Z.of_nat k * Minute in
  let '(value, r) := baseValue expr r in
  let points := points ++ [mkDataPoint timestamp value] in
  match k with
  | O => (points, r)
  | S k => generate k expr points r
  end.

Definition QueryTimeSeries (c : Client) (h : Heap) (expr : string)
  : Client * Heap * (error + loc) :=
  let '(_, r) := Intn (rand c) 50 in     (* the simulated delay *)
  let '(points, r) := generate 4 expr [] r in
  let '(h, p) := series_of h points in
  (mkClient (seed c) r, h, inr p).

End Client.
End Mock.

(** ** app.go: the body of one per-query goroutine of [updateMetrics] *)

(** [outcome] is what [a.backend.QueryTimeSeries(ctx, q.Expr)] returned. *)
Definition refresh_task (t : TUI) (idx : Z) (outcome : error + loc) : result TUI :=
  match outcome with
  | inl err => UpdateTimeSeries t idx None (Some err)
  | inr timeSeries => UpdateTimeSeries t idx (Some timeSeries) None
  end.

(** ** What the backends' loops compute, row by row *)

(** The point a row of an InfluxDB v1 series gives: the time in the first
    column, the value in the second, zero for a null value. *)
Definition row_point `{!Conversions} (row : list Value_) : option DataPoint :=
  match row with
  | VString stamp :: VNil :: _ =>
      timestamp ← Parse_RFC3339 stamp; Some (mkDataPoint timestamp 0%float)
  | VString stamp :: cell :: _ =>
      timestamp ← Parse_RFC3339 stamp;
      match InfluxDB1.convertToFloat64 cell with
      | inr value => Some (mkDataPoint timestamp value)
      | inl _ => None
      end
  | _ => None
  end.

(** The rows the v1 client reads: those of the first series of the first
    result. *)
Definition first_rows (response : InfluxDB1.Response) : list (list Value_) :=
  match InfluxDB1.Results response with
  | result :: _ =>
      match InfluxDB1.Series_ result with
      | series :: _ => InfluxDB1.Values series
      | [] => []
      end
  | [] => []
  end.

(** The point a Flux record gives. *)
Definition record_point `{!Conversions} (record : InfluxDB.Record_) : option DataPoint :=
  value ← InfluxDB.record_value (InfluxDB.rec_Value record);
  Some (mkDataPoint (InfluxDB.rec_Time record) value).

(** The points of a Prometheus matrix, stream after stream. *)
Definition matrix_points (Time_of_ms : Z -> Time) (matrix : list Prom.SampleStream)
  : list DataPoint :=
  concat (map (fun stream =>
                 map (fun sample => mkDataPoint (Time_of_ms (Prom.sp_Timestamp sample))
                                                (Prom.sp_Value sample))
                     (Prom.ss_Values stream))
              matrix).

(** What a query returning [points] leaves in the heap: a new series at [p]
    holding them, everything that was there before unchanged. *)
Definition returns_series (h h' : Heap) (p : loc) (points : list DataPoint) : Prop :=
  h_series h !! p = None /\
  (exists ts, h_series h' !! p = Some ts /\ slice_elems h' (Points ts) = points) /\
  (forall l ts, h_series h !! l = Some ts -> h_series h' !! l = Some ts) /\
  (forall l arr, h_arrays h !! l = Some arr -> h_arrays h' !! l = Some arr).

(** Stand-ins for the conversions and the generator, for closed examples. *)
Definition example_conversions : Conversions := {|
  ParseFloat := fun s => if String.eqb s "1" then Some 1%float else None;
  Number_Float64 := fun s => if String.eqb s "1" then Some 1%float else None;
  float_of_int := fun z => Z.iter z (fun f => (f + 1)%float) 0%float;
  Parse_RFC3339 := fun s => if String.eqb s "1970-01-01T00:00:00Z" then Some 0 else None;
  ToUpper := fun s => s
|}.

Definition example_rand : Mock.RandLib := {|
  Mock.Rand := Z;
  Mock.rand_New := fun seed => seed;
  Mock.Intn := fun r n => (r mod n, r + 1);
  Mock.Float64 := fun r => (0.5%float, r + 1)
|}.

(** ** What one refresh leaves in the histories *)

Definition outcome_series (outcome : error + loc) : option loc :=
  match outcome with inl _ => None | inr p => Some p end.

Definition outcome_error (outcome : error + loc) : option error :=
  match outcome with inl err => Some err | inr _ => None end.

(** The cell of query [idx] after its refresh came back with [outcome];
    nothing changes for an index that names no query. *)
Definition refreshed (hs : list QueryHistory) (idx : Z) (outcome : error + loc)
  : list QueryHistory :=
  if (idx <? 0) || (len hs <=? idx) then hs
  else match hs !! Z.to_nat idx with
       | Some q =>
           <[Z.to_nat idx :=
               updated_history q (outcome_series outcome) (outcome_error outcome)]> hs
       | None => hs
       end.

(** The redraws waiting in the event queue. *)
Definition queued (t : TUI) : list DrawUpdate :=
  match app t with Some a => a_updates a | None => [] end.

(** Whether the refresh of query [idx] queues a redraw: the index names a
    query, the application exists and the query has a panel. *)
Definition queues (t : TUI) (idx : Z) : bool :=
  negb ((idx <? 0) || (len (histories t) <=? idx)) &&
  match app t with Some _ => true | None => false end &&
  (idx <? len (panels t)).

(** ** Closed examples for the backends *)

(** The example heap with a third series that holds no point. *)
Definition example_heap_with_empty : Heap :=
  mkHeap
    (<[3%positive := mkTimeSeriesResult (mkSlice 3%positive 0%nat 0%nat)]>
       (h_series example_heap))
    (<[3%positive := []]> (h_arrays example_heap)).

Definition example_config : App.Config :=
  App.mkConfig "mock" (App.mkPromConfig "") (App.mkInfluxDBConfig "" "" "" "")
    (App.mkInfluxDB1Config "" "" "" "" false) (App.mkMockConfig 7) example_queries.

(** A v1 response: a row with a value, a row whose time does not parse, a
    row with a null value; a second series that is never read. *)
Definition example_response : InfluxDB1.Response :=
  InfluxDB1.mkResponse
    [InfluxDB1.mkResult
       [InfluxDB1.mkSeries
          [[VString "1970-01-01T00:00:00Z"; VFloat64 1%float];
           [VString "yesterday"; VFloat64 2%float];
           [VString "1970-01-01T00:00:00Z"; VNil]];
        InfluxDB1.mkSeries [[VString "1970-01-01T00:00:00Z"; VFloat64 3%float]]]]
    None.

Definition example_v1_client (query : InfluxDB1.Query) : error + InfluxDB1.Response :=
  inr example_response.

Definition failing_v1_client (query : InfluxDB1.Query) : error + InfluxDB1.Response :=
  inl "connection refused".

(** A Flux result read to its end, and one whose reading broke off. *)
Definition example_records : list InfluxDB.Record_ :=
  [InfluxDB.mkRecord 60 (VFloat64 1%float); InfluxDB.mkRecord 120 VNil;
   InfluxDB.mkRecord 180 (VString "1"); InfluxDB.mkRecord 240 (VOther "bool")].

Definition example_flux_client (query : string) : error + InfluxDB.QueryResult :=
  inr (InfluxDB.mkQueryResult example_records None).

Definition broken_flux_client (query : string) : error + InfluxDB.QueryResult :=
  inr (InfluxDB.mkQueryResult example_records (Some "unexpected EOF")).

(** A matrix of two streams, and a server that answers with a vector. *)
Definition example_matrix : list Prom.SampleStream :=
  [Prom.mkSampleStream [Prom.mkSamplePair 1000 1%float; Prom.mkSamplePair 61000 2%float];
   Prom.mkSampleStream [Prom.mkSamplePair 1000 3%float]].

Definition example_prom_api (expr : string) (r : Prom.Range)
  : error + Prom.QueryValue :=
  inr (Prom.ValMatrix example_matrix).

Definition vector_prom_api (expr : string) (r : Prom.Range)
  : error + Prom.QueryValue :=
  inr (Prom.ValOther "vector").

Definition example_now : Time := 300000000000.
Definition example_Time_of_ms (ms : Z) : Time := ms * 1000000.
(** * Properties *)

(** ** Arithmetic and indexing *)

Lemma wrap_small z : int_min <= z <= int_max -> wrap z = z.
Proof.
  unfold int_min, int_max, wrap. intros Hz.
  rewrite Z.mod_small; lia.
Qed.

Lemma index_in_range {A} (s : list A) i :
  0 <= i < len s -> exists x, index s i = Ok x /\ s !! Z.to_nat i = Some x.
Proof.
  unfold index, len. intros Hi.
  destruct (lookup_lt_is_Some_2 s (Z.to_nat i)) as [x Hx]; [lia|].
  exists x. rewrite Hx.
  destruct (i <? 0) eqn:E1; [lia|].
  destruct (Z.of_nat (length s) <=? i) eqn:E2; [lia|]. done.
Qed.

Lemma add_visible_ok t first endIndex :
  0 <= first -> endIndex <= len (panels t) ->
  exists items, add_visible t first endIndex = Ok items.
Proof.
  intros Hf He. unfold add_visible.
  assert (Hall : Forall (fun i => 0 <= i < len (panels t))
                        (seqZ first (endIndex - first))).
  { apply Forall_seqZ. lia. }
  induction Hall as [|i l Hi _ IH]; [by eexists|].
  destruct (index_in_range (panels t) i Hi) as (x & Hx & _).
  destruct IH as [items Hitems].
  exists (mkFlexItem i 0 1 (i =? focusIndex t) :: items).
  cbn in *. rewrite Hx. cbn. rewrite Hitems. done.
Qed.

(** ** The focus and scroll state machine *)

Arguments updateScrollView : simpl never.
Arguments add_visible : simpl never.

Lemma updateScrollView_spec t :
  is_Some (scrollView t) -> 0 < len (panels t) <= bound ->
  0 <= visiblePanels t <= bound -> - bound <= scrollOffset t <= bound ->
  exists items,
    updateScrollView t =
    Ok (set_scrollView
          (set_scrollOffset t
             (Z.max 0 (Z.min (scrollOffset t)
                             (Z.max 0 (len (panels t) - visiblePanels t)))))
          (Some items)).
Proof.
  intros [sv Hsv] Hn Hv Hs. unfold updateScrollView, bound in *. rewrite Hsv.
  destruct t as [a sv' ps tr f s v hs q]; cbn in *.
  destruct (len ps =? 0) eqn:E0; [lia|].
  unfold int_sub, int_add.
  rewrite (wrap_small (len ps - v)) by (unfold int_min, int_max; lia).
  destruct (len ps - v <? 0) eqn:E1;
    (destruct (_ <? s) eqn:E2; cbn;
     [destruct (_ <? 0) eqn:E3 | destruct (s <? 0) eqn:E3]; cbn).
  all: rewrite wrap_small by (unfold int_min, int_max; lia).
  all: match goal with
       | |- context [add_visible ?t ?a ?b] =>
           destruct (add_visible_ok t a b) as [items Hitems];
           [ cbn; lia
           | cbn; try (destruct (len ps <? _) eqn:E4); lia
           | exists items; rewrite Hitems; cbn;
             unfold set_scrollView, set_scrollOffset; cbn;
             repeat f_equal; lia ]
       end.
Qed.

Lemma scrollToShowFocus_spec t :
  is_Some (scrollView t) -> 0 < len (panels t) <= bound ->
  1 <= visiblePanels t <= bound -> - bound <= scrollOffset t <= bound ->
  0 <= focusIndex t < len (panels t) ->
  exists items,
    scrollToShowFocus t =
    Ok (set_scrollView
          (set_scrollOffset t
             (scroll_to_show (focusIndex t) (scrollOffset t)
                             (visiblePanels t) (len (panels t))))
          (Some items)).
Proof.
  intros Hsv Hn Hv Hs Hf. unfold scrollToShowFocus, scroll_to_show.
  destruct (len (panels t) =? 0) eqn:E0; [lia|].
  unfold int_add, int_sub, bound in *.
  rewrite (wrap_small (scrollOffset t + _)) by (unfold int_min, int_max; lia).
  rewrite (wrap_small (focusIndex t - _)) by (unfold int_min, int_max; lia).
  rewrite !wrap_small by (unfold int_min, int_max; lia).
  destruct (scrollOffset t + visiblePanels t - 1 <? focusIndex t) eqn:E1.
  - (* focus right of the window *)
    cbn [focusIndex set_scrollOffset].
    destruct (focusIndex t <? scrollOffset t) eqn:E2; [lia|].
    destruct (updateScrollView_spec
                (set_scrollOffset t (focusIndex t - visiblePanels t + 1)))
      as [items Hitems]; cbn; unfold bound; try lia; try done.
    exists items. rewrite Hitems.
    unfold set_scrollView, set_scrollOffset; cbn. repeat f_equal; lia.
  - destruct (focusIndex t <? scrollOffset t) eqn:E2.
    + (* focus left of the window *)
      destruct (updateScrollView_spec (set_scrollOffset t (focusIndex t)))
        as [items Hitems]; cbn; unfold bound; try lia; try done.
      exists items. rewrite Hitems.
      unfold set_scrollView, set_scrollOffset; cbn. repeat f_equal; lia.
    + destruct (updateScrollView_spec t) as [items Hitems];
        unfold bound; try lia; try done.
      exists items. rewrite Hitems.
      unfold set_scrollView, set_scrollOffset; cbn. repeat f_equal; lia.
Qed.

Lemma updateScrollView_keeps_focus t t' :
  updateScrollView t = Ok t' -> focusIndex t' = focusIndex t.
Proof.
  unfold updateScrollView. destruct (scrollView t); [|done].
  cbn [panels set_scrollView].
  destruct (len (panels t) =? 0); [by intros [= <-]|].
  cbv zeta.
  match goal with
  | |- context [add_visible ?u ?a ?b] => destruct (add_visible u a b) as [items|]
  end; cbn; [|done].
  intros [= <-]. cbn.
  repeat (match goal with |- context [if ?b then _ else _] => destruct b end; cbn);
    reflexivity.
Qed.

(** [scrollToShowFocus] moves the window, never the focus. *)
Lemma scrollToShowFocus_keeps_focus t t' :
  scrollToShowFocus t = Ok t' -> focusIndex t' = focusIndex t.
Proof.
  unfold scrollToShowFocus.
  destruct (len (panels t) =? 0); [by intros [= <-]|].
  cbv zeta. intros H%updateScrollView_keeps_focus. rewrite H.
  repeat (match goal with |- context [if ?b then _ else _] => destruct b end; cbn);
    reflexivity.
Qed.

Lemma updateFocus_spec t :
  is_Some (app t) -> 0 <= focusIndex t < len (panels t) ->
  exists t',
    updateFocus t = Ok t' /\ is_Some (app t') /\
    scrollView t' = scrollView t /\ len (panels t') = len (panels t) /\
    focusIndex t' = focusIndex t /\ scrollOffset t' = scrollOffset t /\
    visiblePanels t' = visiblePanels t /\ histories t' = histories t /\
    timeRange t' = timeRange t.
Proof.
  intros [a Ha] Hf. unfold updateFocus.
  destruct (len (panels t) =? 0) eqn:E0; [lia|].
  destruct t as [a' sv ps tr f s v hs q]; cbn in *. subst a'.
  set (ps' := imap _ ps).
  assert (Hlen : len ps' = len ps) by (unfold len, ps'; by rewrite length_imap).
  destruct ((s <=? f) && (f <=? int_sub (int_add s v) 1)).
  - destruct (index_in_range ps' f) as (x & Hx & _); [lia|].
    rewrite Hx. cbn. eexists. split; [reflexivity|]. cbn. eauto 10.
  - eexists. split; [reflexivity|]. cbn. eauto 10.
Qed.

Lemma focus_target_range d f n : 0 < n -> 0 <= focus_target d f n < n.
Proof. intros Hn. destruct d; cbn; apply Z.mod_pos_bound; lia. Qed.

Lemma focus_step_unfold d t :
  0 < len (panels t) -> 0 <= focusIndex t < len (panels t) ->
  len (panels t) <= bound ->
  focus_step d t =
  (t1 ← scrollToShowFocus
          (set_focusIndex t (focus_target d (focusIndex t) (len (panels t))));
   updateFocus t1).
Proof.
  intros Hn Hf Hb. unfold bound in Hb.
  destruct d; cbn [focus_step focus_target]; unfold focusNext, focusPrev.
  - destruct (0 <? len (panels t)) eqn:E; [|lia].
    unfold int_rem, int_add.
    rewrite wrap_small by (unfold int_min, int_max; lia).
    rewrite Z.rem_mod_nonneg by lia. reflexivity.
  - destruct (0 <? len (panels t)) eqn:E; [|lia].
    unfold int_rem, int_add, int_sub.
    rewrite (wrap_small (focusIndex t - 1)) by (unfold int_min, int_max; lia).
    rewrite wrap_small by (unfold int_min, int_max; lia).
    rewrite Z.rem_mod_nonneg by lia.
    replace (focusIndex t - 1 + len (panels t))
      with (focusIndex t - 1 + 1 * len (panels t)) by lia.
    rewrite Z.mod_add by lia. reflexivity.
Qed.

Lemma scroll_to_show_visible f s v n :
  0 <= f < n -> 1 <= v ->
  let s' := scroll_to_show f s v n in
  s' <= f <= s' + v - 1 /\ 0 <= s' <= Z.max 0 (n - v).
Proof.
  intros Hf Hv. unfold scroll_to_show.
  destruct (s + v - 1 <? f) eqn:E1; [|destruct (f <? s) eqn:E2]; cbn; lia.
Qed.

Lemma focus_step_spec (d : direction) (t : TUI) :
  0 < len (panels t) -> nav_ready t ->
  exists t',
    focus_step d t = Ok t' /\
    focus_visible t' /\
    focusIndex t' = focus_target d (focusIndex t) (len (panels t)) /\
    scrollOffset t' =
      scroll_to_show (focusIndex t') (scrollOffset t) (visiblePanels t)
                     (len (panels t)) /\
    0 <= scrollOffset t' <= Z.max 0 (len (panels t) - visiblePanels t) /\
    visiblePanels t' = visiblePanels t /\
    len (panels t') = len (panels t) /\
    nav_ready t'.
Proof.
  intros Hn [Ha Hsv Hlen Hf Hv Hs].
  rewrite focus_step_unfold by done.
  set (f' := focus_target d (focusIndex t) (len (panels t))).
  assert (Hf' : 0 <= f' < len (panels t)) by (by apply focus_target_range).
  destruct (scrollToShowFocus_spec (set_focusIndex t f')) as [items Hscroll];
    cbn; try done; try lia.
  rewrite Hscroll. cbn [mbind result_bind].
  set (t1 := set_scrollView _ _).
  destruct (updateFocus_spec t1) as (t' & Hupd & Ha' & Hsv' & Hps & Hfi & Hso & Hvp & _);
    [done | cbn; lia |].
  exists t'. cbn in Hps, Hfi, Hso, Hvp, Hsv'.
  destruct (scroll_to_show_visible f' (scrollOffset t) (visiblePanels t)
              (len (panels t))) as [Hvis Hrange]; [done | lia |].
  cbn zeta in Hvis, Hrange.
  unfold focus_visible. rewrite Hfi, Hso, Hvp, Hps.
  unfold bound in *. rewrite ?Hsv', ?Hfi, ?Hvp, ?Hso, ?Hps.
  repeat split; try done; try lia.
  all: unfold bound; rewrite ?Hps, ?Hvp, ?Hso; lia.
Qed.

(** C1. With at least one query, after [focusNext] or [focusPrev] (each runs
    [scrollToShowFocus]) the focused panel lies in the visible window:
    [scrollOffset <= focusIndex <= scrollOffset + visiblePanels - 1].  The new
    offset is the old one moved to [focus - visible + 1] when focus is right
    of the window, to [focus] when left of it, then clamped to
    [0, max(0, count - visible)]; the focus index is the wrapped target, and
    [scrollToShowFocus] never changes the focus index, in any state. *)
Theorem focus_change_keeps_focus_visible (d : direction) (t : TUI) :
  0 < len (panels t) -> nav_ready t ->
  (exists t',
     focus_step d t = Ok t' /\
     focus_visible t' /\
     focusIndex t' = focus_target d (focusIndex t) (len (panels t)) /\
     scrollOffset t' =
       scroll_to_show (focusIndex t') (scrollOffset t) (visiblePanels t)
                      (len (panels t)) /\
     0 <= scrollOffset t' <= Z.max 0 (len (panels t) - visiblePanels t) /\
     visiblePanels t' = visiblePanels t /\
     len (panels t') = len (panels t) /\
     nav_ready t') /\
  (forall u u', scrollToShowFocus u = Ok u' -> focusIndex u' = focusIndex u).
Proof.
  intros Hn Hready. split.
  - exact (focus_step_spec d t Hn Hready).
  - exact scrollToShowFocus_keeps_focus.
Qed.

(** ** Wraparound *)

Lemma iterate_next t k :
  nav_ready t ->
  exists t', iterate k focusNext t = Ok t' /\ nav_ready t' /\
             len (panels t') = len (panels t) /\
             focusIndex t' = (focusIndex t + Z.of_nat k) mod len (panels t).
Proof.
  revert t. induction k as [|k IH]; intros t Ht.
  - exists t. split_and!; try done.
    cbn. rewrite Z.add_0_r, Z.mod_small; [done | apply Ht].
  - assert (Hn : 0 < len (panels t)) by (destruct Ht; lia).
    destruct (focus_step_spec Next t Hn Ht)
      as (t1 & Hstep & _ & Hf1 & _ & _ & _ & Hlen1 & Hready1).
    destruct (IH t1 Hready1) as (t' & Hit & Hready' & Hlen' & Hf').
    exists t'. cbn [iterate focus_step] in *. rewrite Hstep. cbn.
    split_and!; try done; [congruence|].
    rewrite Hf', Hf1, Hlen1. cbn [focus_target].
    rewrite Zplus_mod_idemp_l. f_equal. lia.
Qed.

Lemma iterate_prev t k :
  nav_ready t ->
  exists t', iterate k focusPrev t = Ok t' /\ nav_ready t' /\
             len (panels t') = len (panels t) /\
             focusIndex t' = (focusIndex t - Z.of_nat k) mod len (panels t).
Proof.
  revert t. induction k as [|k IH]; intros t Ht.
  - exists t. split_and!; try done.
    cbn. rewrite Z.sub_0_r, Z.mod_small; [done | apply Ht].
  - assert (Hn : 0 < len (panels t)) by (destruct Ht; lia).
    destruct (focus_step_spec Prev t Hn Ht)
      as (t1 & Hstep & _ & Hf1 & _ & _ & _ & Hlen1 & Hready1).
    destruct (IH t1 Hready1) as (t' & Hit & Hready' & Hlen' & Hf').
    exists t'. cbn [iterate focus_step] in *. rewrite Hstep. cbn.
    split_and!; try done; [congruence|].
    rewrite Hf', Hf1, Hlen1. cbn [focus_target].
    rewrite Zminus_mod_idemp_l. f_equal. lia.
Qed.

Lemma focus_empty t :
  len (panels t) = 0 -> focusNext t = Ok t /\ focusPrev t = Ok t.
Proof.
  intros Hn. unfold focusNext, focusPrev. rewrite Hn. done.
Qed.

(** C7. With [n > 0] queries and a valid focus index, [n] times [focusNext]
    returns the focus index to where it started, and so do [n] times
    [focusPrev]; [focusPrev] undoes [focusNext] and takes index 0 to [n - 1].
    With no queries both transitions return the state as it is, without a
    panic. *)
Theorem focus_wraps_around (t : TUI) :
  nav_start t ->
  (len (panels t) = 0 -> focusNext t = Ok t /\ focusPrev t = Ok t) /\
  (0 < len (panels t) ->
   (exists t', iterate (length (panels t)) focusNext t = Ok t' /\
               focusIndex t' = focusIndex t) /\
   (exists t', iterate (length (panels t)) focusPrev t = Ok t' /\
               focusIndex t' = focusIndex t) /\
   (exists t1 t2, focusNext t = Ok t1 /\ focusPrev t1 = Ok t2 /\
                  focusIndex t1 = (focusIndex t + 1) mod len (panels t) /\
                  focusIndex t2 = focusIndex t) /\
   (focusIndex t = 0 ->
    exists t1, focusPrev t = Ok t1 /\ focusIndex t1 = len (panels t) - 1)).
Proof.
  intros Hstart. split; [apply focus_empty|]. intros Hn.
  specialize (Hstart Hn). pose proof (nr_focus _ Hstart) as Hf.
  split_and!.
  - destruct (iterate_next t (length (panels t)) Hstart) as (t' & Hit & _ & _ & Hf').
    exists t'. split; [done|]. rewrite Hf'. fold (len (panels t)).
    replace (focusIndex t + len (panels t))
      with (focusIndex t + 1 * len (panels t)) by lia.
    rewrite Z.mod_add by lia. by apply Z.mod_small.
  - destruct (iterate_prev t (length (panels t)) Hstart) as (t' & Hit & _ & _ & Hf').
    exists t'. split; [done|]. rewrite Hf'. fold (len (panels t)).
    replace (focusIndex t - len (panels t))
      with (focusIndex t + (-1) * len (panels t)) by lia.
    rewrite Z.mod_add by lia. by apply Z.mod_small.
  - destruct (focus_step_spec Next t Hn Hstart)
      as (t1 & Hstep1 & _ & Hf1 & _ & _ & _ & Hlen1 & Hready1).
    assert (Hn1 : 0 < len (panels t1)) by lia.
    destruct (focus_step_spec Prev t1 Hn1 Hready1)
      as (t2 & Hstep2 & _ & Hf2 & _).
    exists t1, t2. cbn [focus_step focus_target] in *.
    split_and!; try done.
    rewrite Hf2, Hf1, Hlen1, Zminus_mod_idemp_l.
    replace (focusIndex t + 1 - 1) with (focusIndex t) by lia.
    by apply Z.mod_small.
  - intros Hzero.
    destruct (focus_step_spec Prev t Hn Hstart) as (t1 & Hstep1 & _ & Hf1 & _).
    exists t1. cbn [focus_step focus_target] in *. split; [done|].
    rewrite Hf1, Hzero.
    replace (0 - 1) with (len (panels t) - 1 + (-1) * len (panels t)) by lia.
    rewrite Z.mod_add by lia. apply Z.mod_small. lia.
Qed.

(** ** Updates *)

Lemma store_lookup {A} (s : list A) i x :
  0 <= i < len s -> store s i x !! Z.to_nat i = Some x.
Proof. unfold store, len. intros Hi. apply list_lookup_insert_eq. lia. Qed.

Lemma store_lookup_ne {A} (s : list A) i j x :
  j <> Z.to_nat i -> store s i x !! j = s !! j.
Proof. unfold store. intros Hj. by apply list_lookup_insert_ne. Qed.

Lemma store_length {A} (s : list A) i x : length (store s i x) = length s.
Proof. apply length_insert. Qed.

Lemma UpdateTimeSeries_out_of_range t i timeSeries err :
  i < 0 \/ len (histories t) <= i ->
  UpdateTimeSeries t i timeSeries err = Ok t.
Proof.
  intros Hi. unfold UpdateTimeSeries.
  destruct (i <? 0) eqn:E1; [done|].
  destruct (len (histories t) <=? i) eqn:E2; [done|]. lia.
Qed.

Lemma UpdateTimeSeries_in_range t i timeSeries err :
  0 <= i < len (histories t) ->
  exists q,
    histories t !! Z.to_nat i = Some q /\
    UpdateTimeSeries t i timeSeries err =
    Ok (enqueue (set_histories t
                   (store (histories t) i (updated_history q timeSeries err)))
                i err).
Proof.
  intros Hi. unfold UpdateTimeSeries.
  destruct (i <? 0) eqn:E1; [lia|].
  destruct (len (histories t) <=? i) eqn:E2; [lia|]. cbn [orb].
  destruct (index_in_range (histories t) i Hi) as (q & Hq & Hlook).
  exists q. split; [done|]. rewrite Hq. cbn [mbind result_bind].
  unfold enqueue, updated_history, set_LastError, set_TimeSeries.
  destruct err; cbn; destruct (app t); try done;
    destruct (i <? len (panels t)); done.
Qed.

Lemma enqueue_fields t i err :
  histories (enqueue t i err) = histories t /\
  panels (enqueue t i err) = panels t /\
  timeRange (enqueue t i err) = timeRange t /\
  scrollView (enqueue t i err) = scrollView t /\
  focusIndex (enqueue t i err) = focusIndex t /\
  scrollOffset (enqueue t i err) = scrollOffset t /\
  visiblePanels (enqueue t i err) = visiblePanels t.
Proof.
  unfold enqueue. destruct (app t); [destruct (i <? len (panels t))|]; done.
Qed.

(** C6. For an index below 0 or at least the query count, [UpdateTimeSeries]
    returns the state it was given, whatever the series and the error: no
    stored series or error changes, nothing is queued, nothing panics.  The
    same holds for the state [UpdateMetric] returns. *)
Theorem update_out_of_range_is_noop (t : TUI) (i : Z) :
  i < 0 \/ len (histories t) <= i ->
  (forall timeSeries err, UpdateTimeSeries t i timeSeries err = Ok t) /\
  (forall h point err, exists h', UpdateMetric h t i point err = Ok (h', t)).
Proof.
  intros Hi. split.
  - intros. by apply UpdateTimeSeries_out_of_range.
  - intros h point err. unfold UpdateMetric. destruct err.
    + rewrite UpdateTimeSeries_out_of_range by done. by eexists.
    + cbn. rewrite UpdateTimeSeries_out_of_range by done. by eexists.
Qed.


(** ** The heap under rendering *)

Lemma slice_write_whole S (A : gmap loc (list DataPoint)) l old xs :
  length old = length xs ->
  slice_write (mkHeap S (<[l := old]> A)) (mkSlice l 0 (length xs)) xs =
  mkHeap S (<[l := xs]> A).
Proof.
  intros Hlen. unfold slice_write. cbn.
  rewrite lookup_insert_eq. cbn.
  rewrite firstn_all, Nat.min_id, <- Hlen, drop_all, app_nil_r.
  by rewrite insert_insert_eq.
Qed.

Lemma slice_elems_whole S (A : gmap loc (list DataPoint)) l xs :
  slice_elems (mkHeap S (<[l := xs]> A)) (mkSlice l 0 (length xs)) = xs.
Proof.
  unfold slice_elems. cbn. rewrite lookup_insert_eq. cbn. apply firstn_all.
Qed.

Lemma heap_extends_fresh h xs :
  heap_extends h (mkHeap (h_series h) (<[fresh (dom (h_arrays h)) := xs]> (h_arrays h))).
Proof.
  split; [done|]. cbn. intros l arr Hl.
  rewrite lookup_insert_ne; [done|].
  intros <-. apply (is_fresh (dom (h_arrays h))).
  apply elem_of_dom. by eexists.
Qed.

Lemma heap_extends_refl h : heap_extends h h.
Proof. by split. Qed.

Lemma heap_extends_slice h h' s :
  heap_extends h h' -> is_Some (h_arrays h !! s_base s) ->
  slice_elems h' s = slice_elems h s.
Proof.
  intros [_ Harr] [arr Hs]. unfold slice_elems.
  by rewrite (Harr _ _ Hs), Hs.
Qed.

Section UIProofs.
Context `{!Externals}.

Lemma sort_Slice_length less l : length (sort_Slice less l) = length l.
Proof. apply Permutation_length, sort_Slice_perm. Qed.

(** The copy that [renderTimeSeriesGraph] makes and sorts. *)
Lemma sorted_copy_spec h stored :
  let '(h1, points) := make_points h (length stored) in
  let h2 := slice_write h1 points stored in
  let h3 := slice_write h2 points (sort_Slice less_by_time (slice_elems h2 points)) in
  h3 = mkHeap (h_series h)
         (<[fresh (dom (h_arrays h)) := sort_Slice less_by_time stored]> (h_arrays h)) /\
  slice_elems h3 points = sort_Slice less_by_time stored.
Proof.
  unfold make_points. cbv zeta.
  rewrite slice_write_whole by apply length_replicate.
  rewrite slice_elems_whole.
  rewrite <- (sort_Slice_length less_by_time stored).
  rewrite slice_write_whole by (by rewrite sort_Slice_length).
  split; [done|]. apply slice_elems_whole.
Qed.

Lemma index_lookup {A} (s : list A) i x :
  0 <= i -> s !! Z.to_nat i = Some x -> index s i = Ok x.
Proof.
  intros Hi Hx. pose proof (lookup_lt_Some _ _ _ Hx) as Hlt.
  destruct (index_in_range s i) as (y & Hy & Hy'); [unfold len; lia|].
  congruence.
Qed.

Lemma slice_elems_length h s : (length (slice_elems h s) <= s_len s)%nat.
Proof. unfold slice_elems. rewrite length_take. lia. Qed.

Lemma renderTimeSeriesGraph_spec h t i q panel p ts :
  0 <= i ->
  histories t !! Z.to_nat i = Some q ->
  panels t !! Z.to_nat i = Some panel ->
  TimeSeries q = Some p ->
  h_series h !! p = Some ts ->
  Z.of_nat (s_len (Points ts)) <= bound ->
  exists h' text,
    renderTimeSeriesGraph h t i =
      Ok (h', set_panels t (store (panels t) i (SetText panel text))) /\
    heap_extends h h'.
Proof.
  intros Hi Hq Hpanel Hp Hts Hlen. unfold renderTimeSeriesGraph.
  rewrite (index_lookup _ _ _ Hi Hq), (index_lookup _ _ _ Hi Hpanel).
  cbn [mbind result_bind]. unfold deref_series. rewrite Hp, Hts.
  cbn [mbind result_bind].
  set (stored := slice_elems h (Points ts)).
  assert (Hstored : len stored <= bound).
  { pose proof (slice_elems_length h (Points ts)) as Hle. unfold len.
    fold stored in Hle. lia. }
  destruct (len stored =? 0) eqn:E0.
  { eexists h, _. split; [reflexivity | apply heap_extends_refl]. }
  pose proof (sorted_copy_spec h stored) as Hcopy.
  destruct (make_points h (length stored)) as [h1 points].
  cbv zeta in Hcopy. destruct Hcopy as [Hh3 Hsorted].
  rewrite Hh3. rewrite Hh3 in Hsorted. rewrite Hsorted.
  set (sorted := sort_Slice less_by_time stored).
  assert (Hsl : len sorted = len stored).
  { unfold len, sorted. by rewrite sort_Slice_length. }
  destruct (index_in_range (map Value sorted) 0) as (v0 & Hv0 & _).
  { unfold len in *. rewrite length_map. lia. }
  rewrite Hv0. cbn [mbind result_bind].
  destruct (max_min v0 (map Value sorted)) as [maxY minY].
  assert (Hlast : int_sub (len sorted) 1 = len sorted - 1).
  { unfold int_sub. apply wrap_small. unfold int_min, int_max, bound, len in *. lia. }
  rewrite Hlast.
  destruct (index_in_range sorted (len sorted - 1)) as (latest & Hlatest & _);
    [unfold len in *; lia|].
  destruct (index_in_range sorted 0) as (oldest & Holdest & _);
    [unfold len in *; lia|].
  rewrite Hlatest, Holdest. cbn [mbind result_bind].
  eexists _, _. split; [reflexivity | apply heap_extends_fresh].
Qed.

(** ** The time-range footer *)

Lemma scan_point_acc acc seen point :
  acc_for acc seen -> acc_for (scan_point acc point) (seen ++ [Timestamp point]).
Proof.
  destruct seen as [|s0 seen]; cbn [acc_for app].
  - intros ->. cbn. exists (Timestamp point), (Timestamp point).
    split_and!; try done; try apply list_elem_of_singleton; try done.
    intros x ->%list_elem_of_singleton. lia.
  - intros (lo & hi & -> & Hlo & Hhi & Hall). unfold scan_point. cbn.
    unfold Before, After.
    set (stamps := s0 :: seen) in *.
    change (s0 :: seen ++ [Timestamp point]) with (stamps ++ [Timestamp point]).
    assert (Hin : forall x, x ∈ stamps ++ [Timestamp point] <->
                            x ∈ stamps \/ x = Timestamp point).
    { intros x. rewrite elem_of_app, list_elem_of_singleton. done. }
    destruct (Timestamp point <? lo) eqn:E1; destruct (hi <? Timestamp point) eqn:E2;
      eexists _, _; (split; [reflexivity|]);
      split_and!; try (apply Hin; auto; fail);
      pose proof (Hall lo Hlo);
      intros x [Hx | ->]%Hin; try pose proof (Hall x Hx); lia.
Qed.

Lemma scan_points_acc points acc seen :
  acc_for acc seen ->
  acc_for (foldl scan_point acc points) (seen ++ map Timestamp points).
Proof.
  revert acc seen. induction points as [|point points IH]; intros acc seen Hacc.
  - cbn. by rewrite app_nil_r.
  - cbn [foldl map].
    replace (seen ++ Timestamp point :: map Timestamp points)
      with ((seen ++ [Timestamp point]) ++ map Timestamp points)
      by (by rewrite <- app_assoc).
    apply IH. by apply scan_point_acc.
Qed.

Lemma scan_histories_spec h acc hs :
  heap_closed h hs ->
  scan_histories h acc hs = Ok (foldl scan_point acc (all_points h hs)).
Proof.
  intros Hclosed. revert acc.
  induction Hclosed as [|q hs Hq _ IH]; intros acc; [done|].
  cbn [scan_histories]. unfold all_points. cbn [map concat].
  rewrite foldl_app. fold (all_points h hs). rewrite <- IH.
  unfold scan_history, stored_points, deref_series.
  destruct (TimeSeries q) as [p|]; [|done].
  destruct (Hq p eq_refl) as [ts Hts]. rewrite Hts. cbn [mbind result_bind].
  destruct (0 <? len (slice_elems h (Points ts))) eqn:E; [done|].
  destruct (slice_elems h (Points ts)); [done|].
  apply Z.ltb_ge in E. unfold len in E. cbn [length] in E. lia.
Qed.

Lemma footer_for_unique text stamps lo hi :
  footer_for text stamps ->
  lo ∈ stamps -> hi ∈ stamps -> (forall x, x ∈ stamps -> lo <= x <= hi) ->
  text = range_text lo hi.
Proof.
  destruct stamps as [|s0 stamps]; [by intros _ ?%elem_of_nil|].
  intros (lo' & hi' & Hlo' & Hhi' & Hall' & ->) Hlo Hhi Hall.
  pose proof (Hall lo' Hlo'). pose proof (Hall hi' Hhi').
  pose proof (Hall' lo Hlo). pose proof (Hall' hi Hhi).
  f_equal; [f_equal|]; f_equal; lia.
Qed.

Lemma updateTimeRange_spec h t tr :
  timeRange t = Some tr -> heap_closed h (histories t) ->
  exists text,
    updateTimeRange h t = Ok (set_timeRange t (Some (SetText tr text))) /\
    footer_for text (map Timestamp (all_points h (histories t))).
Proof.
  intros Htr Hclosed. unfold updateTimeRange. rewrite Htr.
  rewrite (scan_histories_spec _ _ _ Hclosed). cbn [mbind result_bind].
  pose proof (scan_points_acc (all_points h (histories t))
                (mkRangeAcc None None false) [] eq_refl) as Hacc.
  cbn [app] in Hacc. unfold footer_for.
  destruct (map Timestamp (all_points h (histories t))) as [|s0 stamps];
    cbn [acc_for] in Hacc.
  - rewrite Hacc. cbn. by eexists.
  - destruct Hacc as (lo & hi & -> & Hlo & Hhi & Hall). cbn.
    eexists. split; [reflexivity|]. by exists lo, hi.
Qed.

(** ** Running a queued redraw *)

Lemma renderTimeSeriesGraph_inv h t i h' t' :
  renderTimeSeriesGraph h t i = Ok (h', t') ->
  histories t' = histories t /\ timeRange t' = timeRange t /\
  app t' = app t /\ length (panels t') = length (panels t) /\
  heap_extends h h'.
Proof.
  unfold renderTimeSeriesGraph.
  destruct (index (histories t) i) as [q|]; [|done].
  destruct (index (panels t) i) as [panel|]; [|done].
  cbn [mbind result_bind].
  destruct (deref_series h (TimeSeries q)) as [ts|]; [|done].
  cbn [mbind result_bind].
  set (stored := slice_elems h (Points ts)).
  destruct (len stored =? 0).
  { intros [= <- <-]. cbn. rewrite store_length.
    split_and!; try done; apply heap_extends_refl. }
  pose proof (sorted_copy_spec h stored) as Hcopy.
  destruct (make_points h (length stored)) as [h1 points].
  cbv zeta in Hcopy. destruct Hcopy as [Hh3 Hsorted].
  rewrite Hh3. rewrite Hh3 in Hsorted. rewrite Hsorted.
  set (sorted := sort_Slice less_by_time stored).
  destruct (index (map Value sorted) 0) as [v0|]; [|done]. cbn [mbind result_bind].
  destruct (max_min v0 (map Value sorted)) as [maxY minY].
  destruct (index sorted (int_sub (len sorted) 1)) as [latest|]; [|done].
  cbn [mbind result_bind].
  destruct (index sorted 0) as [oldest|]; [|done]. cbn [mbind result_bind].
  intros [= <- <-]. cbn. rewrite store_length.
  split_and!; try done; apply heap_extends_fresh.
Qed.

Lemma updateTimeRange_inv h t t' :
  updateTimeRange h t = Ok t' ->
  histories t' = histories t /\ panels t' = panels t.
Proof.
  unfold updateTimeRange. destruct (timeRange t); [|by intros [= <-]].
  destruct (scan_histories _ _ _); [|done]. cbn. by intros [= <-].
Qed.

Lemma run_update_inv h t u h' t' :
  run_update h t u = Ok (h', t') ->
  histories t' = histories t /\ heap_extends h h' /\
  (is_Some (du_err u) -> h' = h).
Proof.
  unfold run_update. destruct (du_err u) as [err|].
  - destruct (index (panels t) (du_index u)) as [panel|]; [|done].
    cbn [mbind result_bind].
    destruct (updateTimeRange _ _) as [t1|] eqn:Hfooter; [|done].
    cbn. intros [= <- <-].
    apply updateTimeRange_inv in Hfooter as [-> _].
    split_and!; try done; apply heap_extends_refl.
  - destruct (renderTimeSeriesGraph h t (du_index u)) as [[h1 t1]|] eqn:Hrender; [|done].
    cbn [mbind result_bind].
    destruct (updateTimeRange _ _) as [t2|] eqn:Hfooter; [|done].
    cbn. intros [= <- <-].
    apply updateTimeRange_inv in Hfooter as [-> _].
    apply renderTimeSeriesGraph_inv in Hrender as (-> & _ & _ & _ & Hext).
    split_and!; done.
Qed.

Lemma heap_closed_extends h h' hs :
  heap_extends h h' -> heap_closed h hs -> heap_closed h' hs.
Proof. intros [Hs _]. unfold heap_closed. by rewrite Hs. Qed.

(** Whatever update is run, it ends by recomputing the footer from the
    histories as they are then. *)
Lemma run_update_footer h t u h' t' tr :
  run_update h t u = Ok (h', t') ->
  timeRange t = Some tr -> heap_closed h (histories t) ->
  exists text,
    timeRange t' = Some (SetText tr text) /\
    footer_for text (map Timestamp (all_points h' (histories t'))).
Proof.
  unfold run_update. intros Hrun Htr Hclosed.
  assert (Hfirst : exists t1,
    (match du_err u with
     | Some err =>
         panel ← index (panels t) (du_index u);
         Ok (h, set_panels t
                  (store (panels t) (du_index u)
                     (SetText panel ("[red]Error: " +:+ err +:+ "[white]"))))
     | None => renderTimeSeriesGraph h t (du_index u)
     end) = Ok (h', t1) /\ updateTimeRange h' t1 = Ok t' /\
    histories t1 = histories t /\ timeRange t1 = timeRange t /\
    heap_extends h h').
  { destruct (du_err u) as [err|].
    - destruct (index (panels t) (du_index u)) as [panel|]; [|done].
      cbn [mbind result_bind] in *.
      destruct (updateTimeRange _ _) as [t2|] eqn:Hfooter; [|done].
      cbn in Hrun. injection Hrun as <- <-.
      eexists. split_and!; try done; apply heap_extends_refl.
    - destruct (renderTimeSeriesGraph h t (du_index u)) as [[h1 t1]|] eqn:Hrender; [|done].
      cbn [mbind result_bind] in *.
      destruct (updateTimeRange _ _) as [t2|] eqn:Hfooter; [|done].
      cbn in Hrun. injection Hrun as <- <-.
      apply renderTimeSeriesGraph_inv in Hrender as (? & ? & _ & _ & ?).
      eexists. split_and!; done. }
  destruct Hfirst as (t1 & _ & Hfooter & Hh1 & Htr1 & Hext).
  destruct (updateTimeRange_spec h' t1 tr) as (text & Hspec & Hfoot).
  { congruence. }
  { rewrite Hh1. by apply (heap_closed_extends h). }
  rewrite Hspec in Hfooter. injection Hfooter as <-.
  exists text. by cbn.
Qed.

(** ** Construction *)

Lemma init_histories_spec h queries :
  exists h0 hs,
    init_histories h queries = (h0, hs) /\
    length hs = length queries /\
    Forall (fun q => is_Some (TimeSeries q) /\ LastError q = None) hs.
Proof.
  revert h. induction queries as [|query queries IH]; intros h.
  - by exists h, [].
  - cbn [init_histories].
    destruct (slice_literal h []) as [h1 pts].
    destruct (new_series h1 pts) as [h2 ts].
    destruct (IH h2) as (h0 & hs & -> & Hlen & Hall).
    eexists _, _. split; [reflexivity|]. cbn. split; [by rewrite Hlen|].
    constructor; [by split; cbn | done].
Qed.

Lemma setupUI_spec a hs quit queries :
  len queries <= bound ->
  exists t,
    setupUI (mkTUI (Some a) None [] None 0 0 3 hs quit) queries = Ok t /\
    histories t = hs /\ len (panels t) = len queries /\
    focusIndex t = 0 /\ scrollOffset t = 0 /\
    visiblePanels t = (if len queries <=? 2 then len queries else 3) /\
    is_Some (timeRange t) /\ is_Some (app t) /\ is_Some (scrollView t).
Proof.
  intros Hbound. unfold setupUI.
  set (t3 := if len queries <=? 2 then _ else _).
  assert (Ht3 : t3 = mkTUI (Some a) (Some []) (map new_panel queries) None 0 0
                       (if len queries <=? 2 then len queries else 3) hs quit).
  { subst t3. destruct (len queries <=? 2); [done|]. by destruct (len queries =? 3). }
  rewrite Ht3. clear t3 Ht3.
  set (t3 := mkTUI _ _ _ _ _ _ _ _ _).
  assert (Hlen : len (panels t3) = len queries).
  { unfold len. cbn. by rewrite length_map. }
  destruct (decide (len queries = 0)) as [Hzero | Hpos].
  - (* no queries *)
    destruct queries; [|unfold len in Hzero; cbn in Hzero; lia].
    subst t3. unfold updateScrollView, updateFocus. cbn.
    eexists. split; [reflexivity|]. cbn. split_and!; done.
  - assert (Hn : 0 < len queries) by (unfold len in *; lia).
    cbn in Hlen.
    destruct (updateScrollView_spec t3) as [items Hitems]; cbn; rewrite ?Hlen;
      try done;
      try (unfold bound in *; destruct (len queries <=? 2) eqn:E; lia).
    rewrite Hitems. cbn [mbind result_bind].
    set (t5 := set_timeRange _ _).
    destruct (updateFocus_spec t5)
      as (t & Hupd & Ha & Hsv & Hps & Hf & Hs & Hv & Hh & Htr); cbn;
      rewrite ?Hlen; try done; try lia.
    exists t. cbn in Hsv, Hps, Hf, Hs, Hv, Hh, Htr. rewrite Hlen in *.
    rewrite ?Htr, ?Hsv.
    split_and!; try done; try lia.
Qed.

Lemma NewTUI_spec h queries quit :
  len queries <= bound ->
  exists h0 t0,
    NewTUI h queries quit = Ok (h0, t0) /\
    series_non_nil t0 /\
    Forall (fun q => LastError q = None) (histories t0) /\
    len (histories t0) = len queries /\ len (panels t0) = len queries /\
    focusIndex t0 = 0 /\ scrollOffset t0 = 0 /\
    visiblePanels t0 = (if len queries <=? 2 then len queries else 3) /\
    is_Some (timeRange t0) /\
    (0 < len queries -> nav_ready t0).
Proof.
  intros Hbound. unfold NewTUI.
  destruct (init_histories_spec h queries) as (h0 & hs & -> & Hlen & Hall).
  destruct (setupUI_spec NewApplication hs quit queries Hbound)
    as (t0 & -> & Hh & Hps & Hf & Hs & Hv & Htr & Ha & Hsv).
  exists h0, t0. cbn [mbind result_bind]. split; [done|].
  unfold series_non_nil. rewrite Hh.
  split_and!; try done.
  - eapply Forall_impl; [exact Hall|]. by intros q [? _].
  - eapply Forall_impl; [exact Hall|]. by intros q [_ ?].
  - unfold len. by rewrite Hlen.
  - intros Hn. split; try done; rewrite ?Hps, ?Hf, ?Hs, ?Hv; unfold bound in *; try lia.
    destruct (len queries <=? 2) eqn:E; lia.
Qed.

(** ** What an update stores *)

(** C3. For an index in range and an error [e], [UpdateTimeSeries] records
    [e] as the latest error of that query and keeps its name and its stored
    series pointer; every other history, and the panels, are as before.  The
    redraw it queues shows the error and writes neither a history nor the
    heap, so a failed refresh never clears stored data. *)
Theorem error_update_keeps_series (t : TUI) (i : Z) (timeSeries : option loc)
    (e : error) :
  0 <= i < len (histories t) ->
  exists t' q,
    UpdateTimeSeries t i timeSeries (Some e) = Ok t' /\
    histories t !! Z.to_nat i = Some q /\
    histories t' !! Z.to_nat i =
      Some (mkQueryHistory (Name q) (TimeSeries q) (Some e)) /\
    (forall j, j <> Z.to_nat i -> histories t' !! j = histories t !! j) /\
    length (histories t') = length (histories t) /\
    panels t' = panels t /\
    (forall h tq h' tq',
       run_update h tq (mkDrawUpdate i (Some e)) = Ok (h', tq') ->
       h' = h /\ histories tq' = histories tq).
Proof.
  intros Hi.
  destruct (UpdateTimeSeries_in_range t i timeSeries (Some e) Hi) as (q & Hq & Hupd).
  eexists _, q. split; [exact Hupd|].
  destruct (enqueue_fields
              (set_histories t (store (histories t) i
                                  (updated_history q timeSeries (Some e))))
              i (Some e)) as (Hh & Hp & _).
  rewrite Hh, Hp. cbn [histories panels set_histories updated_history].
  split_and!; try done.
  - by apply store_lookup.
  - intros j Hj. by apply store_lookup_ne.
  - apply store_length.
  - intros h tq h' tq' Hrun.
    apply run_update_inv in Hrun as (Hsame & _ & Hheap).
    split; [apply Hheap; by eexists | done].
Qed.

(** C4. For an index in range and a series [ts] at address [p],
    [UpdateTimeSeries] stores exactly the pointer [p] in that query's cell
    (and clears its error); the heap is not an argument, so nothing is merged,
    appended or rewritten at storage time.  Rendering the panel then succeeds,
    leaves every history as it is, and leaves the series and every array that
    existed before as they were: the sort works on a fresh array. *)
Theorem success_update_stores_series (h : Heap) (t : TUI) (i : Z) (p : loc)
    (ts : TimeSeriesResult) :
  0 <= i < len (histories t) -> i < len (panels t) -> series_at h p ts ->
  exists t' q,
    UpdateTimeSeries t i (Some p) None = Ok t' /\
    histories t !! Z.to_nat i = Some q /\
    histories t' !! Z.to_nat i = Some (mkQueryHistory (Name q) (Some p) None) /\
    (forall j, j <> Z.to_nat i -> histories t' !! j = histories t !! j) /\
    (forall q', histories t' !! Z.to_nat i = Some q' ->
                stored_points h q' = slice_elems h (Points ts)) /\
    exists h'' t'',
      renderTimeSeriesGraph h t' i = Ok (h'', t'') /\
      histories t'' = histories t' /\
      h_series h'' !! p = Some ts /\
      slice_elems h'' (Points ts) = slice_elems h (Points ts) /\
      (forall q', histories t'' !! Z.to_nat i = Some q' ->
                  stored_points h'' q' = slice_elems h (Points ts)) /\
      heap_extends h h''.
Proof.
  intros Hi Hpanel (Hts & Hbase & Hlen).
  destruct (UpdateTimeSeries_in_range t i (Some p) None Hi) as (q & Hq & Hupd).
  eexists _, q. split; [exact Hupd|].
  set (t1 := set_histories _ _).
  destruct (enqueue_fields t1 i None) as (Hh & Hp & _).
  rewrite Hh. subst t1. cbn [histories panels set_histories updated_history] in *.
  assert (Hstored : store (histories t) i (mkQueryHistory (Name q) (Some p) None)
                      !! Z.to_nat i = Some (mkQueryHistory (Name q) (Some p) None))
    by (by apply store_lookup).
  split_and!; try done.
  - intros j Hj. by apply store_lookup_ne.
  - intros q' Hq'. rewrite Hstored in Hq'. injection Hq' as <-.
    unfold stored_points. cbn. by rewrite Hts.
  - destruct (index_in_range (panels t) i) as (panel & _ & Hpanel'); [lia|].
    destruct (renderTimeSeriesGraph_spec h
                (enqueue (set_histories t
                            (store (histories t) i
                               (mkQueryHistory (Name q) (Some p) None))) i None)
                i (mkQueryHistory (Name q) (Some p) None) panel p ts)
      as (h'' & text & Hrender & Hext); try done; try lia.
    { by rewrite Hh. }
    { by rewrite Hp. }
    eexists h'', _. split; [exact Hrender|].
    assert (Helems : slice_elems h'' (Points ts) = slice_elems h (Points ts))
      by (by apply heap_extends_slice).
    assert (Hts'' : h_series h'' !! p = Some ts) by (destruct Hext as [-> _]; done).
    cbn [histories set_panels]. rewrite Hh. cbn [histories set_histories].
    split_and!; try done.
    intros q' Hq'. rewrite Hstored in Hq'. injection Hq' as <-.
    unfold stored_points. cbn. by rewrite Hts''.
Qed.

Lemma UpdateTimeSeries_queues t i timeSeries err a :
  app t = Some a -> 0 <= i < len (histories t) -> i < len (panels t) ->
  exists t',
    UpdateTimeSeries t i timeSeries err = Ok t' /\
    app t' = Some (QueueUpdateDraw a (mkDrawUpdate i err)) /\
    timeRange t' = timeRange t.
Proof.
  intros Ha Hi Hpanel.
  destruct (UpdateTimeSeries_in_range t i timeSeries err Hi) as (q & _ & ->).
  eexists. split; [reflexivity|]. unfold enqueue. cbn [app panels set_histories].
  rewrite Ha. destruct (i <? len (panels t)) eqn:E; [done | lia].
Qed.

(** C5. [updateTimeRange] writes into the footer the range from the least to
    the greatest timestamp among all points stored in all histories (empty
    and nil series add nothing), and the waiting text when there is no stored
    point at all.  Whenever [lo] and [hi] are a least and a greatest stored
    timestamp, the text is the range from [lo] to [hi].  Every update in range
    queues a redraw, and every queued redraw, whatever it draws, ends by
    recomputing the footer this way. *)
Theorem footer_reports_min_and_max (h : Heap) (t : TUI) (tr : TextView) :
  timeRange t = Some tr -> heap_closed h (histories t) ->
  exists text,
    updateTimeRange h t = Ok (set_timeRange t (Some (SetText tr text))) /\
    (map Timestamp (all_points h (histories t)) = [] -> text = waiting_text) /\
    (map Timestamp (all_points h (histories t)) <> [] ->
     exists lo hi,
       lo ∈ map Timestamp (all_points h (histories t)) /\
       hi ∈ map Timestamp (all_points h (histories t)) /\
       (forall x, x ∈ map Timestamp (all_points h (histories t)) -> lo <= x <= hi) /\
       text = range_text lo hi) /\
    (forall lo hi,
       lo ∈ map Timestamp (all_points h (histories t)) ->
       hi ∈ map Timestamp (all_points h (histories t)) ->
       (forall x, x ∈ map Timestamp (all_points h (histories t)) -> lo <= x <= hi) ->
       text = range_text lo hi) /\
    (forall i timeSeries err a,
       app t = Some a -> 0 <= i < len (histories t) -> i < len (panels t) ->
       exists t',
         UpdateTimeSeries t i timeSeries err = Ok t' /\
         app t' = Some (QueueUpdateDraw a (mkDrawUpdate i err))) /\
    (forall u h' t',
       run_update h t u = Ok (h', t') ->
       exists text',
         timeRange t' = Some (SetText tr text') /\
         footer_for text' (map Timestamp (all_points h' (histories t')))).
Proof.
  intros Htr Hclosed.
  destruct (updateTimeRange_spec h t tr Htr Hclosed) as (text & Hupd & Hfoot).
  exists text. split; [done|]. split_and!.
  - intros Hnone. by rewrite Hnone in Hfoot.
  - intros Hsome. unfold footer_for in Hfoot.
    by destruct (map Timestamp (all_points h (histories t))).
  - intros lo hi. by apply footer_for_unique.
  - intros i timeSeries err a Ha Hi Hpanel.
    destruct (UpdateTimeSeries_queues t i timeSeries err a Ha Hi Hpanel)
      as (t' & Hq & Ha' & _).
    by exists t'.
  - intros u h' t' Hrun. by apply (run_update_footer h t u).
Qed.

(** ** The deprecated single-point entry *)

Lemma fresh_series_none (h : Heap) : h_series h !! fresh (dom (h_series h)) = None.
Proof. apply not_elem_of_dom, is_fresh. Qed.

(** C9. [UpdateMetric] with an error is [UpdateTimeSeries] with a nil series
    and that error, on an unchanged heap.  [UpdateMetric] without an error is
    [UpdateTimeSeries] with a newly allocated series whose points are exactly
    the one given point; nothing that was in the heap changes.  In both cases
    the state returned is the one [UpdateTimeSeries] returns. *)
Theorem UpdateMetric_is_thin_adapter (h : Heap) (t : TUI) (i : Z) (point : DataPoint) :
  (forall e, UpdateMetric h t i point (Some e) =
             (t' ← UpdateTimeSeries t i None (Some e); Ok (h, t'))) /\
  exists h1 s ts,
    UpdateMetric h t i point None =
      (t' ← UpdateTimeSeries t i (Some s) None; Ok (h1, t')) /\
    h_series h !! s = None /\
    h_series h1 !! s = Some ts /\
    slice_elems h1 (Points ts) = [point] /\
    (forall l x, h_series h !! l = Some x -> h_series h1 !! l = Some x) /\
    (forall l arr, h_arrays h !! l = Some arr -> h_arrays h1 !! l = Some arr).
Proof.
  split; [done|]. unfold UpdateMetric, slice_literal, new_series. cbn.
  eexists _, _, _. split; [reflexivity|]. cbn. split_and!.
  - apply fresh_series_none.
  - apply lookup_insert_eq.
  - apply (slice_elems_whole _ _ _ [point]).
  - intros l x Hl. rewrite lookup_insert_ne; [done|].
    intros <-. by rewrite fresh_series_none in Hl.
  - intros l arr Hl.
    by apply (heap_extends_fresh h [point]).
Qed.

(** ** Nil series *)

Lemma series_non_nil_update t i timeSeries err t' :
  0 <= i < len (histories t) ->
  (err = None -> is_Some timeSeries) ->
  series_non_nil t ->
  UpdateTimeSeries t i timeSeries err = Ok t' -> series_non_nil t'.
Proof.
  intros Hi Hsome Hall Hupd.
  destruct (UpdateTimeSeries_in_range t i timeSeries err Hi) as (q & Hq & Heq).
  rewrite Heq in Hupd. injection Hupd as <-.
  unfold series_non_nil in *.
  destruct (enqueue_fields
              (set_histories t (store (histories t) i
                                  (updated_history q timeSeries err))) i err)
    as (-> & _).
  cbn [histories set_histories]. unfold store.
  apply Forall_insert; [done|].
  rewrite Forall_lookup in Hall. specialize (Hall _ _ Hq).
  unfold updated_history. destruct err; cbn; [done | by apply Hsome].
Qed.

(** C10. [NewTUI] gives every history a series; an update with an error, and
    an update with a non-nil series, keep it so.  An update in range with a
    nil series and no error stores nil, and rendering that panel (directly,
    or through the redraw the update queued) then panics on the nil
    dereference. *)
Theorem nil_series_update_breaks_rendering (t : TUI) (i : Z) :
  0 <= i < len (histories t) -> i < len (panels t) ->
  (forall h queries quit,
     len queries <= bound ->
     exists h0 t0, NewTUI h queries quit = Ok (h0, t0) /\ series_non_nil t0) /\
  (series_non_nil t ->
   forall timeSeries e t',
     UpdateTimeSeries t i timeSeries (Some e) = Ok t' -> series_non_nil t') /\
  (series_non_nil t ->
   forall p t', UpdateTimeSeries t i (Some p) None = Ok t' -> series_non_nil t') /\
  exists t' q,
    UpdateTimeSeries t i None None = Ok t' /\
    histories t' !! Z.to_nat i = Some q /\ TimeSeries q = None /\
    ~ series_non_nil t' /\
    forall h,
      renderTimeSeriesGraph h t' i = Panic nil_deref /\
      run_update h t' (mkDrawUpdate i None) = Panic nil_deref.
Proof.
  intros Hi Hpanel. split_and!.
  - intros h queries quit Hb.
    destruct (NewTUI_spec h queries quit Hb) as (h0 & t0 & Hnew & Hnn & _).
    by exists h0, t0.
  - intros Hnn timeSeries e t'. by apply series_non_nil_update.
  - intros Hnn p t'. by apply series_non_nil_update.
  - destruct (UpdateTimeSeries_in_range t i None None Hi) as (q & Hq & Hupd).
    eexists _, _. split; [exact Hupd|].
    set (t1 := set_histories _ _).
    destruct (enqueue_fields t1 i None) as (Hh & Hp & _).
    assert (Hstored : histories (enqueue t1 i None) !! Z.to_nat i =
                      Some (mkQueryHistory (Name q) None None)).
    { rewrite Hh. subst t1. cbn. by apply store_lookup. }
    destruct (index_in_range (panels t) i) as (panel & _ & Hpanel'); [lia|].
    assert (Hrender : forall h, renderTimeSeriesGraph h (enqueue t1 i None) i =
                                Panic nil_deref).
    { intros h. unfold renderTimeSeriesGraph.
      rewrite (index_lookup _ _ _ (proj1 Hi) Hstored).
      rewrite Hp. subst t1. cbn [panels set_histories].
      by rewrite (index_lookup _ _ _ (proj1 Hi) Hpanel'). }
    split_and!; try done.
    + intros Hall. unfold series_non_nil in Hall. rewrite Forall_lookup in Hall.
      specialize (Hall _ _ Hstored). cbn in Hall. by destruct Hall.
    + intros h. split; [done|]. unfold run_update. cbn [du_err du_index].
      by rewrite Hrender.
Qed.

End UIProofs.

(** ** The backend factory and startup *)

Section AppProofs.
Context `{!Externals} `{!App.Network}.
Import App.

Lemma createBackend_unsupported cfg :
  cfg_Backend cfg ∉ supported_backends ->
  createBackend cfg = inl (unsupported_backend (cfg_Backend cfg)).
Proof.
  unfold supported_backends, createBackend. intros Hnot.
  repeat match goal with
         | |- context [String.eqb ?a ?b] =>
             destruct (String.eqb_spec a b) as [Heq | Hne];
             [exfalso; apply Hnot; rewrite Heq; set_solver | clear Hne]
         end.
  done.
Qed.

Lemma createBackend_backend cfg b :
  createBackend cfg = inr b ->
  cfg_Backend cfg ∈ supported_backends /\
  BackendName b = selected_name (cfg_Backend cfg).
Proof.
  unfold createBackend, supported_backends, selected_name.
  destruct (String.eqb_spec (cfg_Backend cfg) "prometheus") as [-> | _].
  { cbn. unfold prom_NewClient. destruct (api_NewClient _); [done|].
    intros [= <-]. split; [set_solver | done]. }
  destruct (String.eqb_spec (cfg_Backend cfg) "") as [-> | _].
  { cbn. unfold prom_NewClient. destruct (api_NewClient _); [done|].
    intros [= <-]. split; [set_solver | done]. }
  cbn [orb].
  destruct (String.eqb_spec (cfg_Backend cfg) "influxdb") as [-> | _].
  { unfold influxdb_NewClient.
    repeat (match goal with |- context [if ?c then _ else _] => destruct c end;
            [done|]).
    intros [= <-]. split; [set_solver | done]. }
  destruct (String.eqb_spec (cfg_Backend cfg) "influxdb1") as [-> | _].
  { unfold influxdb1_NewClient.
    repeat (match goal with |- context [if ?c then _ else _] => destruct c end;
            [done|]).
    destruct (NewHTTPClient _); [done|].
    intros [= <-]. split; [set_solver | done]. }
  destruct (String.eqb_spec (cfg_Backend cfg) "mock") as [-> | _]; [|done].
  intros [= <-]. split; [set_solver | done].
Qed.

Lemma Validate_unsupported cfg :
  cfg_Backend cfg ∉ supported_backends ->
  Validate cfg = (cfg, Some (unsupported_backend (cfg_Backend cfg))).
Proof.
  unfold supported_backends, Validate. intros Hnot.
  destruct (String.eqb_spec (cfg_Backend cfg) "") as [Heq | _];
    [exfalso; apply Hnot; rewrite Heq; set_solver|].
  repeat match goal with
         | |- context [String.eqb (cfg_Backend cfg) ?b] =>
             destruct (String.eqb_spec (cfg_Backend cfg) b) as [Heq | Hne];
             [exfalso; apply Hnot; rewrite Heq; set_solver | clear Hne]
         end.
  done.
Qed.

Lemma New_unsupported h cfg :
  cfg_Backend cfg ∉ supported_backends ->
  New h (Parsed cfg) =
  Ok (inl ("failed to load config: " +:+ "invalid configuration: " +:+
           unsupported_backend (cfg_Backend cfg))).
Proof.
  intros Hnot. unfold New, LoadConfig. by rewrite Validate_unsupported.
Qed.

Lemma New_started h file h' a :
  New h file = Ok (inr (h', a)) ->
  createBackend (config a) = inr (backend a) /\ Connect (backend a) = None.
Proof.
  unfold New. destruct (LoadConfig file) as [err | cfg]; [done|].
  destruct (createBackend cfg) as [err | b] eqn:Hcreate; [done|].
  destruct (Connect b) eqn:Hconnect; [done|].
  destruct (NewTUI h (cfg_Queries cfg) true) as [[h0 tui]|]; [|done].
  cbn. by intros [= <- <-].
Qed.

(** C8. [createBackend] hands each identifier of the supported set to the
    constructor of its backend and returns what that constructor returns; a
    backend it returns always comes from a supported identifier and bears the
    selected name.  For any other identifier it returns the unsupported-backend
    error; a configuration naming such an identifier makes [New] return an
    error and [main] exit with status 1 before [Start], and a process that
    does enter [Start] holds a backend of a supported identifier. *)
Theorem backend_factory_supported_set (cfg : Config) :
  (cfg_Backend cfg = "prometheus" \/ cfg_Backend cfg = "" ->
   createBackend cfg = prom_NewClient (cfg_Prometheus cfg)) /\
  (cfg_Backend cfg = "influxdb" ->
   createBackend cfg = influxdb_NewClient (cfg_InfluxDB cfg)) /\
  (cfg_Backend cfg = "influxdb1" ->
   createBackend cfg = influxdb1_NewClient (cfg_InfluxDB1 cfg)) /\
  (cfg_Backend cfg = "mock" ->
   createBackend cfg = inr (mock_NewClient (cfg_Mock cfg))) /\
  (forall b, createBackend cfg = inr b ->
             cfg_Backend cfg ∈ supported_backends /\
             BackendName b = selected_name (cfg_Backend cfg)) /\
  (cfg_Backend cfg ∉ supported_backends ->
   createBackend cfg = inl (unsupported_backend (cfg_Backend cfg)) /\
   forall h, (exists err, New h (Parsed cfg) = Ok (inl err)) /\
             main true h (Parsed cfg) = Exit 1) /\
  (forall file_exists h file h' a,
     main file_exists h file = Started h' a ->
     cfg_Backend (config a) ∈ supported_backends).
Proof.
  split_and!.
  - unfold createBackend. by intros [-> | ->].
  - unfold createBackend. by intros ->.
  - unfold createBackend. by intros ->.
  - unfold createBackend. by intros ->.
  - apply createBackend_backend.
  - intros Hnot. split; [by apply createBackend_unsupported|].
    intros h. unfold main. rewrite New_unsupported by done.
    split; [by eexists | done].
  - intros file_exists h file h' a. unfold main.
    destruct (negb file_exists); [done|].
    destruct (New h file) as [[err | [h0 a0]]|] eqn:Hnew; try done.
    intros [= <- <-]. apply New_started in Hnew as [Hcreate _].
    by apply createBackend_backend in Hcreate as [? _].
Qed.

End AppProofs.

(** ** Shutdown *)

Lemma stop_inv_step a s0 s1 :
  App.exec a s0 = Some s1 -> stop_inv s0 -> stop_inv s1.
Proof.
  unfold stop_inv. destruct s0 as [n tk tick c u wg l ini fl st cl].
  destruct a; cbn; intros Hexec [Hstop Hclosed];
    repeat case_match; simplify_eq; cbn in *;
    (split; [intros Hs | intros Hc]);
    try done; try (by apply Hstop); try (by apply Hclosed);
    try (specialize (Hclosed Hc); congruence).
Qed.

Lemma stop_inv_run schedule s0 s :
  App.run schedule s0 = Some s -> stop_inv s0 -> stop_inv s.
Proof.
  revert s0. induction schedule as [|a schedule IH]; intros s0; cbn [App.run].
  - by intros [= <-].
  - destruct (App.exec a s0) as [s1|] eqn:Hexec; [|done].
    intros Hrun Hinv. apply (IH s1 Hrun). by apply (stop_inv_step a s0).
Qed.

(** C2 (what the code does). On the schedule [early_close], with any number
    [n] of queries, [Stop] runs to [a.backend.Close()] while the [n] per-query
    goroutines of the initial refresh are all still in flight: [a.wg] counts
    only the goroutine of [updateLoop].  What [Stop] does ensure on every
    schedule is that the context is cancelled and the UI stopped before the
    backend is closed. *)
Theorem stop_closes_backend_with_refresh_in_flight (n : nat) :
  (exists s,
     App.run early_close (App.initial n) = Some s /\
     App.o_closed s = true /\ App.o_in_flight s = n /\
     App.o_wg s = 0%nat /\ App.o_loop s = App.LoopReturned) /\
  (forall schedule s,
     App.run schedule (App.initial n) = Some s -> App.o_closed s = true ->
     App.o_cancelled s = true /\ App.o_ui_stopped s = true).
Proof.
  split.
  - eexists. cbn. split_and!; reflexivity.
  - intros schedule s Hrun Hclosed.
    destruct (stop_inv_run schedule (App.initial n) s Hrun) as [H1 H2].
    { split; [done | by cbn]. }
    apply H1. by rewrite (H2 Hclosed).
Qed.

(** * Closed instances *)

Lemma example_four_panels_ready : nav_ready example_four_panels.
Proof.
  split; cbn; unfold bound, len; cbn; try lia; by eexists.
Defined.

Example focusNext_scrolls_right :
  (t1 ← focusNext example_four_panels; mret (focusIndex t1, scrollOffset t1))
  = Ok (3, 1).
Proof. vm_compute. reflexivity. Qed.

Example focusNext_wraps_to_first :
  (t1 ← focusNext example_four_panels; t2 ← focusNext t1;
   mret (focusIndex t2, scrollOffset t2))
  = Ok (0, 0).
Proof. vm_compute. reflexivity. Qed.

Example focusPrev_wraps_to_last :
  (t1 ← focusPrev (set_focusIndex example_four_panels 0);
   mret (focusIndex t1, scrollOffset t1))
  = Ok (3, 1).
Proof. vm_compute. reflexivity. Qed.

Lemma focus_change_keeps_focus_visible_witness :
  0 < len (panels example_four_panels) /\ nav_ready example_four_panels /\
  exists t',
    focus_step Next example_four_panels = Ok t' /\
    focus_visible t' /\
    focusIndex t' = focus_target Next (focusIndex example_four_panels)
                      (len (panels example_four_panels)) /\
    scrollOffset t' =
      scroll_to_show (focusIndex t') (scrollOffset example_four_panels)
        (visiblePanels example_four_panels) (len (panels example_four_panels)) /\
    0 <= scrollOffset t' <=
      Z.max 0 (len (panels example_four_panels) - visiblePanels example_four_panels) /\
    visiblePanels t' = visiblePanels example_four_panels /\
    len (panels t') = len (panels example_four_panels) /\
    nav_ready t'.
Proof.
  assert (Hn : 0 < len (panels example_four_panels)) by (vm_compute; reflexivity).
  split; [exact Hn|]. split; [exact example_four_panels_ready|].
  exact (proj1 (focus_change_keeps_focus_visible Next example_four_panels Hn
                  example_four_panels_ready)).
Defined.

Lemma focus_wraps_around_witness :
  nav_start example_four_panels /\
  exists t', iterate 4 focusNext example_four_panels = Ok t' /\
             focusIndex t' = focusIndex example_four_panels.
Proof.
  assert (Hstart : nav_start example_four_panels)
    by (intros _; exact example_four_panels_ready).
  split; [exact Hstart|].
  refine (proj1 (proj2 (focus_wraps_around example_four_panels Hstart) _)).
  vm_compute; reflexivity.
Defined.

Lemma update_out_of_range_is_noop_witness :
  (forall timeSeries err,
     UpdateTimeSeries example_two_panels (-1) timeSeries err = Ok example_two_panels) /\
  (forall h point err,
     exists h', UpdateMetric h example_two_panels (-1) point err =
                Ok (h', example_two_panels)).
Proof.
  apply (update_out_of_range_is_noop example_two_panels (-1)). left. lia.
Defined.

Lemma error_update_keeps_series_witness :
  exists t' q,
    UpdateTimeSeries example_two_panels 1 None (Some "timeout") = Ok t' /\
    histories example_two_panels !! Z.to_nat 1 = Some q /\
    histories t' !! Z.to_nat 1 =
      Some (mkQueryHistory (Name q) (TimeSeries q) (Some "timeout")) /\
    (forall j, j <> Z.to_nat 1 ->
               histories t' !! j = histories example_two_panels !! j) /\
    length (histories t') = length (histories example_two_panels) /\
    panels t' = panels example_two_panels /\
    (forall h tq h' tq',
       run_update (H:=example_externals) h tq (mkDrawUpdate 1 (Some "timeout")) =
         Ok (h', tq') ->
       h' = h /\ histories tq' = histories tq).
Proof.
  apply (error_update_keeps_series (H:=example_externals) example_two_panels 1 None
           "timeout").
  unfold len; cbn; lia.
Defined.

Lemma example_series_at :
  series_at example_heap 2%positive (mkTimeSeriesResult (mkSlice 2%positive 0%nat 2%nat)).
Proof.
  split_and!; [reflexivity | by eexists | unfold bound; cbn; lia].
Defined.

Lemma success_update_stores_series_witness :
  exists t' q,
    UpdateTimeSeries example_two_panels 0 (Some 2%positive) None = Ok t' /\
    histories example_two_panels !! Z.to_nat 0 = Some q /\
    histories t' !! Z.to_nat 0 = Some (mkQueryHistory (Name q) (Some 2%positive) None) /\
    exists h'' t'',
      renderTimeSeriesGraph (H:=example_externals) example_heap t' 0 = Ok (h'', t'') /\
      histories t'' = histories t' /\
      slice_elems h'' (mkSlice 2%positive 0%nat 2%nat) =
        [mkDataPoint 15 3%float; mkDataPoint 40 4%float].
Proof.
  destruct (success_update_stores_series (H:=example_externals) example_heap
              example_two_panels 0 2%positive
              (mkTimeSeriesResult (mkSlice 2%positive 0%nat 2%nat)))
    as (t' & q & Hupd & Hq & Hq' & _ & _ & h'' & t'' & Hrender & Hh & _ & Helems & _).
  - unfold len; cbn; lia.
  - unfold len; cbn; lia.
  - exact example_series_at.
  - exists t', q. split_and!; try done. by exists h'', t''.
Defined.

Lemma example_heap_closed : heap_closed example_heap (histories example_two_panels).
Proof.
  repeat constructor; intros p [= <-]; by eexists.
Defined.

Lemma footer_reports_min_and_max_witness :
  exists text,
    updateTimeRange (H:=example_externals) example_heap example_two_panels =
      Ok (set_timeRange example_two_panels (Some (SetText NewTextView text))) /\
    text = range_text (H:=example_externals) 10 40.
Proof.
  destruct (footer_reports_min_and_max (H:=example_externals) example_heap
              example_two_panels NewTextView eq_refl example_heap_closed)
    as (text & Hupd & _ & _ & Huniq & _ & _).
  exists text. split; [exact Hupd|].
  apply Huniq; change (map Timestamp (all_points example_heap
                                       (histories example_two_panels)))
                 with [10; 20; 15; 40].
  - set_solver.
  - set_solver.
  - intros x Hx. repeat (apply elem_of_cons in Hx as [-> | Hx]; [lia|]).
    by apply elem_of_nil in Hx.
Defined.

Example footer_waits_without_data :
  (t1 ← updateTimeRange (H:=example_externals) empty_heap
          (set_histories example_two_panels
             [mkQueryHistory "cpu" None None; mkQueryHistory "mem" None None]);
   mret (tv_text <$> timeRange t1))
  = Ok (Some waiting_text).
Proof. vm_compute. reflexivity. Qed.

Lemma nil_series_update_breaks_rendering_witness :
  exists t' q,
    UpdateTimeSeries example_two_panels 0 None None = Ok t' /\
    histories t' !! Z.to_nat 0 = Some q /\ TimeSeries q = None /\
    ~ series_non_nil t' /\
    forall h,
      renderTimeSeriesGraph (H:=example_externals) h t' 0 = Panic nil_deref /\
      run_update (H:=example_externals) h t' (mkDrawUpdate 0 None) = Panic nil_deref.
Proof.
  refine (proj2 (proj2 (proj2 (nil_series_update_breaks_rendering
                                 (H:=example_externals) example_two_panels 0 _ _))));
    unfold len; cbn; lia.
Defined.

Example unsupported_backend_exits :
  App.main (H0:=example_network) true empty_heap
    (App.Parsed (App.mkConfig "graphite" (App.mkPromConfig "http://localhost:9090")
                   (App.mkInfluxDBConfig "" "" "" "")
                   (App.mkInfluxDB1Config "" "" "" "" false)
                   (App.mkMockConfig 0) example_queries))
  = App.Exit 1.
Proof. reflexivity. Qed.

Example mock_backend_starts :
  match App.main (H0:=example_network) true empty_heap
          (App.Parsed (App.mkConfig "mock" (App.mkPromConfig "")
                         (App.mkInfluxDBConfig "" "" "" "")
                         (App.mkInfluxDB1Config "" "" "" "" false)
                         (App.mkMockConfig 7) example_queries)) with
  | App.Started _ a => App.BackendName (App.backend a) = "mock"
  | _ => False
  end.
Proof. vm_compute. reflexivity. Qed.

(** * Further properties of the code *)

(** ** The scroll view and the focus colours *)

Lemma add_visible_exact t first endIndex :
  0 <= first -> endIndex <= len (panels t) ->
  add_visible t first endIndex =
  Ok (map (fun i => mkFlexItem i 0 1 (i =? focusIndex t))
          (seqZ first (endIndex - first))).
Proof.
  intros Hf He. unfold add_visible.
  assert (Hall : Forall (fun i => 0 <= i < len (panels t))
                        (seqZ first (endIndex - first))).
  { apply Forall_seqZ. lia. }
  induction Hall as [|i l Hi _ IH]; [done|].
  destruct (index_in_range (panels t) i Hi) as (x & Hx & _).
  cbn in *. rewrite Hx. cbn. by rewrite IH.
Qed.

Lemma updateScrollView_items t t' :
  updateScrollView t = Ok t' -> 0 < len (panels t) ->
  scrollView t' =
    Some (map (fun i => mkFlexItem i 0 1 (i =? focusIndex t'))
              (seqZ (scrollOffset t')
                    (Z.min (len (panels t'))
                           (int_add (scrollOffset t') (visiblePanels t'))
                     - scrollOffset t'))) /\
  panels t' = panels t /\ focusIndex t' = focusIndex t /\
  visiblePanels t' = visiblePanels t /\ 0 <= scrollOffset t'.
Proof.
  unfold updateScrollView. destruct (scrollView t); [|done].
  cbn [panels set_scrollView]. intros Hrun Hn.
  destruct (len (panels t) =? 0) eqn:E0; [lia|]. cbv zeta in Hrun.
  match type of Hrun with
  | context [add_visible ?u ?a ?b] => set (U := u) in *
  end.
  assert (HU : panels U = panels t /\ focusIndex U = focusIndex t /\
               visiblePanels U = visiblePanels t /\ 0 <= scrollOffset U).
  { subst U. clear Hrun. destruct t as [a sv ps tr f s v hs q].
    cbn -[len Z.ltb int_sub].
    generalize (int_sub (len ps) v). intros mo.
    destruct (mo <? 0) eqn:E1;
      (destruct (_ <? s) eqn:E2; cbn -[len Z.ltb];
       [destruct (_ <? 0) eqn:E3 | destruct (s <? 0) eqn:E3];
       cbn -[len Z.ltb]; split_and!; try done; lia). }
  destruct HU as (HUp & HUf & HUv & HUs). clearbody U.
  rewrite add_visible_exact in Hrun; [|done|].
  - cbn in Hrun. injection Hrun as <-. cbn. rewrite HUp.
    split_and!; try done. do 3 f_equal.
    destruct (len (panels t) <? int_add (scrollOffset U) (visiblePanels U)) eqn:E; lia.
  - rewrite HUp.
    destruct (len (panels t) <? int_add (scrollOffset U) (visiblePanels U)) eqn:E; lia.
Qed.

Lemma scrollToShowFocus_items t t' :
  scrollToShowFocus t = Ok t' -> 0 < len (panels t) ->
  scrollView t' =
    Some (map (fun i => mkFlexItem i 0 1 (i =? focusIndex t'))
              (seqZ (scrollOffset t')
                    (Z.min (len (panels t'))
                           (int_add (scrollOffset t') (visiblePanels t'))
                     - scrollOffset t'))) /\
  panels t' = panels t.
Proof.
  unfold scrollToShowFocus. intros Hrun Hn.
  destruct (len (panels t) =? 0) eqn:E0; [lia|]. cbv zeta in Hrun.
  match type of Hrun with
  | updateScrollView ?u = _ => set (U := u) in *
  end.
  assert (HU : panels U = panels t).
  { subst U.
    repeat (match goal with |- context [if ?b then _ else _] => destruct b end;
            cbn); done. }
  clearbody U.
  apply updateScrollView_items in Hrun as (Hitems & Hp & _); [|by rewrite HU].
  split; [done | congruence].
Qed.

Lemma updateFocus_panels t t' :
  updateFocus t = Ok t' -> 0 < len (panels t) ->
  panels t' = imap (fun j panel => SetColors panel (focus_colour (focusIndex t) j))
                   (panels t) /\
  (scrollOffset t <= focusIndex t <= scrollOffset t + visiblePanels t - 1 ->
   - bound <= scrollOffset t <= bound -> 0 <= visiblePanels t <= bound ->
   a_focus <$> app t' = Some (Some (focusIndex t))).
Proof.
  unfold updateFocus. intros Hrun Hn.
  destruct (len (panels t) =? 0) eqn:E0; [lia|]. cbv zeta in Hrun.
  assert (Hcol : imap (fun (i : nat) (panel : TextView) =>
                         if Z.of_nat i =? focusIndex t
                         then SetColors panel ColorYellow
                         else SetColors panel ColorWhite) (panels t) =
                 imap (fun j panel => SetColors panel (focus_colour (focusIndex t) j))
                      (panels t)).
  { apply imap_ext. intros j panel _. unfold focus_colour.
    by destruct (Z.of_nat j =? focusIndex t). }
  rewrite Hcol in Hrun. cbn [scrollOffset focusIndex visiblePanels panels app set_panels] in Hrun.
  destruct ((scrollOffset t <=? focusIndex t) &&
            (focusIndex t <=? int_sub (int_add (scrollOffset t) (visiblePanels t)) 1))
    eqn:Evis.
  - destruct (index _ (focusIndex t)) as [x|]; [|done]. cbn in Hrun.
    destruct (app t) as [a|]; [|done]. cbn in Hrun. injection Hrun as <-.
    split; done.
  - injection Hrun as <-. split; [done|]. intros Hvis Hs Hv. exfalso.
    unfold int_sub, int_add, bound in *.
    rewrite (wrap_small (scrollOffset t + visiblePanels t)) in Evis
      by (unfold int_min, int_max; lia).
    rewrite wrap_small in Evis by (unfold int_min, int_max; lia).
    apply andb_false_iff in Evis as [E | E]; lia.
Qed.

Lemma focus_step_parts d t :
  0 < len (panels t) -> nav_ready t ->
  exists t1 t',
    scrollToShowFocus
      (set_focusIndex t (focus_target d (focusIndex t) (len (panels t)))) = Ok t1 /\
    updateFocus t1 = Ok t' /\ focus_step d t = Ok t' /\
    focus_visible t' /\ nav_ready t' /\
    panels t1 = panels t /\ histories t1 = histories t /\
    timeRange t1 = timeRange t /\
    focusIndex t1 = focusIndex t' /\ scrollOffset t1 = scrollOffset t' /\
    visiblePanels t1 = visiblePanels t' /\ scrollView t1 = scrollView t' /\
    visiblePanels t' = visiblePanels t /\ len (panels t') = len (panels t) /\
    0 <= scrollOffset t' <= Z.max 0 (len (panels t) - visiblePanels t) /\
    histories t' = histories t /\ timeRange t' = timeRange t.
Proof.
  intros Hn Hready.
  destruct (focus_step_spec d t Hn Hready)
    as (t' & Hstep & Hvis & Hf & Hs & Hrange & Hv & Hlen & Hready').
  pose proof Hstep as Hparts.
  rewrite focus_step_unfold in Hparts by (try done; apply Hready).
  set (tf := set_focusIndex t _) in *.
  destruct (scrollToShowFocus_spec tf) as [items Hscroll]; cbn;
    try apply Hready; try (by apply focus_target_range).
  { destruct Hready. lia. }
  rewrite Hscroll in Hparts. cbn [mbind result_bind] in Hparts.
  set (t1 := set_scrollView _ _) in *.
  destruct (updateFocus_spec t1)
    as (t'' & Hupd & _ & Hsv & _ & Hfi & Hso & Hvp & Hh & Htr).
  { cbn. apply Hready. }
  { cbn. by apply focus_target_range. }
  assert (t'' = t') by congruence. subst t''.
  exists t1, t'. cbn in Hsv, Hfi, Hso, Hvp, Hh, Htr.
  split_and!; try done; try lia; cbn; congruence.
Qed.

Lemma window_items_length t :
  length (window_items t) = Z.to_nat (Z.min (visiblePanels t) (len (panels t))).
Proof. unfold window_items. by rewrite length_map, length_seqZ. Qed.

(** X1. After [focusNext] or [focusPrev] the scroll view shows exactly the window
    of the new state: [min(visible, count)] consecutive panels starting at
    the scroll offset, in order, the focused panel among them and the only
    one flagged as focused. *)
Theorem focus_change_shows_window (d : direction) (t : TUI) :
  0 < len (panels t) -> nav_ready t ->
  exists t',
    focus_step d t = Ok t' /\
    scrollView t' = Some (window_items t') /\
    length (window_items t') =
      Z.to_nat (Z.min (visiblePanels t) (len (panels t))) /\
    mkFlexItem (focusIndex t') 0 1 true ∈ window_items t' /\
    (forall item, item ∈ window_items t' ->
       scrollOffset t' <= fi_panel item < scrollOffset t' + visiblePanels t' /\
       0 <= fi_panel item < len (panels t') /\
       (fi_focus item = true <-> fi_panel item = focusIndex t')).
Proof.
  intros Hn Hready.
  destruct (focus_step_parts d t Hn Hready)
    as (t1 & t' & Hscroll & Hupd & Hstep & Hvis & Hready' & Hp1 & _ & _ & Hf1 & Hs1 &
        Hv1 & Hsv1 & Hv & Hlen & Hrange & _).
  exists t'. split; [done|].
  apply scrollToShowFocus_items in Hscroll as [Hitems Hp]; [|by cbn].
  assert (Hcount : Z.min (len (panels t1))
                     (int_add (scrollOffset t1) (visiblePanels t1)) - scrollOffset t1
                   = Z.min (visiblePanels t') (len (panels t'))).
  { unfold int_add. destruct Hready as [_ _ Hb _ Hvb _]. unfold bound in *.
    rewrite wrap_small by (unfold int_min, int_max; lia).
    rewrite Hp, Hs1, Hv1. cbn [panels set_focusIndex]. lia. }
  split_and!.
  - rewrite <- Hsv1, Hitems. unfold window_items.
    by rewrite Hcount, Hf1, Hs1.
  - rewrite window_items_length. by rewrite Hv, Hlen.
  - unfold window_items. apply list_elem_of_fmap.
    exists (focusIndex t'). rewrite Z.eqb_refl. split; [done|].
    apply elem_of_seqZ. unfold focus_visible in Hvis.
    destruct Hready' as [_ _ _ Hfr _ _]. lia.
  - intros item [i [-> Hi]]%list_elem_of_fmap. apply elem_of_seqZ in Hi.
    cbn. split_and!; lia.
Qed.

(** X2. After [focusNext] or [focusPrev] the focused panel, and no other, has a
    yellow border and title, every other panel a white one; titles and texts
    are untouched; the application's input focus is on the focused panel;
    histories and footer are as before. *)
Theorem focus_change_marks_focused_panel (d : direction) (t : TUI) :
  0 < len (panels t) -> nav_ready t ->
  exists t',
    focus_step d t = Ok t' /\
    a_focus <$> app t' = Some (Some (focusIndex t')) /\
    (forall j panel,
       panels t !! j = Some panel ->
       panels t' !! j = Some (SetColors panel (focus_colour (focusIndex t') j))) /\
    (forall j panel',
       panels t' !! j = Some panel' ->
       (tv_borderColor panel' = ColorYellow <-> Z.of_nat j = focusIndex t') /\
       (tv_borderColor panel' = ColorWhite <-> Z.of_nat j <> focusIndex t') /\
       tv_titleColor panel' = tv_borderColor panel') /\
    histories t' = histories t /\ timeRange t' = timeRange t.
Proof.
  intros Hn Hready.
  destruct (focus_step_parts d t Hn Hready)
    as (t1 & t' & Hscroll & Hupd & Hstep & Hvis & Hready' & Hp1 & _ & _ & Hf1 & Hs1 &
        Hv1 & Hsv1 & Hv & Hlen & Hrange & Hh & Htr).
  exists t'. split; [done|].
  apply updateFocus_panels in Hupd as [Hpanels Hfocus]; [|by rewrite Hp1].
  rewrite Hp1, Hf1 in Hpanels. rewrite Hf1, Hs1, Hv1 in Hfocus.
  assert (Hlook : forall j, panels t' !! j =
            (fun panel => SetColors panel (focus_colour (focusIndex t') j))
              <$> panels t !! j).
  { intros j. rewrite Hpanels. apply list_lookup_imap. }
  split_and!; try done.
  - apply Hfocus; [exact Hvis | |]; destruct Hready' as [_ _ _ _ Hvb Hsb]; lia.
  - intros j panel Hj. by rewrite Hlook, Hj.
  - intros j panel' Hj. rewrite Hlook in Hj.
    destruct (panels t !! j) as [panel|]; [|done]. injection Hj as <-.
    unfold focus_colour. cbn.
    destruct (Z.of_nat j =? focusIndex t') eqn:E; split_and!; try done;
      split; try done; lia.
Qed.

(** ** Construction *)

Lemma init_histories_full h queries :
  exists h0 hs,
    init_histories h queries = (h0, hs) /\
    map Name hs = map q_Name queries /\
    Forall (fun q => LastError q = None /\
                     exists p ts, TimeSeries q = Some p /\
                                  h_series h !! p = None /\
                                  h_series h0 !! p = Some ts /\
                                  s_len (Points ts) = 0%nat) hs /\
    NoDup (map TimeSeries hs) /\
    (forall l x, h_series h !! l = Some x -> h_series h0 !! l = Some x) /\
    (forall l arr, h_arrays h !! l = Some arr -> h_arrays h0 !! l = Some arr).
Proof.
  revert h. induction queries as [|query queries IH]; intros h.
  - exists h, []. split_and!; try done. constructor.
  - cbn [init_histories]. unfold slice_literal, new_series. cbn.
    set (la := fresh (dom (h_arrays h))).
    set (ls := fresh (dom (h_series h))).
    set (h2 := mkHeap _ _).
    destruct (IH h2) as (h0 & hs & -> & Hnames & Hall & Hnodup & Hser & Harr).
    assert (Hls : h_series h2 !! ls = Some (mkTimeSeriesResult (mkSlice la 0 0)))
      by apply lookup_insert_eq.
    assert (Hsub : forall l, h_series h2 !! l = None -> h_series h !! l = None).
    { intros l. subst h2. cbn. rewrite lookup_insert.
      by destruct (decide (ls = l)). }
    eexists _, _. split; [reflexivity|]. cbn [map Name]. split_and!.
    + by rewrite Hnames.
    + constructor.
      * split; [done|]. exists ls, (mkTimeSeriesResult (mkSlice la 0 0)).
        split_and!; try done; [apply fresh_series_none | by apply Hser].
      * eapply Forall_impl; [exact Hall|].
        intros q (He & p & ts & Hp & Hnone & Hsome & Hlen).
        split; [done|]. exists p, ts. split_and!; try done. by apply Hsub.
    + constructor; [|done]. cbn.
      intros Hin. apply list_elem_of_fmap in Hin as (q & Hq & Hin).
      rewrite Forall_forall in Hall.
      destruct (Hall q Hin) as (_ & p & ts & Hp & Hnone & _).
      rewrite Hp in Hq. injection Hq as ->. by rewrite Hls in Hnone.
    + intros l x Hl. apply Hser. subst h2. cbn.
      rewrite lookup_insert_ne; [done|].
      intros <-. unfold ls in Hl. by rewrite fresh_series_none in Hl.
    + intros l arr Hl. apply Harr. by apply (heap_extends_fresh h []).
Qed.

Lemma updateFocus_fields t t' :
  updateFocus t = Ok t' ->
  a_updates <$> app t' = a_updates <$> app t /\
  timeRange t' = timeRange t /\ histories t' = histories t /\
  onQuit t' = onQuit t /\ scrollView t' = scrollView t /\
  focusIndex t' = focusIndex t /\ scrollOffset t' = scrollOffset t /\
  visiblePanels t' = visiblePanels t.
Proof.
  unfold updateFocus. destruct (len (panels t) =? 0); [by intros [= <-]|].
  cbv zeta. cbn [scrollOffset focusIndex visiblePanels panels app set_panels].
  destruct (_ && _); [|by intros [= <-]].
  destruct (index _ _) as [panel|]; [|done]. cbn.
  destruct (app t) as [a|]; [|done]. cbn. by intros [= <-].
Qed.

Lemma setupUI_full a hs quit queries :
  len queries <= bound ->
  exists t,
    setupUI (mkTUI (Some a) None [] None 0 0 3 hs quit) queries = Ok t /\
    histories t = hs /\ onQuit t = quit /\
    panels t = imap (fun j panel => SetColors panel (focus_colour 0 j))
                    (map new_panel queries) /\
    timeRange t =
      Some (SetDynamicColors
              (SetTextAlign (SetText NewTextView "Time Range: Waiting for data...")
                            AlignCenter) true) /\
    a_updates <$> app t = Some (a_updates a).
Proof.
  intros Hbound.
  destruct (setupUI_spec a hs quit queries Hbound) as (t & Hsetup & Hh & _).
  exists t. split; [done|]. unfold setupUI in Hsetup.
  set (t3 := if len queries <=? 2 then _ else _) in Hsetup.
  assert (Ht3 : t3 = mkTUI (Some a) (Some []) (map new_panel queries) None 0 0
                       (if len queries <=? 2 then len queries else 3) hs quit).
  { subst t3. destruct (len queries <=? 2); [done|]. by destruct (len queries =? 3). }
  rewrite Ht3 in Hsetup. clear t3 Ht3.
  destruct queries as [|query queries].
  { unfold updateScrollView, updateFocus in Hsetup. cbn in Hsetup.
    injection Hsetup as <-. by cbn. }
  assert (Hn : 0 < len (query :: queries)) by (unfold len; cbn; lia).
  remember (query :: queries) as qs eqn:Hqs. clear Hqs.
  set (t3 := mkTUI _ _ _ _ _ _ _ _ _) in Hsetup.
  assert (Hlen : len (map new_panel qs) = len qs)
    by (unfold len; by rewrite length_map).
  destruct (updateScrollView_spec t3) as [items Hitems].
  { by eexists. }
  { cbn -[len]. rewrite Hlen. lia. }
  { cbn -[len]. unfold bound in *. destruct (len qs <=? 2) eqn:E; lia. }
  { cbn -[len]. unfold bound. lia. }
  rewrite Hitems in Hsetup. cbn [mbind result_bind] in Hsetup.
  pose proof (updateFocus_fields _ _ Hsetup) as (Hqueue & Htr & _ & Hquit & _).
  apply updateFocus_panels in Hsetup as [Hpanels _]; [|cbn; by rewrite Hlen].
  cbn in Hpanels, Hqueue, Htr, Hquit.
  split_and!; done.
Qed.

Lemma NewTUI_names h queries quit :
  len queries <= bound ->
  exists h0 t0,
    NewTUI h queries quit = Ok (h0, t0) /\
    map Name (histories t0) = map q_Name queries.
Proof.
  intros Hbound. unfold NewTUI.
  destruct (init_histories_full h queries) as (h0 & hs & -> & Hnames & _).
  destruct (setupUI_spec NewApplication hs quit queries Hbound)
    as (t0 & -> & Hh & _).
  exists h0, t0. cbn [mbind result_bind]. by rewrite Hh.
Qed.

(** X3. [NewTUI] never panics (for a query list a Go slice can hold) and returns:
    one history per query, in order, under the query's name, without error,
    each with its own newly allocated series holding no points; one panel
    per query, titled with the name between spaces, showing
    [Initializing...], the first one in the focus colour and the others
    white; focus and scroll offset 0; [min(count, 3)] visible panels; the
    footer [Time Range: Waiting for data...]; nothing queued.  What was in
    the heap is untouched. *)
Theorem NewTUI_initial_state (h : Heap) (queries : list Query) (quit : bool) :
  len queries <= bound ->
  exists h0 t0,
    NewTUI h queries quit = Ok (h0, t0) /\
    map Name (histories t0) = map q_Name queries /\
    Forall (fun q => LastError q = None /\ is_Some (TimeSeries q) /\
                     stored_points h0 q = []) (histories t0) /\
    NoDup (map TimeSeries (histories t0)) /\
    heap_closed h0 (histories t0) /\
    length (panels t0) = length queries /\
    (forall j query,
       queries !! j = Some query ->
       panels t0 !! j = Some (SetColors (new_panel query) (focus_colour 0 j))) /\
    focusIndex t0 = 0 /\ scrollOffset t0 = 0 /\
    visiblePanels t0 = visible_for (len queries) /\
    tv_text <$> timeRange t0 = Some "Time Range: Waiting for data..." /\
    a_updates <$> app t0 = Some [] /\ onQuit t0 = quit /\
    (forall l x, h_series h !! l = Some x -> h_series h0 !! l = Some x) /\
    (forall l arr, h_arrays h !! l = Some arr -> h_arrays h0 !! l = Some arr).
Proof.
  intros Hbound. unfold NewTUI.
  destruct (init_histories_full h queries)
    as (h0 & hs & -> & Hnames & Hall & Hnodup & Hser & Harr).
  destruct (setupUI_full NewApplication hs quit queries Hbound)
    as (t0 & Hsetup & Hh & Hquit & Hpanels & Htr & Hqueue).
  destruct (setupUI_spec NewApplication hs quit queries Hbound)
    as (t0' & Hsetup' & _ & Hlen & Hf & Hs & Hv & _).
  assert (t0' = t0) by congruence. subst t0'.
  rewrite Hsetup. cbn [mbind result_bind]. exists h0, t0.
  split; [done|]. rewrite Hh, Htr.
  assert (Hlook : forall j, panels t0 !! j =
            (fun query => SetColors (new_panel query) (focus_colour 0 j))
              <$> queries !! j).
  { intros j. rewrite Hpanels, list_lookup_imap, list_lookup_fmap.
    by destruct (queries !! j). }
  split_and!; try done.
  - eapply Forall_impl; [exact Hall|].
    intros q (He & p & ts & Hp & _ & Hsome & Hzero).
    split_and!; [done | by eexists |].
    unfold stored_points, slice_elems. by rewrite Hp, Hsome, Hzero.
  - eapply Forall_impl; [exact Hall|].
    intros q (_ & p & ts & Hp & _ & Hsome & _) p' Hp'.
    rewrite Hp in Hp'. injection Hp' as <-. by eexists.
  - rewrite Hpanels, length_imap. apply length_map.
  - intros j query Hj. by rewrite Hlook, Hj.
Qed.

(** ** Drawing *)

Section DrawProofs.
Context `{!Externals}.

Lemma renderTimeSeriesGraph_content h t i q panel p ts :
  0 <= i ->
  histories t !! Z.to_nat i = Some q ->
  panels t !! Z.to_nat i = Some panel ->
  TimeSeries q = Some p ->
  h_series h !! p = Some ts ->
  Z.of_nat (s_len (Points ts)) <= bound ->
  slice_elems h (Points ts) <> [] ->
  exists h' latest oldest width height,
    renderTimeSeriesGraph h t i =
      Ok (h', set_panels t
                (store (panels t) i
                   (SetText panel
                      (panel_content latest oldest
                         (Plot (map Value
                                    (sort_Slice less_by_time
                                       (slice_elems h (Points ts))))
                               height width (Name q +:+ " Time Series")))))) /\
    head (sort_Slice less_by_time (slice_elems h (Points ts))) = Some oldest /\
    last (sort_Slice less_by_time (slice_elems h (Points ts))) = Some latest /\
    20 <= width /\ 3 <= height /\ heap_extends h h'.
Proof.
  intros Hi Hq Hpanel Hp Hts Hlen Hne. unfold renderTimeSeriesGraph.
  rewrite (index_lookup _ _ _ Hi Hq), (index_lookup _ _ _ Hi Hpanel).
  cbn [mbind result_bind]. unfold deref_series. rewrite Hp, Hts.
  cbn [mbind result_bind].
  set (stored := slice_elems h (Points ts)) in *.
  assert (Hstored : len stored <= bound).
  { pose proof (slice_elems_length h (Points ts)) as Hle. unfold len.
    fold stored in Hle. lia. }
  destruct (len stored =? 0) eqn:E0.
  { exfalso. apply Hne. apply Z.eqb_eq in E0. unfold len in E0.
    apply length_zero_iff_nil. lia. }
  pose proof (sorted_copy_spec h stored) as Hcopy.
  destruct (make_points h (length stored)) as [h1 points].
  cbv zeta in Hcopy. destruct Hcopy as [Hh3 Hsorted].
  rewrite Hh3. rewrite Hh3 in Hsorted. rewrite Hsorted.
  set (sorted := sort_Slice less_by_time stored).
  assert (Hsl : len sorted = len stored).
  { unfold len, sorted. by rewrite sort_Slice_length. }
  destruct (index_in_range (map Value sorted) 0) as (v0 & Hv0 & _).
  { unfold len in *. rewrite length_map. lia. }
  rewrite Hv0. cbn [mbind result_bind].
  destruct (max_min v0 (map Value sorted)) as [maxY minY].
  assert (Hlast : int_sub (len sorted) 1 = len sorted - 1).
  { unfold int_sub. apply wrap_small. unfold int_min, int_max, bound, len in *. lia. }
  rewrite Hlast.
  destruct (index_in_range sorted (len sorted - 1)) as (latest & Hlatest & Hl1);
    [unfold len in *; lia|].
  destruct (index_in_range sorted 0) as (oldest & Holdest & Hl0);
    [unfold len in *; lia|].
  rewrite Hlatest, Holdest. cbn [mbind result_bind].
  eexists _, latest, oldest, _, _. split; [reflexivity|].
  split_and!.
  - by rewrite head_lookup.
  - rewrite last_lookup, <- Hl1. f_equal. unfold len. lia.
  - match goal with |- 20 <= (if ?c then _ else _) => destruct c eqn:E end; lia.
  - match goal with |- 3 <= (if ?c then _ else _) => destruct c eqn:E end; lia.
  - apply heap_extends_fresh.
Qed.

Lemma StronglySorted_head_least {A} (R : relation A) (l : list A) x0 :
  StronglySorted R l -> head l = Some x0 ->
  forall x, x ∈ l -> x = x0 \/ R x0 x.
Proof.
  intros Hs Hh x Hx. destruct Hs as [|y l Hs Hall]; [done|].
  injection Hh as ->. apply elem_of_cons in Hx as [-> | Hx]; [by left|].
  right. rewrite Forall_forall in Hall. by apply Hall.
Qed.

Lemma StronglySorted_last_greatest {A} (R : relation A) (l : list A) x1 :
  StronglySorted R l -> last l = Some x1 ->
  forall x, x ∈ l -> x = x1 \/ R x x1.
Proof.
  intros Hs. induction Hs as [|y l Hs IH Hall]; [done|].
  intros Hl x Hx. rewrite Forall_forall in Hall.
  destruct l as [|z l].
  - injection Hl as <-. apply list_elem_of_singleton in Hx. by left.
  - change (last (y :: z :: l)) with (last (z :: l)) in Hl.
    apply elem_of_cons in Hx as [-> | Hx]; [|by apply IH].
    right. apply Hall. clear -Hl.
    rewrite last_lookup in Hl. by eapply list_elem_of_lookup_2.
Qed.

(** X4. Rendering a panel whose series has points (and whose sort sorts): the
    panel text is the block made of the value of a point with the greatest
    timestamp ([Current]), the span from the least to the greatest timestamp,
    and the plot of the values in time order, drawn at least 20 wide and 3
    high however small the panel is.  The points plotted are those stored,
    reordered; nothing that was in the heap changes. *)
Theorem render_shows_latest_and_span (h : Heap) (t : TUI) (i : Z)
    (q : QueryHistory) (panel : TextView) (p : loc) (ts : TimeSeriesResult) :
  sorts_by_time ->
  0 <= i ->
  histories t !! Z.to_nat i = Some q ->
  panels t !! Z.to_nat i = Some panel ->
  TimeSeries q = Some p ->
  series_at h p ts ->
  slice_elems h (Points ts) <> [] ->
  exists h' t' latest oldest values width height,
    renderTimeSeriesGraph h t i = Ok (h', t') /\
    panels t' = <[Z.to_nat i :=
                   SetText panel
                     (panel_content latest oldest
                        (Plot values height width (Name q +:+ " Time Series")))]>
                (panels t) /\
    latest ∈ slice_elems h (Points ts) /\ oldest ∈ slice_elems h (Points ts) /\
    (forall x, x ∈ slice_elems h (Points ts) ->
               Timestamp oldest <= Timestamp x <= Timestamp latest) /\
    (exists sorted, sorted ≡ₚ slice_elems h (Points ts) /\
                    values = map Value sorted /\
                    StronglySorted (fun a b => Timestamp a <= Timestamp b) sorted) /\
    20 <= width /\ 3 <= height /\
    histories t' = histories t /\ heap_extends h h' /\
    slice_elems h' (Points ts) = slice_elems h (Points ts).
Proof.
  intros Hsort Hi Hq Hpanel Hp (Hts & Hbase & Hlen) Hne.
  destruct (renderTimeSeriesGraph_content h t i q panel p ts)
    as (h' & latest & oldest & width & height & Hrender & Hhead & Hlast & Hw & Hh & Hext);
    try done.
  set (stored := slice_elems h (Points ts)) in *.
  set (sorted := sort_Slice less_by_time stored) in *.
  assert (Hperm : sorted ≡ₚ stored) by apply sort_Slice_perm.
  assert (Hss : StronglySorted (fun a b => Timestamp a <= Timestamp b) sorted)
    by apply Hsort.
  assert (Hin_old : oldest ∈ sorted).
  { rewrite head_lookup in Hhead. by eapply list_elem_of_lookup_2. }
  assert (Hin_new : latest ∈ sorted).
  { rewrite last_lookup in Hlast. by eapply list_elem_of_lookup_2. }
  eexists h', _, latest, oldest, (map Value sorted), width, height.
  split; [exact Hrender|]. cbn [panels histories set_panels].
  split_and!; try done.
  - by rewrite <- Hperm.
  - by rewrite <- Hperm.
  - intros x Hx. rewrite <- Hperm in Hx.
    pose proof (StronglySorted_head_least _ _ _ Hss Hhead x Hx) as H1.
    pose proof (StronglySorted_last_greatest _ _ _ Hss Hlast x Hx) as H2.
    pose proof (StronglySorted_last_greatest _ _ _ Hss Hlast oldest Hin_old) as H3.
    destruct H1 as [E1 | H1], H2 as [E2 | H2], H3 as [E3 | H3];
      rewrite ?E1, ?E2, ?E3 in *; lia.
  - by exists sorted.
  - by apply heap_extends_slice.
Qed.

Lemma stored_points_same h q q' :
  TimeSeries q' = TimeSeries q -> stored_points h q' = stored_points h q.
Proof. unfold stored_points. by intros ->. Qed.

Lemma all_points_store h hs i q q' :
  hs !! Z.to_nat i = Some q -> TimeSeries q' = TimeSeries q ->
  all_points h (store hs i q') = all_points h hs.
Proof.
  intros Hq Hsame. unfold all_points, store. f_equal.
  rewrite list_fmap_insert, (stored_points_same h q q' Hsame).
  apply list_insert_id. by rewrite list_lookup_fmap, Hq.
Qed.

Lemma heap_closed_store h hs i q' :
  heap_closed h hs ->
  (forall p, TimeSeries q' = Some p -> is_Some (h_series h !! p)) ->
  heap_closed h (store hs i q').
Proof. intros Hc Hq'. unfold heap_closed, store. by apply Forall_insert. Qed.

(** The state an in-range update leaves, when the queue was empty and the
    panel exists: the cell is written and exactly that redraw is queued. *)
Lemma UpdateTimeSeries_then_draw h t i timeSeries err a :
  app t = Some a -> a_updates a = [] ->
  0 <= i < len (histories t) -> i < len (panels t) ->
  exists q t1,
    histories t !! Z.to_nat i = Some q /\
    UpdateTimeSeries t i timeSeries err = Ok t1 /\
    draw_next h t1 =
      run_update h
        (set_histories t (store (histories t) i (updated_history q timeSeries err)))
        (mkDrawUpdate i err).
Proof.
  intros Ha Hempty Hi Hpanel.
  destruct (UpdateTimeSeries_in_range t i timeSeries err Hi) as (q & Hq & Hupd).
  exists q. eexists. split; [done|]. split; [exact Hupd|].
  unfold draw_next, enqueue. cbn [app panels set_histories].
  rewrite Ha. destruct (i <? len (panels t)) eqn:E; [|lia].
  cbn [app set_app]. unfold QueueUpdateDraw. rewrite Hempty. cbn [app].
  f_equal. destruct t, a; cbn in *. by subst.
Qed.

(** X5. An update with an error, followed by the turn of the event loop that runs
    the queued redraw: the panel shows the error text, every other panel is
    as before, the stored series of every query (the failing one included)
    is kept, the heap is untouched, the queue is empty again and the footer
    still reports the range of the stored data. *)
Theorem error_update_then_draw_shows_error (h : Heap) (t : TUI) (i : Z)
    (timeSeries : option loc) (e : error) (a : Application) (tr : TextView) :
  app t = Some a -> a_updates a = [] -> timeRange t = Some tr ->
  0 <= i < len (histories t) -> i < len (panels t) ->
  heap_closed h (histories t) ->
  exists t1 t2 q panel text,
    UpdateTimeSeries t i timeSeries (Some e) = Ok t1 /\
    draw_next h t1 = Ok (h, t2) /\
    histories t !! Z.to_nat i = Some q /\
    panels t !! Z.to_nat i = Some panel /\
    panels t2 = <[Z.to_nat i := SetText panel (error_text e)]> (panels t) /\
    histories t2 =
      <[Z.to_nat i := mkQueryHistory (Name q) (TimeSeries q) (Some e)]> (histories t) /\
    all_points h (histories t2) = all_points h (histories t) /\
    a_updates <$> app t2 = Some [] /\
    timeRange t2 = Some (SetText tr text) /\
    footer_for text (map Timestamp (all_points h (histories t))).
Proof.
  intros Ha Hempty Htr Hi Hpanel Hclosed.
  destruct (UpdateTimeSeries_then_draw h t i timeSeries (Some e) a Ha Hempty Hi Hpanel)
    as (q & t1 & Hq & Hupd & Hdraw).
  destruct (index_in_range (panels t) i) as (panel & Hidx & Hlook); [lia|].
  cbn [updated_history] in Hdraw.
  set (q' := mkQueryHistory (Name q) (TimeSeries q) (Some e)) in *.
  set (t0 := set_histories t (store (histories t) i q')) in *.
  assert (Hclosed' : heap_closed h (histories t0)).
  { apply heap_closed_store; [done|]. intros p Hp.
    unfold heap_closed in Hclosed. rewrite Forall_lookup in Hclosed.
    by apply (Hclosed _ _ Hq). }
  set (t0' := set_panels t0 (store (panels t0) i (SetText panel (error_text e)))).
  destruct (updateTimeRange_spec h t0' tr) as (text & Hfooter & Hfoot); [done..|].
  exists t1, (set_timeRange t0' (Some (SetText tr text))), q, panel, text.
  split; [done|]. split.
  { rewrite Hdraw. unfold run_update. cbn [du_err du_index panels t0 set_histories].
    rewrite Hidx. cbn [mbind result_bind]. fold (error_text e).
    change (set_panels _ _) with t0'. rewrite Hfooter. done. }
  assert (Hall : all_points h (store (histories t) i q') = all_points h (histories t))
    by (by apply (all_points_store h _ i q q')).
  change (histories t0') with (store (histories t) i q') in Hfoot.
  rewrite Hall in Hfoot.
  cbn -[all_points]. rewrite Ha. cbn -[all_points].
  split_and!; try done; by rewrite Hempty.
Qed.

(** X6. An update with a series that holds no point, followed by the turn of the
    event loop that runs the queued redraw: the panel shows
    [No data available], the heap is untouched, the error of that query is
    cleared, and the queue is empty again. *)
Theorem empty_series_draws_placeholder (h : Heap) (t : TUI) (i : Z) (p : loc)
    (ts : TimeSeriesResult) (a : Application) (tr : TextView) :
  app t = Some a -> a_updates a = [] -> timeRange t = Some tr ->
  0 <= i < len (histories t) -> i < len (panels t) ->
  heap_closed h (histories t) ->
  h_series h !! p = Some ts -> slice_elems h (Points ts) = [] ->
  exists t1 t2 q panel text,
    UpdateTimeSeries t i (Some p) None = Ok t1 /\
    draw_next h t1 = Ok (h, t2) /\
    histories t !! Z.to_nat i = Some q /\
    panels t !! Z.to_nat i = Some panel /\
    panels t2 = <[Z.to_nat i := SetText panel "No data available"]> (panels t) /\
    histories t2 =
      <[Z.to_nat i := mkQueryHistory (Name q) (Some p) None]> (histories t) /\
    a_updates <$> app t2 = Some [] /\
    timeRange t2 = Some (SetText tr text) /\
    footer_for text (map Timestamp (all_points h (histories t2))).
Proof.
  intros Ha Hempty Htr Hi Hpanel Hclosed Hts Hnone.
  destruct (UpdateTimeSeries_then_draw h t i (Some p) None a Ha Hempty Hi Hpanel)
    as (q & t1 & Hq & Hupd & Hdraw).
  destruct (index_in_range (panels t) i) as (panel & Hidx & Hlook); [lia|].
  cbn [updated_history] in Hdraw.
  set (q' := mkQueryHistory (Name q) (Some p) None) in *.
  set (t0 := set_histories t (store (histories t) i q')) in *.
  assert (Hq' : histories t0 !! Z.to_nat i = Some q')
    by (by apply store_lookup).
  assert (Hclosed' : heap_closed h (histories t0)).
  { apply heap_closed_store; [done|]. intros p' [= <-]. by eexists. }
  set (t0' := set_panels t0 (store (panels t0) i (SetText panel "No data available"))).
  destruct (updateTimeRange_spec h t0' tr) as (text & Hfooter & Hfoot); [done..|].
  exists t1, (set_timeRange t0' (Some (SetText tr text))), q, panel, text.
  split; [done|]. split.
  { rewrite Hdraw. unfold run_update, renderTimeSeriesGraph.
    cbn [du_err du_index].
    rewrite (index_lookup _ _ _ (proj1 Hi) Hq').
    rewrite (index_lookup (panels t0) i panel (proj1 Hi) Hlook).
    cbn [mbind result_bind TimeSeries q']. unfold deref_series. rewrite Hts.
    cbn [mbind result_bind]. rewrite Hnone.
    change (len (@nil DataPoint) =? 0) with true. cbv iota.
    cbn [mbind result_bind]. change (set_panels _ _) with t0'.
    rewrite Hfooter. done. }
  cbn -[all_points]. rewrite Ha. cbn -[all_points].
  split_and!; try done; by rewrite Hempty.
Qed.

End DrawProofs.

(** ** The key bindings *)

(** X7. Whatever key arrives, in a state navigation may start from, the input
    capture does not panic and leaves histories, footer and the number of
    panels as they are; a key it passes on, and the quit key, leave the whole
    state as it is; the quit callback is called only when one is installed. *)
Theorem keys_never_touch_data (t : TUI) (event : Key) :
  nav_start t ->
  exists o,
    inputCapture t event = Ok o /\
    histories (ko_state o) = histories t /\
    timeRange (ko_state o) = timeRange t /\
    len (panels (ko_state o)) = len (panels t) /\
    nav_start (ko_state o) /\
    (ko_passed o = true -> ko_state o = t /\ ko_quit o = false) /\
    (ko_quit o = true -> ko_state o = t /\ onQuit t = true).
Proof.
  intros Hstart.
  assert (Hnav : forall d, exists t',
             focus_step d t = Ok t' /\ histories t' = histories t /\
             timeRange t' = timeRange t /\ len (panels t') = len (panels t) /\
             nav_start t').
  { intros d. destruct (decide (0 < len (panels t))) as [Hn | Hn].
    - destruct (focus_step_parts d t Hn (Hstart Hn))
        as (t1 & t' & _ & _ & Hstep & _ & Hready' & _ & _ & _ & _ & _ & _ & _ & _ &
            Hlen & _ & Hh & Htr).
      exists t'. split_and!; try done. by intros _.
    - assert (Hzero : len (panels t) = 0) by (unfold len in *; lia).
      destruct (focus_empty t Hzero) as [Hnext Hprev].
      exists t. split_and!; try done. by destruct d. }
  destruct event; cbn [inputCapture].
  - destruct ((r =? rune_q) || (r =? rune_Q)); eexists; (split; [reflexivity|]);
      cbn; split_and!; done.
  - destruct (Hnav Next) as (t' & Hstep & ?). cbn in Hstep. rewrite Hstep.
    eexists; (split; [reflexivity|]); cbn; split_and!; intuition discriminate.
  - destruct (Hnav Next) as (t' & Hstep & ?). cbn in Hstep. rewrite Hstep.
    eexists; (split; [reflexivity|]); cbn; split_and!; intuition discriminate.
  - destruct (Hnav Prev) as (t' & Hstep & ?). cbn in Hstep. rewrite Hstep.
    eexists; (split; [reflexivity|]); cbn; split_and!; intuition discriminate.
  - destruct (Hnav Prev) as (t' & Hstep & ?). cbn in Hstep. rewrite Hstep.
    eexists; (split; [reflexivity|]); cbn; split_and!; intuition discriminate.
  - eexists; (split; [reflexivity|]); cbn; split_and!; try done.
Qed.

(** ** Configuration *)

Ltac in_list :=
  repeat first [apply list_elem_of_here | apply list_elem_of_further].

Ltac not_in_list H :=
  repeat (apply elem_of_cons in H as [H | H]; [discriminate H|]);
  by apply elem_of_nil in H.

Ltac string_cases :=
  repeat match goal with
         | |- context [String.eqb ?a ?b] => destruct (String.eqb_spec a b)
         | H : context [String.eqb ?a ?b] |- _ => destruct (String.eqb_spec a b)
         end.

Lemma validate_queries_none i queries :
  App.validate_queries i queries = None <-> Forall complete_query queries.
Proof.
  revert i. induction queries as [|query queries IH]; intros i; cbn.
  - split; [constructor | done].
  - unfold complete_query at 1. rewrite Forall_cons. rewrite <- (IH (S i)).
    unfold complete_query. string_cases; intuition congruence.
Qed.

(** X8. [Validate] reports the first incomplete query, and for that query the
    missing name before the missing expression; the number in the message is
    the position of the query in the list, counted from 0. *)
Theorem validate_queries_reports_first (queries : list Query) (err : error) :
  App.validate_queries 0 queries = Some err ->
  exists j query,
    queries !! j = Some query /\
    Forall complete_query (take j queries) /\
    ((q_Name query = "" /\ err = App.query_error j "name") \/
     (q_Name query <> "" /\ q_Expr query = "" /\ err = App.query_error j "expr")).
Proof.
  assert (Hgen : forall i,
    App.validate_queries i queries = Some err ->
    exists j query,
      queries !! j = Some query /\
      Forall complete_query (take j queries) /\
      ((q_Name query = "" /\ err = App.query_error (i + j) "name") \/
       (q_Name query <> "" /\ q_Expr query = "" /\
        err = App.query_error (i + j) "expr"))).
  { induction queries as [|query queries IH]; intros i; cbn; [done|].
    destruct (String.eqb_spec (q_Name query) "") as [Hname | Hname].
    { intros [= <-]. exists 0%nat, query. rewrite Nat.add_0_r.
      split_and!; [done | constructor | by left]. }
    destruct (String.eqb_spec (q_Expr query) "") as [Hexpr | Hexpr].
    { intros [= <-]. exists 0%nat, query. rewrite Nat.add_0_r.
      split_and!; [done | constructor | by right]. }
    intros Hrest. destruct (IH (S i) Hrest) as (j & q & Hq & Hall & Herr).
    exists (S j), q. replace (i + S j)%nat with (S i + j)%nat by lia.
    split_and!; [done | by constructor | done]. }
  intros Hrun. destruct (Hgen 0%nat Hrun) as (j & q & ?). by exists j, q.
Qed.

Lemma Validate_fst c :
  fst (App.Validate c) = App.set_Backend c (selected_name (App.cfg_Backend c)).
Proof.
  unfold App.Validate, selected_name.
  destruct c as [b p i2 i1 m qs]. cbn [App.cfg_Backend].
  destruct (String.eqb_spec b "") as [-> | Hb]; cbn;
    repeat match goal with
           | |- context [match ?x with _ => _ end] => destruct x
           end; done.
Qed.

Lemma Validate_accepts c :
  snd (App.Validate c) = None <-> valid_config c.
Proof.
  unfold App.Validate, valid_config.
  destruct c as [b [pu] [iu it io ib] [i1u i1n i1p i1d i1h] m qs].
  cbn [App.cfg_Backend App.cfg_Prometheus App.cfg_InfluxDB App.cfg_InfluxDB1
       App.cfg_Queries App.prom_URL App.influx_URL App.influx_Token App.influx_Org
       App.influx_Bucket App.influx1_URL App.influx1_Database].
  rewrite <- (validate_queries_none 0 qs).
  assert (Hq0 : forall (P : Prop) (c : App.Config), P ->
    (snd (if len qs =? 0
          then (c, Some "at least one query is required"%string)
          else (c, App.validate_queries 0 qs)) = None <->
     P /\ qs <> [] /\ App.validate_queries 0 qs = None)).
  { intros P c HP. destruct qs as [|q qs']; unfold len; cbn [length Z.of_nat Z.eqb].
    - cbn. split; [done|]. by intros (_ & ? & _).
    - cbn [snd]. split; [|by intros (_ & _ & ?)]. intros Hq. by split_and!. }
  destruct (String.eqb_spec b "") as [-> | Hb].
  - cbn [App.set_Backend App.cfg_Backend App.cfg_Prometheus App.cfg_InfluxDB
         App.cfg_InfluxDB1 App.cfg_Queries App.prom_URL App.influx_URL
         App.influx_Token App.influx_Org App.influx_Bucket App.influx1_URL
         App.influx1_Database].
    change (String.eqb "prometheus" "prometheus") with true. cbv iota.
    destruct (String.eqb_spec pu "") as [-> | Hpu]; cbn [snd].
    + split; [done|]. intros [[[_ ?] | [[? _] | [[? _] | ?]]] _]; done.
    + apply Hq0. left. split; [by left | done].
  - cbn [App.set_Backend App.cfg_Backend App.cfg_Prometheus App.cfg_InfluxDB
         App.cfg_InfluxDB1 App.cfg_Queries App.prom_URL App.influx_URL
         App.influx_Token App.influx_Org App.influx_Bucket App.influx1_URL
         App.influx1_Database].
    string_cases; subst; cbn [snd];
      try (apply Hq0; intuition congruence);
      try (split; [done|]; intros [Hbk _]; intuition congruence).
Qed.

Lemma valid_config_selected c :
  valid_config c ->
  valid_config (App.set_Backend c (selected_name (App.cfg_Backend c))) /\
  App.cfg_Backend (App.set_Backend c (selected_name (App.cfg_Backend c)))
    ∈ ["prometheus"; "influxdb"; "influxdb1"; "mock"].
Proof.
  unfold valid_config, selected_name. destruct c as [b p i2 i1 m qs]. cbn.
  intros (Hb & Hq & Hall).
  destruct (String.eqb_spec b "") as [-> | Hne]; cbn.
  - split; [|in_list]. split_and!; try done. left.
    destruct Hb as [[_ ?] | [[? _] | [[? _] | ?]]]; try done. by split; [right|].
  - split; [done|].
    destruct Hb as [[[? | ->] _] | [[-> _] | [[-> _] | ->]]]; try done; in_list.
Qed.

(** X9. [Validate] accepts a configuration exactly when it names a known backend
    (or none, meaning Prometheus) with that backend's required settings and
    lists at least one query, all with a name and an expression.  All it
    changes is an empty backend name, which becomes [prometheus]; an accepted
    configuration therefore names one of the four backends, and validating it
    again accepts it unchanged. *)
Theorem Validate_accepts_exactly_valid (c : App.Config) :
  (snd (App.Validate c) = None <-> valid_config c) /\
  fst (App.Validate c) = App.set_Backend c (selected_name (App.cfg_Backend c)) /\
  (valid_config c ->
   App.cfg_Backend (fst (App.Validate c))
     ∈ ["prometheus"; "influxdb"; "influxdb1"; "mock"] /\
   App.Validate (fst (App.Validate c)) = (fst (App.Validate c), None)).
Proof.
  split; [apply Validate_accepts|]. split; [apply Validate_fst|].
  intros Hvalid. rewrite Validate_fst.
  destruct (valid_config_selected c Hvalid) as [Hvalid' Hname].
  split; [done|].
  set (c' := App.set_Backend c _) in *.
  apply Validate_accepts in Hvalid'.
  pose proof (Validate_fst c') as Hfst.
  assert (Hsame : App.set_Backend c' (selected_name (App.cfg_Backend c')) = c').
  { unfold selected_name.
    destruct (String.eqb_spec (App.cfg_Backend c') "") as [He | _].
    - rewrite He in Hname. not_in_list Hname.
    - by destruct c'. }
  rewrite Hsame in Hfst.
  destruct (App.Validate c') as [c'' e]. cbn in *. by subst.
Qed.

Section StartupProofs.
Context `{!Externals} `{!App.Network}.
Import App.

Lemma LoadConfig_inr file cfg :
  LoadConfig file = inr cfg ->
  exists c, file = Parsed c /\ cfg = fst (Validate c) /\ valid_config c.
Proof.
  unfold LoadConfig. destruct file as [e | e | c]; try done.
  destruct (Validate c) as [c' [e|]] eqn:Hv; [done|]. intros [= <-].
  exists c. rewrite Hv. split_and!; try done.
  apply Validate_accepts. by rewrite Hv.
Qed.

Lemma loaded_valid (file : ConfigFile) (cfg : Config) :
  LoadConfig file = inr cfg ->
  valid_config cfg /\
  cfg_Backend cfg ∈ ["prometheus"; "influxdb"; "influxdb1"; "mock"].
Proof.
  intros (c & -> & -> & Hvalid)%LoadConfig_inr.
  rewrite Validate_fst. by apply valid_config_selected.
Qed.

Lemma loaded_backend_name (file : ConfigFile) (cfg : Config) (b : Backend) :
  LoadConfig file = inr cfg -> createBackend cfg = inr b ->
  BackendName b = cfg_Backend cfg.
Proof.
  intros [_ Hname]%loaded_valid [_ ->]%createBackend_backend.
  unfold selected_name.
  destruct (String.eqb_spec (cfg_Backend cfg) "") as [He|]; [|done].
  rewrite He in Hname. not_in_list Hname.
Qed.

(** X10. A configuration that [LoadConfig] returned is valid and names one of the
    four backends; [createBackend] on it either returns the backend of that
    name or fails because the Prometheus or the InfluxDB v1 client library
    refused to build a client.  The checks of required settings in the
    backend constructors, and the unsupported-backend case, cannot fire. *)
Theorem loaded_config_creates_named_backend (file : ConfigFile) (cfg : Config) :
  LoadConfig file = inr cfg ->
  valid_config cfg /\
  cfg_Backend cfg ∈ ["prometheus"; "influxdb"; "influxdb1"; "mock"] /\
  match createBackend cfg with
  | inr b => BackendName b = cfg_Backend cfg
  | inl err =>
      (cfg_Backend cfg = "prometheus" /\
       exists e, api_NewClient (prom_URL (cfg_Prometheus cfg)) = Some e /\
                 err = "failed to create Prometheus client: " +:+ e) \/
      (cfg_Backend cfg = "influxdb1" /\
       exists e, NewHTTPClient (cfg_InfluxDB1 cfg) = Some e /\
                 err = "failed to create InfluxDB v1 client: " +:+ e)
  end.
Proof.
  intros (c & -> & -> & Hvalid)%LoadConfig_inr.
  rewrite Validate_fst.
  destruct (valid_config_selected c Hvalid) as [Hvalid' Hname].
  set (c' := set_Backend c _) in *. clearbody c'. clear c Hvalid.
  split; [done|]. split; [done|].
  destruct Hvalid' as (Hb & _). unfold createBackend.
  destruct Hb as [[[He | He] Hu] | [(He & Hu & Ht & Ho & Hbk) | [(He & Hu & Hd) | He]]];
    rewrite He in *.
  - not_in_list Hname.
  - cbn. unfold prom_NewClient. destruct (api_NewClient _) as [e|] eqn:E; cbn.
    + left. split; [done|]. by exists e.
    + done.
  - cbn. unfold influxdb_NewClient.
    destruct (String.eqb_spec (influx_URL (cfg_InfluxDB c')) ""); [done|].
    destruct (String.eqb_spec (influx_Token (cfg_InfluxDB c')) ""); [done|].
    destruct (String.eqb_spec (influx_Org (cfg_InfluxDB c')) ""); [done|].
    destruct (String.eqb_spec (influx_Bucket (cfg_InfluxDB c')) ""); [done|].
    done.
  - cbn. unfold influxdb1_NewClient.
    destruct (String.eqb_spec (influx1_URL (cfg_InfluxDB1 c')) ""); [done|].
    destruct (String.eqb_spec (influx1_Database (cfg_InfluxDB1 c')) ""); [done|].
    destruct (NewHTTPClient _) as [e|] eqn:E; cbn.
    + right. split; [done|]. by exists e.
    + done.
  - by cbn.
Qed.

(** X11. [New] never panics (for a query list a Go slice can hold).  An error it
    returns comes from loading the configuration, from creating the backend,
    or from the connection probe, and says which by its prefix (the probe's
    error is passed on as it is).  An application it returns has a valid
    configuration, the backend that configuration names, a successful probe
    behind it, and a UI with one panel per query in which the first panel is
    focused and visible. *)
Theorem New_outcomes (h : Heap) (file : ConfigFile) :
  (forall c, file = Parsed c -> len (cfg_Queries c) <= bound) ->
  match New h file with
  | Panic _ => False
  | Ok (inl err) =>
      (exists e, LoadConfig file = inl e /\ err = "failed to load config: " +:+ e) \/
      (exists cfg e, LoadConfig file = inr cfg /\ createBackend cfg = inl e /\
                     err = "failed to create backend: " +:+ e) \/
      (exists cfg b, LoadConfig file = inr cfg /\ createBackend cfg = inr b /\
                     Connect b = Some err)
  | Ok (inr (h', a)) =>
      LoadConfig file = inr (config a) /\ valid_config (config a) /\
      createBackend (config a) = inr (backend a) /\
      BackendName (backend a) = cfg_Backend (config a) /\
      Connect (backend a) = None /\
      map Name (histories (ui a)) = map q_Name (cfg_Queries (config a)) /\
      length (panels (ui a)) = length (cfg_Queries (config a)) /\
      nav_ready (ui a) /\ focus_visible (ui a) /\ focusIndex (ui a) = 0
  end.
Proof.
  intros Hbound. unfold New.
  destruct (LoadConfig file) as [e | cfg] eqn:Hload.
  { left. by exists e. }
  pose proof (loaded_valid file cfg Hload) as (Hvalid & _).
  destruct (createBackend cfg) as [e | b] eqn:Hb.
  { right. left. by exists cfg, e. }
  destruct (Connect b) as [e|] eqn:Hc.
  { right. right. by exists cfg, b. }
  assert (Hlen : len (cfg_Queries cfg) <= bound).
  { apply LoadConfig_inr in Hload as (c & -> & -> & _).
    rewrite Validate_fst. destruct c; cbn. by apply (Hbound _ eq_refl). }
  pose proof (loaded_backend_name file cfg b Hload Hb) as Hcreate.
  destruct (NewTUI_names h (cfg_Queries cfg) true Hlen)
    as (h0 & t0 & Hnew & Hnames).
  destruct (NewTUI_spec h (cfg_Queries cfg) true Hlen)
    as (h0' & t0' & Hnew' & _ & _ & _ & Hpanels & Hf & Hs & Hv & _ & Hready).
  assert (t0' = t0) by congruence. subst t0'.
  unfold len in Hpanels. apply Nat2Z.inj in Hpanels.
  fold (visible_for (len (cfg_Queries cfg))) in Hv.
  rewrite Hnew. cbn.
  assert (Hn : 0 < len (cfg_Queries cfg)).
  { destruct Hvalid as (_ & Hne & _). unfold len.
    destruct (cfg_Queries cfg); [done | cbn; lia]. }
  split_and!; try done.
  - by apply Hready.
  - unfold focus_visible. rewrite Hf, Hs, Hv. unfold visible_for.
    destruct (len (cfg_Queries cfg) <=? 2) eqn:E; lia.
Qed.

End StartupProofs.

(** ** Shutdown after [Start] *)

Lemma started_inv_step a s0 s1 :
  App.exec a s0 = Some s1 -> started_inv s0 -> started_inv s1.
Proof.
  unfold started_inv. destruct s0 as [n tk tick c u wg l ini fl st cl].
  destruct a; cbn; intros Hexec (Htk & Hloop & Hstop & Hwait & Hclosed);
    repeat case_match; simplify_eq; cbn in *;
    split_and!; try done; try (by eexists);
    try (intros; by apply Hstop); try (intros; by apply Hwait);
    try (intros; by apply Hclosed);
    try (destruct Hloop as [[? ?] | (? & ? & ?)]; simplify_eq; cbn; auto; fail);
    try (intros [? | ?]; simplify_eq;
         destruct Hloop as [[? ?] | (? & ? & ?)]; simplify_eq; fail).
  all: try (destruct Hloop as [[? ?] | (? & ? & ?)]; simplify_eq;
            [right; split_and!; done | fail]).
  all: try (intros _; destruct Hstop as (? & ? & ?); done).
  all: try (intros Hc; specialize (Hclosed Hc); done).
Qed.

Lemma started_inv_run schedule s0 s :
  App.run schedule s0 = Some s -> started_inv s0 -> started_inv s.
Proof.
  revert s0. induction schedule as [|a schedule IH]; intros s0; cbn [App.run].
  - by intros [= <-].
  - destruct (App.exec a s0) as [s1|] eqn:Hexec; [|done].
    intros Hrun Hinv. apply (IH s1 Hrun). by apply (started_inv_step a s0).
Qed.

(** X12. On every schedule that begins with [Start]: the WaitGroup counter is 1
    while the update loop runs and 0 after, so [wg.Done()] never takes it
    below zero; the loop returns only after cancellation; and once
    [backend.Close()] has run, the loop has returned, the ticker is stopped,
    the context is cancelled and the UI stopped, so that the only goroutines
    that can still act are the initial refresh, if it has not run yet, and
    per-query goroutines in flight. *)
Theorem close_follows_update_loop (n : nat) (schedule : list App.action) (s : App.Orch) :
  App.run (App.ActStart :: schedule) (App.initial n) = Some s ->
  ((App.o_loop s = App.LoopSelecting /\ App.o_wg s = 1%nat) \/
   (App.o_loop s = App.LoopReturned /\ App.o_wg s = 0%nat)) /\
  (App.o_loop s = App.LoopReturned -> App.o_cancelled s = true) /\
  (App.o_closed s = true ->
   App.o_loop s = App.LoopReturned /\ App.o_ticker s = Some false /\
   App.o_cancelled s = true /\ App.o_ui_stopped s = true /\
   forall a, is_Some (App.exec a s) ->
             a = App.ActInitialUpdate \/ a = App.ActTaskReturns).
Proof.
  cbn [App.run App.exec App.initial App.o_ticker]. intros Hrun.
  apply started_inv_run in Hrun.
  2:{ unfold started_inv. cbn. split_and!; try done; try (by left).
      by intros [? | ?]. }
  destruct Hrun as (Htk & Hloop & Hstop & Hwait & Hclosed).
  split_and!.
  - destruct Hloop as [[? ?] | (? & ? & _)]; [by left | by right].
  - intros Hl. destruct Hloop as [[? _] | (_ & _ & ?)]; [congruence | done].
  - intros Hc. specialize (Hclosed Hc).
    assert (Hl : App.o_loop s = App.LoopReturned) by (apply Hwait; by right).
    destruct Hstop as (Ht & Hcan & Hui); [by rewrite Hclosed|].
    split_and!; try done.
    intros a [s' Hexec]. destruct s as [m tk tick c u wg l ini fl st cl].
    cbn in *. subst.
    destruct a; cbn in Hexec; try done; auto.
Qed.

(** ** The backend clients *)

(** *** Substrings *)

Ltac string_cons :=
  repeat match goal with
         | |- context [String ?c ?a +:+ ?b] =>
             change (String c a +:+ b) with (String c (a +:+ b))
         | H : context [String ?c ?a +:+ ?b] |- _ =>
             change (String c a +:+ b) with (String c (a +:+ b)) in H
         | |- context [EmptyString +:+ ?b] => change (EmptyString +:+ b) with b
         | H : context [EmptyString +:+ ?b] |- _ =>
             change (EmptyString +:+ b) with b in H
         end.

Lemma append_assoc (a b c : string) : (a +:+ b) +:+ c = a +:+ (b +:+ c).
Proof. induction a as [|x a IH]; [done|]. string_cons. by rewrite IH. Qed.

Lemma append_empty_r (a : string) : a +:+ EmptyString = a.
Proof. induction a as [|x a IH]; [done|]. string_cons. by rewrite IH. Qed.

Lemma prefix_app_inv (a b s : string) :
  String.prefix (a +:+ b) s = true -> String.prefix a s = true.
Proof.
  revert s. induction a as [|c a IH]; intros s; [by destruct s|].
  destruct s as [|c' s]; [done|].
  change (String c a +:+ b) with (String c (a +:+ b)). cbn.
  destruct (Ascii.ascii_dec c c'); [apply IH | done].
Qed.

Lemma prefix_inv (sub s : string) :
  String.prefix sub s = true <-> exists rest, s = sub +:+ rest.
Proof.
  revert s. induction sub as [|c sub IH]; intros s.
  - split; [by exists s | by destruct s].
  - destruct s as [|c' s]; [split; [done | by intros [? ?]]|]. cbn.
    destruct (Ascii.ascii_dec c c') as [<-|Hne].
    + rewrite IH. split; intros [rest H]; exists rest; string_cons; congruence.
    + split; [done | intros [rest H]; string_cons; congruence].
Qed.

Lemma Contains_unfold (s sub : string) :
  Contains s sub =
  String.prefix sub s ||
  match s with EmptyString => false | String _ s' => Contains s' sub end.
Proof. by destruct s. Qed.

Lemma Contains_prefix (sub s : string) :
  String.prefix sub s = true -> Contains s sub = true.
Proof. intros H. rewrite Contains_unfold, H. done. Qed.

Lemma Contains_app_r (a s sub : string) :
  Contains s sub = true -> Contains (a +:+ s) sub = true.
Proof.
  intros H. induction a as [|c a IH]; [done|].
  change (String c a +:+ s) with (String c (a +:+ s)).
  rewrite Contains_unfold, IH. apply orb_true_r.
Qed.

Lemma Contains_shorter (s a b : string) :
  Contains s (a +:+ b) = true -> Contains s a = true.
Proof.
  induction s as [|c s IH].
  - rewrite (Contains_unfold _ a), (Contains_unfold _ (a +:+ b)).
    rewrite !orb_false_r. apply prefix_app_inv.
  - rewrite (Contains_unfold (String c s) a), (Contains_unfold (String c s) (a +:+ b)).
    intros [H|H]%orb_true_iff; apply orb_true_iff.
    + left. by apply prefix_app_inv in H.
    + right. by apply IH.
Qed.

(** [Contains] is the substring test. *)
Lemma Contains_inv (s sub : string) :
  Contains s sub = true <-> exists before after, s = before +:+ sub +:+ after.
Proof.
  induction s as [|c s IH]; rewrite Contains_unfold.
  - rewrite orb_false_r, prefix_inv. split.
    + intros [rest H]. by exists EmptyString, rest.
    + intros (before & after & H). exists after.
      destruct before; string_cons; [done | discriminate].
  - rewrite orb_true_iff, prefix_inv, IH. split.
    + intros [[rest H] | (before & after & H)].
      * by exists EmptyString, rest.
      * exists (String c before), after. string_cons. by rewrite H.
    + intros (before & after & H). destruct before as [|c' before]; string_cons.
      * left. by exists after.
      * right. exists before, after. congruence.
Qed.

(** X13. [getDefaultMeasurement] answers with the first keyword, in the
    order cpu, mem, disk, net, that occurs in the expression, and with
    "metrics" when none does.  The test for "memory" changes nothing: an
    expression that contains "memory" contains "mem". *)
Theorem default_measurement_first_keyword (expr : string) :
  let has := Contains expr in
  let m := InfluxDB1.getDefaultMeasurement expr in
  (has "memory" = true -> has "mem" = true) /\
  (m = "cpu" <-> has "cpu" = true) /\
  (m = "mem" <-> has "cpu" = false /\ has "mem" = true) /\
  (m = "disk" <-> has "cpu" = false /\ has "mem" = false /\ has "disk" = true) /\
  (m = "net" <->
   has "cpu" = false /\ has "mem" = false /\ has "disk" = false /\ has "net" = true) /\
  (m = "metrics" <->
   has "cpu" = false /\ has "mem" = false /\ has "disk" = false /\ has "net" = false).
Proof.
  intros has m.
  assert (Hmem : has "memory" = true -> has "mem" = true).
  { apply (Contains_shorter expr "mem" "ory"). }
  split; [done|]. subst m. unfold InfluxDB1.getDefaultMeasurement.
  fold has. 
  destruct (has "cpu"), (has "memory") eqn:Ememory, (has "mem"), (has "disk"),
    (has "net"); cbn;
    try (specialize (Hmem eq_refl); discriminate);
    split_and!; split; (try done); (try by intros (? & ?)); 
    try (by intros (? & ? & ?)); try (by intros (? & ? & ? & ?)).
Qed.

(** *** The series a query returns *)

Lemma series_of_returns (h : Heap) (points : list DataPoint) :
  returns_series h (series_of h points).1 (series_of h points).2 points.
Proof.
  unfold series_of, slice_literal, new_series, returns_series. cbn.
  split_and!.
  - apply fresh_series_none.
  - eexists. split; [apply lookup_insert_eq|]. cbn.
    rewrite lookup_insert_eq. cbn. apply firstn_all.
  - intros l ts Hl. rewrite lookup_insert_ne; [done|].
    intros <-. by rewrite fresh_series_none in Hl.
  - intros l arr Hl. rewrite lookup_insert_ne; [done|].
    intros <-. apply (is_fresh (dom (h_arrays h))), elem_of_dom. by eexists.
Qed.

Lemma series_of_inr (h : Heap) (points : list DataPoint) :
  (let '(h', p) := series_of h points in (h', @inr error loc p)) =
  ((series_of h points).1, inr (series_of h points).2).
Proof. by destruct (series_of h points). Qed.

(** A loop that appends at most one element per turn is a filter-map. *)
Lemma foldl_append_omap {A B} (step : list B -> A -> list B) (f : A -> option B) :
  (forall acc x, step acc x = acc ++ option_list (f x)) ->
  forall l acc, foldl step acc l = acc ++ omap f l.
Proof.
  intros Hstep l. induction l as [|x l IH]; intros acc; cbn.
  - by rewrite app_nil_r.
  - rewrite IH, Hstep. destruct (f x); cbn; by rewrite <- ?app_assoc, ?app_nil_r.
Qed.

Lemma omap_length_le {A B} (f : A -> option B) (l : list A) :
  (length (omap f l) <= length l)%nat.
Proof. induction l as [|x l IH]; cbn; [lia|]. destruct (f x); cbn; lia. Qed.

Section InfluxDB1Proofs.
Context `{!Conversions}.
Variable client_Query : InfluxDB1.Query -> error + InfluxDB1.Response.

Lemma add_row_point (points : list DataPoint) (row : list Value_) :
  InfluxDB1.add_row points row = points ++ option_list (row_point row).
Proof.
  unfold InfluxDB1.add_row, row_point.
  destruct row as [|stamp [|cell row]].
  - cbn. by rewrite app_nil_r.
  - cbn. destruct stamp; by rewrite app_nil_r.
  - assert ((len (stamp :: cell :: row) <? 2) = false) as ->.
    { apply Z.ltb_ge. unfold len. cbn [length]. lia. }
    cbn [lookup list_lookup].
    destruct stamp; try by rewrite app_nil_r.
    destruct cell, (Parse_RFC3339 s); cbn; repeat case_match;
      simplify_eq; cbn; by rewrite ?app_nil_r.
Qed.

Lemma influxdb1_points (rows : list (list Value_)) :
  foldl InfluxDB1.add_row [] rows = omap row_point rows.
Proof. apply (foldl_append_omap _ _ add_row_point rows []). Qed.

(** X14. When the server answers without an error, the InfluxDB v1 query
    succeeds and returns a new series; its points are, in the order of the
    rows, those of the rows of the first series of the first result that have
    a time and a value (zero for a null value), so at most one per row.
    Whatever was in the heap is unchanged. *)
Theorem influxdb1_query_returns_row_points (database : string) (h : Heap)
    (expr : string) (response : InfluxDB1.Response) :
  client_Query (InfluxDB1.mkQuery (InfluxDB1.queryStr expr) database) = inr response ->
  InfluxDB1.Error_ response = None ->
  exists h' p,
    InfluxDB1.QueryTimeSeries client_Query database h expr = (h', inr p) /\
    returns_series h h' p (omap row_point (first_rows response)) /\
    (length (omap row_point (first_rows response)) <= length (first_rows response))%nat.
Proof.
  intros Hq Herr.
  exists (series_of h (omap row_point (first_rows response))).1,
         (series_of h (omap row_point (first_rows response))).2.
  split_and!; [|apply series_of_returns|apply omap_length_le].
  unfold InfluxDB1.QueryTimeSeries. rewrite Hq, Herr.
  unfold first_rows.
  destruct (InfluxDB1.Results response) as [|result ?]; [apply series_of_inr|].
  destruct (InfluxDB1.Series_ result) as [|series ?]; [apply series_of_inr|].
  destruct (len (InfluxDB1.Values series) =? 0) eqn:E.
  - apply Z.eqb_eq in E. unfold len in E.
    destruct (InfluxDB1.Values series); [apply series_of_inr | cbn in E; lia].
  - rewrite influxdb1_points. apply series_of_inr.
Qed.

(** X15. An error of the InfluxDB v1 query comes from the server only: the
    client call failed, or the response carries an error, and the message
    says which.  No row, whatever it holds, makes the query fail, and a
    failed query leaves the heap as it was. *)
Theorem influxdb1_error_only_from_server (database : string) (h : Heap)
    (expr : string) (h' : Heap) (msg : error) :
  InfluxDB1.QueryTimeSeries client_Query database h expr = (h', inl msg) ->
  let reply := client_Query (InfluxDB1.mkQuery (InfluxDB1.queryStr expr) database) in
  h' = h /\
  ((exists err, reply = inl err /\ msg = "query failed: " +:+ err) \/
   (exists response err,
      reply = inr response /\ InfluxDB1.Error_ response = Some err /\
      msg = "InfluxDB v1 query error: " +:+ err)).
Proof.
  intros Hout reply. subst reply. unfold InfluxDB1.QueryTimeSeries in Hout.
  destruct (client_Query _) as [err|response]; [simplify_eq; split; eauto|].
  destruct (InfluxDB1.Error_ response) as [err|] eqn:Herr.
  { simplify_eq. split; [done|]. right. eauto. }
  exfalso.
  destruct (InfluxDB1.Results response) as [|result ?];
    [rewrite series_of_inr in Hout; simplify_eq|].
  destruct (InfluxDB1.Series_ result) as [|series ?];
    [rewrite series_of_inr in Hout; simplify_eq|].
  destruct (len (InfluxDB1.Values series) =? 0);
    rewrite series_of_inr in Hout; simplify_eq.
Qed.

End InfluxDB1Proofs.

Section InfluxDBProofs.
Context `{!Conversions}.
Variable queryAPI_Query : string -> error + InfluxDB.QueryResult.

Lemma add_record_point (points : list DataPoint) (record : InfluxDB.Record_) :
  InfluxDB.add_record points record = points ++ option_list (record_point record).
Proof.
  unfold InfluxDB.add_record, record_point.
  destruct (InfluxDB.rec_Value record); cbn; repeat case_match;
    simplify_eq; cbn; by rewrite ?app_nil_r.
Qed.

(** X16. The Flux text sent to the server always names a bucket and always
    contains the expression of the query: an expression with a bucket is
    sent as it is, any other becomes the filter of a query on the configured
    bucket.  Building the text from a built text changes nothing. *)
Theorem flux_query_names_bucket (bucket expr : string) :
  let query := InfluxDB.build_query bucket expr in
  Contains query "from(bucket:" = true /\
  Contains query expr = true /\
  (Contains expr "from(bucket:" = true -> query = expr) /\
  (Contains expr "from(bucket:" = false ->
   Contains query ("from(bucket: " +:+ dquote +:+ bucket +:+ dquote +:+ ")") = true) /\
  InfluxDB.build_query bucket query = query.
Proof.
  intros query. subst query.
  assert (Hself : forall s, Contains s s = true).
  { intros s. apply Contains_prefix, prefix_inv. exists EmptyString.
    by rewrite append_empty_r. }
  assert (Hwrap : Contains (InfluxDB.wrap_filter bucket expr) "from(bucket:" = true).
  { unfold InfluxDB.wrap_filter. apply Contains_app_r, Contains_prefix.
    apply prefix_inv. by eexists. }
  unfold InfluxDB.build_query.
  destruct (Contains expr "from(bucket:") eqn:E; cbn [negb].
  - rewrite E. cbn [negb]. split_and!; [done | apply Hself | done | done | done].
  - rewrite Hwrap. cbn [negb]. split_and!; [done | | done | | done].
    + unfold InfluxDB.wrap_filter. do 10 apply Contains_app_r.
      apply Contains_prefix, prefix_inv. by eexists.
    + intros _. unfold InfluxDB.wrap_filter. apply Contains_app_r, Contains_prefix.
      apply prefix_inv. eexists. rewrite !append_assoc. reflexivity.
Qed.

Lemma influxdb_points (records : list InfluxDB.Record_) :
  foldl InfluxDB.add_record [] records = omap record_point records.
Proof. apply (foldl_append_omap _ _ add_record_point records []). Qed.

(** X17. When the Flux query is accepted and the result is read to its end
    without an error, the query returns a new series holding, in the order
    of the records, one point for every record whose value is a float, an
    integer or a string that parses as a float; records with a nil or any
    other value are left out.  Whatever was in the heap is unchanged. *)
Theorem influxdb_query_returns_record_points (bucket : string) (h : Heap)
    (expr : string) (result : InfluxDB.QueryResult) :
  queryAPI_Query (InfluxDB.build_query bucket expr) = inr result ->
  InfluxDB.Err result = None ->
  exists h' p,
    InfluxDB.QueryTimeSeries queryAPI_Query bucket h expr = (h', inr p) /\
    returns_series h h' p (omap record_point (InfluxDB.records result)) /\
    (forall point, point ∈ omap record_point (InfluxDB.records result) ->
       exists record,
         record ∈ InfluxDB.records result /\
         InfluxDB.rec_Value record <> VNil /\
         Timestamp point = InfluxDB.rec_Time record).
Proof.
  intros Hq Herr.
  exists (series_of h (omap record_point (InfluxDB.records result))).1,
         (series_of h (omap record_point (InfluxDB.records result))).2.
  split_and!; [|apply series_of_returns|].
  - unfold InfluxDB.QueryTimeSeries. rewrite Hq, Herr, influxdb_points.
    apply series_of_inr.
  - intros point (record & Hin & Hpoint)%list_elem_of_omap.
    exists record. unfold record_point in Hpoint.
    destruct (InfluxDB.rec_Value record) eqn:Hv; cbn in Hpoint;
      repeat case_match; cbn in Hpoint; simplify_eq; done.
Qed.

(** X18. An error of the Flux query leaves the heap as it was, and comes
    either from the query call or from reading the result; in the second
    case the points converted before the error are dropped with it. *)
Theorem influxdb_read_error_discards_points (bucket : string) (h : Heap)
    (expr : string) (h' : Heap) (msg : error) :
  InfluxDB.QueryTimeSeries queryAPI_Query bucket h expr = (h', inl msg) ->
  let reply := queryAPI_Query (InfluxDB.build_query bucket expr) in
  h' = h /\
  ((exists err, reply = inl err /\ msg = "query failed: " +:+ err) \/
   (exists result err,
      reply = inr result /\ InfluxDB.Err result = Some err /\
      msg = "error reading query result: " +:+ err)).
Proof.
  intros Hout reply. subst reply. unfold InfluxDB.QueryTimeSeries in Hout.
  destruct (queryAPI_Query _) as [err|result]; [simplify_eq; split; eauto|].
  destruct (InfluxDB.Err result) as [err|] eqn:Herr.
  - simplify_eq. split; [done|]. right. eauto.
  - rewrite series_of_inr in Hout. simplify_eq.
Qed.

(** X19. Every value the Flux client converts, the InfluxDB v1 client
    converts to the same number. *)
Theorem flux_values_convert_in_v1 (value : Value_) (f : float) :
  InfluxDB.record_value value = Some f ->
  InfluxDB1.convertToFloat64 value = inr f.
Proof.
  destruct value; cbn; try done; try congruence.
  destruct (ParseFloat s); congruence.
Qed.

End InfluxDBProofs.

Section PromProofs.
Variable api_QueryRange : string -> Prom.Range -> error + Prom.QueryValue.
Variable now : Time.
Variable Time_of_ms : Z -> Time.

Lemma add_samples_map (points : list DataPoint) (samples : list Prom.SamplePair) :
  Prom.add_samples Time_of_ms points samples =
  points ++ map (fun sample => mkDataPoint (Time_of_ms (Prom.sp_Timestamp sample))
                                           (Prom.sp_Value sample)) samples.
Proof.
  unfold Prom.add_samples. revert points.
  induction samples as [|sample samples IH]; intros points; cbn.
  - by rewrite app_nil_r.
  - by rewrite IH, <- app_assoc.
Qed.

Lemma prom_points (matrix : list Prom.SampleStream) (points : list DataPoint) :
  foldl (fun points sampleStream =>
           Prom.add_samples Time_of_ms points (Prom.ss_Values sampleStream))
        points matrix =
  points ++ matrix_points Time_of_ms matrix.
Proof.
  unfold matrix_points. revert points.
  induction matrix as [|stream matrix IH]; intros points; cbn.
  - by rewrite app_nil_r.
  - by rewrite IH, add_samples_map, <- app_assoc.
Qed.

(** X20. The Prometheus client asks for the five minutes up to now in steps
    of one minute; when the answer is a matrix the query returns a new series
    holding the samples of all its streams, stream after stream and in the
    order of each stream, so as many points as the streams have samples.
    Whatever was in the heap is unchanged. *)
Theorem prom_query_returns_matrix_points (h : Heap) (expr : string)
    (matrix : list Prom.SampleStream) :
  api_QueryRange expr (Prom.mkRange (now - 5 * Minute) now Minute) =
    inr (Prom.ValMatrix matrix) ->
  exists h' p,
    Prom.QueryTimeSeries api_QueryRange now Time_of_ms h expr = (h', inr p) /\
    returns_series h h' p (matrix_points Time_of_ms matrix) /\
    length (matrix_points Time_of_ms matrix) =
    sum_list (map (fun stream => length (Prom.ss_Values stream)) matrix).
Proof.
  intros Hq.
  exists (series_of h (matrix_points Time_of_ms matrix)).1,
         (series_of h (matrix_points Time_of_ms matrix)).2.
  split_and!; [|apply series_of_returns|].
  - unfold Prom.QueryTimeSeries.
    replace (now + -5 * Minute) with (now - 5 * Minute) by lia.
    rewrite Hq, prom_points. apply series_of_inr.
  - unfold matrix_points. clear.
    induction matrix as [|stream matrix IH]; cbn; [done|].
    by rewrite length_app, length_map, IH.
Qed.

(** X21. An error of the Prometheus query leaves the heap as it was, and
    comes either from the range query call or from an answer that is not a
    matrix, whose type the message names. *)
Theorem prom_rejects_other_result_types (h : Heap) (expr : string) (h' : Heap)
    (msg : error) :
  Prom.QueryTimeSeries api_QueryRange now Time_of_ms h expr = (h', inl msg) ->
  let reply := api_QueryRange expr (Prom.mkRange (now - 5 * Minute) now Minute) in
  h' = h /\
  ((exists err, reply = inl err /\ msg = "query failed: " +:+ err) \/
   (exists type_name,
      reply = inr (Prom.ValOther type_name) /\
      msg = "unsupported result type for range query: " +:+ type_name)).
Proof.
  intros Hout reply. subst reply. unfold Prom.QueryTimeSeries in Hout.
  replace (now + -5 * Minute) with (now - 5 * Minute) in Hout by lia.
  destruct (api_QueryRange _ _) as [err|[matrix|type_name]].
  - simplify_eq. split; eauto.
  - rewrite series_of_inr in Hout. simplify_eq.
  - simplify_eq. split; eauto.
Qed.

End PromProofs.

Section MockProofs.
Context `{!Mock.RandLib}.
Variable now : Time.

Lemma generate_unfold k expr points r :
  Mock.generate now k expr points r =
  let '(value, r') := Mock.baseValue expr r in
  let points' := points ++ [mkDataPoint (now + - Z.of_nat k * Minute) value] in
  match k with
  | O => (points', r')
  | S k' => Mock.generate now k' expr points' r'
  end.
Proof. by destruct k. Qed.

Lemma generate_stamps k expr points r :
  exists new r',
    Mock.generate now k expr points r = (points ++ new, r') /\
    map Timestamp new =
    map (fun i => now - Z.of_nat i * Minute) (rev (seq 0 (S k))).
Proof.
  revert points r. induction k as [|k IH]; intros points r;
    rewrite generate_unfold; destruct (Mock.baseValue expr r) as [value r1];
    cbv beta iota zeta.
  - eexists [_], r1. split; [done|]. cbn. f_equal; lia.
  - destruct (IH (points ++ [mkDataPoint (now + - Z.of_nat (S k) * Minute) value]) r1)
      as (new & r' & Hgen & Hstamps).
    exists (mkDataPoint (now + - Z.of_nat (S k) * Minute) value :: new), r'.
    split.
    + rewrite Hgen. by rewrite <- app_assoc.
    + rewrite (seq_S (S k)), rev_app_distr. cbn [rev app map Timestamp plus].
      rewrite Hstamps. f_equal; lia.
Qed.

(** X22. The mock query never fails.  It returns a new series of five
    points, one for each of the last five minutes: four minutes ago first,
    now last.  The configuration of the client is kept, and whatever was in
    the heap is unchanged. *)
Theorem mock_query_last_five_minutes (c : Mock.Client) (h : Heap) (expr : string) :
  exists c' h' p points,
    Mock.QueryTimeSeries now c h expr = (c', h', inr p) /\
    returns_series h h' p points /\
    map Timestamp points =
      [now - 4 * Minute; now - 3 * Minute; now - 2 * Minute; now - Minute; now] /\
    Mock.seed c' = Mock.seed c.
Proof.
  unfold Mock.QueryTimeSeries.
  destruct (Mock.Intn (Mock.rand c) 50) as [delay r0].
  destruct (generate_stamps 4 expr [] r0) as (new & r' & Hgen & Hstamps).
  rewrite Hgen. change ([] ++ new) with new. cbv beta iota zeta.
  exists (Mock.mkClient (Mock.seed c) r'), (series_of h new).1, (series_of h new).2, new.
  split_and!; [by destruct (series_of h new) | apply series_of_returns | | done].
  rewrite Hstamps. cbn. repeat f_equal; lia.
Qed.

End MockProofs.

(** ** The refresh goroutines of [updateMetrics] *)

Lemma refresh_task_unfold t idx outcome :
  refresh_task t idx outcome =
  UpdateTimeSeries t idx (outcome_series outcome) (outcome_error outcome).
Proof. by destruct outcome. Qed.

Lemma refresh_task_spec (t : TUI) (idx : Z) (outcome : error + loc) :
  exists t',
    refresh_task t idx outcome = Ok t' /\
    histories t' = refreshed (histories t) idx outcome /\
    panels t' = panels t /\ timeRange t' = timeRange t /\
    scrollView t' = scrollView t /\ focusIndex t' = focusIndex t /\
    scrollOffset t' = scrollOffset t /\ visiblePanels t' = visiblePanels t /\
    (is_Some (app t') <-> is_Some (app t)) /\
    queued t' =
    queued t ++ (if queues t idx then [mkDrawUpdate idx (outcome_error outcome)]
                 else []).
Proof.
  rewrite refresh_task_unfold. unfold refreshed, queues.
  destruct ((idx <? 0) || (len (histories t) <=? idx)) eqn:E.
  - exists t. split_and!; try done.
    + apply UpdateTimeSeries_out_of_range.
      apply orb_true_iff in E as [E|E]; lia.
    + cbn. by rewrite app_nil_r.
  - apply orb_false_iff in E as [E1 E2].
    assert (Hi : 0 <= idx < len (histories t)) by lia.
    destruct (UpdateTimeSeries_in_range t idx (outcome_series outcome)
                (outcome_error outcome) Hi) as (q & Hq & ->).
    eexists. split; [done|]. rewrite Hq.
    destruct (enqueue_fields
                (set_histories t
                   (store (histories t) idx
                      (updated_history q (outcome_series outcome)
                         (outcome_error outcome))))
                idx (outcome_error outcome))
      as (-> & -> & -> & -> & -> & -> & ->).
    split_and!; try done.
    + unfold enqueue. cbn. destruct (app t) as [a|] eqn:Ha.
      * destruct (idx <? len (panels t)); cbn; rewrite ?Ha; by split.
      * cbn. by rewrite Ha.
    + unfold enqueue, queued. cbn. destruct (app t) as [a|] eqn:Ha.
      * destruct (idx <? len (panels t)); cbn; rewrite ?Ha; [done|].
        by rewrite app_nil_r.
      * cbn. by rewrite Ha.
Qed.

Lemma queues_after_refresh (t t' : TUI) (k : Z) :
  length (histories t') = length (histories t) ->
  panels t' = panels t -> (is_Some (app t') <-> is_Some (app t)) ->
  queues t' k = queues t k.
Proof.
  intros Hlen Hp Happ. unfold queues, len. rewrite Hlen, Hp.
  destruct (app t') as [a'|], (app t) as [a|]; try done.
  - destruct Happ as [Happ _]. by destruct Happ.
  - destruct Happ as [_ Happ]. by destruct Happ.
Qed.

Lemma refreshed_length hs idx outcome : length (refreshed hs idx outcome) = length hs.
Proof.
  unfold refreshed. repeat case_match; try done. apply length_insert.
Qed.

Lemma refreshed_len hs idx outcome : len (refreshed hs idx outcome) = len hs.
Proof. unfold len. by rewrite refreshed_length. Qed.

Lemma refreshed_out hs idx outcome :
  (idx <? 0) || (len hs <=? idx) = true -> refreshed hs idx outcome = hs.
Proof. intros E. unfold refreshed. by rewrite E. Qed.

Lemma refreshed_in hs idx outcome :
  (idx <? 0) || (len hs <=? idx) = false ->
  exists q,
    hs !! Z.to_nat idx = Some q /\
    refreshed hs idx outcome =
    <[Z.to_nat idx :=
        updated_history q (outcome_series outcome) (outcome_error outcome)]> hs.
Proof.
  intros E. unfold refreshed. rewrite E.
  apply orb_false_iff in E as [E1 E2].
  destruct (lookup_lt_is_Some_2 hs (Z.to_nat idx)) as [q Hq].
  { unfold len in E2. lia. }
  exists q. by rewrite Hq.
Qed.

Lemma refreshed_commute hs i j oi oj :
  i <> j ->
  refreshed (refreshed hs i oi) j oj = refreshed (refreshed hs j oj) i oi.
Proof.
  intros Hne.
  destruct ((j <? 0) || (len hs <=? j)) eqn:Ej.
  { rewrite (refreshed_out hs j), (refreshed_out (refreshed hs i oi) j); [done| |done].
    by rewrite refreshed_len. }
  destruct ((i <? 0) || (len hs <=? i)) eqn:Ei.
  { rewrite (refreshed_out hs i), (refreshed_out (refreshed hs j oj) i); [done| |done].
    by rewrite refreshed_len. }
  destruct (refreshed_in hs i oi Ei) as (qi & Hqi & Hi).
  destruct (refreshed_in hs j oj Ej) as (qj & Hqj & Hj).
  assert (Hnat : Z.to_nat i <> Z.to_nat j).
  { apply orb_false_iff in Ej as [Ej1 Ej2]. apply orb_false_iff in Ei as [Ei1 Ei2]. lia. }
  destruct (refreshed_in (refreshed hs i oi) j oj) as (qj' & Hqj' & ->).
  { by rewrite refreshed_len. }
  destruct (refreshed_in (refreshed hs j oj) i oi) as (qi' & Hqi' & ->).
  { by rewrite refreshed_len. }
  rewrite Hi in Hqj' |- *. rewrite Hj in Hqi' |- *.
  rewrite list_lookup_insert_ne in Hqj' by done.
  rewrite list_lookup_insert_ne in Hqi' by done.
  simplify_eq. by apply list_insert_insert_ne.
Qed.

(** X23. A refresh goroutine never panics, whatever index it was started
    with, and never stores a nil series: when every panel holds a series
    before the backend answers, every panel holds one afterwards.  It writes
    only the cell of its query (the error beside the kept series, or the new
    series with the error cleared) and queues at most one redraw, for that
    query. *)
Theorem refresh_never_stores_nil (t : TUI) (idx : Z) (outcome : error + loc) :
  series_non_nil t ->
  exists t',
    refresh_task t idx outcome = Ok t' /\
    series_non_nil t' /\
    histories t' = refreshed (histories t) idx outcome /\
    length (histories t') = length (histories t) /\
    (forall j q, j <> Z.to_nat idx -> histories t !! j = Some q ->
                 histories t' !! j = Some q) /\
    (forall q, 0 <= idx -> histories t !! Z.to_nat idx = Some q ->
       histories t' !! Z.to_nat idx =
       Some match outcome with
            | inl err => mkQueryHistory (Name q) (TimeSeries q) (Some err)
            | inr series => mkQueryHistory (Name q) (Some series) None
            end) /\
    panels t' = panels t /\
    exists new, queued t' = queued t ++ new /\
                (new = [] \/ new = [mkDrawUpdate idx (outcome_error outcome)]).
Proof.
  intros Hall.
  destruct (refresh_task_spec t idx outcome)
    as (t' & Hrun & Hhs & Hpanels & _ & _ & _ & _ & _ & _ & Hqueue).
  assert (Hnew : exists new,
             queued t' = queued t ++ new /\
             (new = [] \/ new = [mkDrawUpdate idx (outcome_error outcome)])).
  { eexists. split; [exact Hqueue|]. destruct (queues t idx); eauto. }
  clear Hqueue.
  exists t'. split_and!; try done.
  - unfold series_non_nil in *. rewrite Hhs. unfold refreshed.
    repeat case_match; try done.
    apply Forall_insert; [done|].
    destruct outcome; cbn; [|done].
    rewrite Forall_lookup in Hall. eapply (Hall _ _); eassumption.
  - rewrite Hhs. apply refreshed_length.
  - intros j q Hj Hq. rewrite Hhs. unfold refreshed.
    repeat case_match; try done. by rewrite list_lookup_insert_ne.
  - intros q H0 Hq. rewrite Hhs.
    pose proof (lookup_lt_Some _ _ _ Hq) as Hlt.
    destruct (refreshed_in (histories t) idx outcome) as (q' & Hq' & ->).
    { apply orb_false_iff. unfold len.
      split; [apply Z.ltb_ge | apply Z.leb_gt]; lia. }
    simplify_eq. rewrite list_lookup_insert_eq by lia. by destruct outcome.
Qed.

(** X24. The refresh goroutines of two different queries may finish in
    either order: both orders end, without a panic, in states with the same
    histories, the same panels and the same view; only the order of the two
    queued redraws differs. *)
Theorem refreshes_of_different_queries_commute (t : TUI) (i j : Z)
    (oi oj : error + loc) :
  i <> j ->
  exists ta tb,
    (t1 ← refresh_task t i oi; refresh_task t1 j oj) = Ok ta /\
    (t1 ← refresh_task t j oj; refresh_task t1 i oi) = Ok tb /\
    histories ta = histories tb /\
    panels ta = panels tb /\ timeRange ta = timeRange tb /\
    scrollView ta = scrollView tb /\ focusIndex ta = focusIndex tb /\
    scrollOffset ta = scrollOffset tb /\ visiblePanels ta = visiblePanels tb /\
    queued ta ≡ₚ queued tb.
Proof.
  intros Hne.
  destruct (refresh_task_spec t i oi)
    as (t1 & Hrun1 & Hhs1 & Hp1 & Htr1 & Hsv1 & Hf1 & Hso1 & Hv1 & Happ1 & Hqueue1).
  destruct (refresh_task_spec t1 j oj)
    as (ta & Hruna & Hhsa & Hpa & Htra & Hsva & Hfa & Hsoa & Hva & Happa & Hqueuea).
  destruct (refresh_task_spec t j oj)
    as (t2 & Hrun2 & Hhs2 & Hp2 & Htr2 & Hsv2 & Hf2 & Hso2 & Hv2 & Happ2 & Hqueue2).
  destruct (refresh_task_spec t2 i oi)
    as (tb & Hrunb & Hhsb & Hpb & Htrb & Hsvb & Hfb & Hsob & Hvb & Happb & Hqueueb).
  exists ta, tb. rewrite Hrun1, Hrun2. cbn [mbind result_bind].
  split_and!; try congruence.
  - rewrite Hhsa, Hhsb, Hhs1, Hhs2. by apply refreshed_commute.
  - rewrite Hqueuea, Hqueueb, Hqueue1, Hqueue2.
    rewrite (queues_after_refresh t t1 j), (queues_after_refresh t t2 i);
      try done; try (by rewrite ?Hhs1, ?Hhs2, refreshed_length).
    rewrite <- !app_assoc. apply Permutation_app_head, Permutation_app_comm.
Qed.

(** ** Closed instances *)

Lemma StronglySorted_weaken {A} (R1 R2 : relation A) (l : list A) :
  (forall a b, R1 a b -> R2 a b) -> StronglySorted R1 l -> StronglySorted R2 l.
Proof.
  intros HR. induction 1 as [|x l Hl IH Hx]; constructor; [done|].
  eapply Forall_impl; [exact Hx|]. intros y. apply HR.
Defined.

Lemma ascending_by_time (a b : DataPoint) :
  ascending less_by_time a b <-> Timestamp a <= Timestamp b.
Proof.
  unfold ascending, less_by_time, Before.
  destruct (Z.ltb_spec (Timestamp b) (Timestamp a)); cbn; split; try done; lia.
Defined.

Lemma sorting_externals_sorts : sorts_by_time (H:=sorting_externals).
Proof.
  intros l. change (sort_Slice (Externals:=sorting_externals) less_by_time l)
              with (merge_sort (ascending less_by_time) l).
  apply (StronglySorted_weaken (ascending less_by_time)).
  { intros a b. apply ascending_by_time. }
  apply StronglySorted_merge_sort.
  - intros a b c. rewrite !ascending_by_time. lia.
  - intros a b. rewrite !ascending_by_time. lia.
Defined.

Lemma example_heap_with_empty_closed :
  heap_closed example_heap_with_empty (histories example_two_panels).
Proof.
  repeat constructor; intros p [= <-]; by eexists.
Defined.

Lemma example_two_panels_non_nil : series_non_nil example_two_panels.
Proof. repeat constructor; by eexists. Defined.

Lemma focus_change_shows_window_witness :
  exists t',
    focus_step Next example_four_panels = Ok t' /\
    scrollView t' = Some (window_items t') /\
    length (window_items t') = 3%nat /\
    mkFlexItem (focusIndex t') 0 1 true ∈ window_items t'.
Proof.
  destruct (focus_change_shows_window Next example_four_panels)
    as (t' & Hstep & Hview & Hlen & Hfocus & _).
  - vm_compute. reflexivity.
  - exact example_four_panels_ready.
  - exists t'. split_and!; [exact Hstep | exact Hview | exact Hlen | exact Hfocus].
Defined.

Lemma focus_change_marks_focused_panel_witness :
  exists t',
    focus_step Prev example_four_panels = Ok t' /\
    a_focus <$> app t' = Some (Some (focusIndex t')) /\
    histories t' = histories example_four_panels.
Proof.
  destruct (focus_change_marks_focused_panel Prev example_four_panels)
    as (t' & Hstep & Hfocus & _ & _ & Hhs & _).
  - vm_compute. reflexivity.
  - exact example_four_panels_ready.
  - exists t'. split_and!; [exact Hstep | exact Hfocus | exact Hhs].
Defined.

Lemma NewTUI_initial_state_witness :
  exists h0 t0,
    NewTUI empty_heap example_queries true = Ok (h0, t0) /\
    map Name (histories t0) = ["cpu"; "mem"; "disk"; "net"] /\
    heap_closed h0 (histories t0) /\
    visiblePanels t0 = 3.
Proof.
  destruct (NewTUI_initial_state empty_heap example_queries true)
    as (h0 & t0 & Hnew & Hnames & _ & _ & Hclosed & _ & _ & _ & _ & Hvisible & _).
  - unfold len, bound. cbn. lia.
  - exists h0, t0. split_and!; [exact Hnew | exact Hnames | exact Hclosed | exact Hvisible].
Defined.

Lemma render_shows_latest_and_span_witness :
  exists h' t' latest oldest,
    renderTimeSeriesGraph (H:=sorting_externals) example_heap example_two_panels 0 =
      Ok (h', t') /\
    latest ∈ [mkDataPoint 10 1%float; mkDataPoint 20 2%float] /\
    oldest ∈ [mkDataPoint 10 1%float; mkDataPoint 20 2%float] /\
    (forall x, x ∈ [mkDataPoint 10 1%float; mkDataPoint 20 2%float] ->
               Timestamp oldest <= Timestamp x <= Timestamp latest) /\
    histories t' = histories example_two_panels.
Proof.
  destruct (render_shows_latest_and_span (H:=sorting_externals) example_heap
              example_two_panels 0 (mkQueryHistory "cpu" (Some 1%positive) None)
              (new_panel (mkQuery "cpu" "up")) 1%positive
              (mkTimeSeriesResult (mkSlice 1%positive 0%nat 2%nat)))
    as (h' & t' & latest & oldest & values & width & height & Hrender & _ & Hlatest
        & Holdest & Hspan & _ & _ & _ & Hhs & _).
  - exact sorting_externals_sorts.
  - lia.
  - reflexivity.
  - reflexivity.
  - reflexivity.
  - split_and!; [reflexivity | by eexists | unfold bound; cbn; lia].
  - discriminate.
  - exists h', t', latest, oldest.
    split_and!; [exact Hrender | exact Hlatest | exact Holdest | exact Hspan | exact Hhs].
Defined.

Lemma error_update_then_draw_shows_error_witness :
  exists t1 t2,
    UpdateTimeSeries example_two_panels 1 None (Some "timeout") = Ok t1 /\
    draw_next (H:=example_externals) example_heap t1 = Ok (example_heap, t2) /\
    panels t2 =
      <[1%nat := SetText (new_panel (mkQuery "mem" "free")) (error_text "timeout")]>
        (panels example_two_panels) /\
    a_updates <$> app t2 = Some [].
Proof.
  destruct (error_update_then_draw_shows_error (H:=example_externals) example_heap
              example_two_panels 1 None "timeout" NewApplication NewTextView)
    as (t1 & t2 & q & panel & text & Hupd & Hdraw & _ & Hpanel & Hpanels & _ & _
        & Hqueue & _).
  - reflexivity.
  - reflexivity.
  - reflexivity.
  - unfold len. cbn. lia.
  - unfold len. cbn. lia.
  - exact example_heap_closed.
  - exists t1, t2. split_and!; [exact Hupd | exact Hdraw | | exact Hqueue].
    rewrite Hpanels. injection Hpanel as <-. reflexivity.
Defined.

Lemma empty_series_draws_placeholder_witness :
  exists t1 t2,
    UpdateTimeSeries example_two_panels 0 (Some 3%positive) None = Ok t1 /\
    draw_next (H:=example_externals) example_heap_with_empty t1 =
      Ok (example_heap_with_empty, t2) /\
    panels t2 =
      <[0%nat := SetText (new_panel (mkQuery "cpu" "up")) "No data available"]>
        (panels example_two_panels).
Proof.
  destruct (empty_series_draws_placeholder (H:=example_externals)
              example_heap_with_empty example_two_panels 0 3%positive
              (mkTimeSeriesResult (mkSlice 3%positive 0%nat 0%nat))
              NewApplication NewTextView)
    as (t1 & t2 & q & panel & text & Hupd & Hdraw & _ & Hpanel & Hpanels & _).
  - reflexivity.
  - reflexivity.
  - reflexivity.
  - unfold len. cbn. lia.
  - unfold len. cbn. lia.
  - exact example_heap_with_empty_closed.
  - reflexivity.
  - reflexivity.
  - exists t1, t2. split_and!; [exact Hupd | exact Hdraw |].
    rewrite Hpanels. injection Hpanel as <-. reflexivity.
Defined.

Lemma keys_never_touch_data_witness :
  exists o,
    inputCapture example_four_panels KeyTab = Ok o /\
    histories (ko_state o) = histories example_four_panels /\
    nav_start (ko_state o).
Proof.
  destruct (keys_never_touch_data example_four_panels KeyTab)
    as (o & Hkey & Hhs & _ & _ & Hstart & _).
  - intros _. exact example_four_panels_ready.
  - exists o. split_and!; [exact Hkey | exact Hhs | exact Hstart].
Defined.

Lemma validate_queries_reports_first_witness :
  exists j query,
    [mkQuery "cpu" "up"; mkQuery "" "free"; mkQuery "disk" ""] !! j = Some query /\
    Forall complete_query
      (take j [mkQuery "cpu" "up"; mkQuery "" "free"; mkQuery "disk" ""]) /\
    ((q_Name query = "" /\
      App.query_error 1 "name" = App.query_error j "name") \/
     (q_Name query <> "" /\ q_Expr query = "" /\
      App.query_error 1 "name" = App.query_error j "expr")).
Proof.
  apply (validate_queries_reports_first
           [mkQuery "cpu" "up"; mkQuery "" "free"; mkQuery "disk" ""]
           (App.query_error 1 "name")).
  vm_compute. reflexivity.
Defined.

Lemma loaded_config_creates_named_backend_witness :
  valid_config example_config /\
  match App.createBackend (H0:=example_network) example_config with
  | inr b => App.BackendName b = "mock"
  | inl _ => False
  end.
Proof.
  destruct (loaded_config_creates_named_backend (H0:=example_network)
              (App.Parsed example_config) example_config)
    as (Hvalid & _ & _).
  - vm_compute. reflexivity.
  - split; [exact Hvalid | vm_compute; reflexivity].
Defined.

Lemma New_outcomes_witness :
  match App.New (H0:=example_network) empty_heap (App.Parsed example_config) with
  | Ok (inr (_, a)) =>
      App.BackendName (App.backend a) = App.cfg_Backend (App.config a) /\
      nav_ready (App.ui a) /\ focus_visible (App.ui a)
  | _ => False
  end.
Proof.
  pose proof (New_outcomes (H0:=example_network) empty_heap
                (App.Parsed example_config)) as Hnew.
  destruct (App.New (H0:=example_network) empty_heap (App.Parsed example_config))
    as [[err|[h' a]]|msg] eqn:E.
  - vm_compute in E. discriminate E.
  - destruct Hnew as (_ & _ & _ & Hname & _ & _ & _ & Hready & Hvisible & _).
    + intros c [= <-]. unfold len, bound. cbn. lia.
    + split_and!; [exact Hname | exact Hready | exact Hvisible].
  - vm_compute in E. discriminate E.
Defined.

Lemma close_follows_update_loop_witness :
  exists s,
    App.run early_close (App.initial 1) = Some s /\
    App.o_closed s = true /\
    App.o_loop s = App.LoopReturned /\ App.o_cancelled s = true /\
    App.o_ui_stopped s = true.
Proof.
  destruct (App.run early_close (App.initial 1)) as [s|] eqn:E;
    [|vm_compute in E; discriminate E].
  assert (Hclosed : App.o_closed s = true).
  { vm_compute in E. injection E as <-. reflexivity. }
  destruct (close_follows_update_loop 1 (tail early_close) s E) as (_ & _ & Hclose).
  destruct (Hclose Hclosed) as (Hloop & _ & Hcancel & Hui & _).
  exists s. split_and!; [reflexivity | exact Hclosed | exact Hloop | exact Hcancel | exact Hui].
Defined.

Lemma influxdb1_query_returns_row_points_witness :
  exists h' p,
    InfluxDB1.QueryTimeSeries (H:=example_conversions) example_v1_client
      "telegraf" empty_heap "cpu_usage" = (h', inr p) /\
    returns_series empty_heap h' p [mkDataPoint 0 1%float; mkDataPoint 0 0%float].
Proof.
  destruct (influxdb1_query_returns_row_points (H:=example_conversions)
              example_v1_client "telegraf" empty_heap "cpu_usage" example_response)
    as (h' & p & Hquery & Hseries & _).
  - reflexivity.
  - reflexivity.
  - exists h', p. split; [exact Hquery | exact Hseries].
Defined.

Lemma influxdb1_error_only_from_server_witness :
  (exists err,
     failing_v1_client
       (InfluxDB1.mkQuery (InfluxDB1.queryStr (H:=example_conversions) "cpu_usage")
          "telegraf") = inl err /\
     "query failed: connection refused" = "query failed: " +:+ err) \/
  (exists response err,
     failing_v1_client
       (InfluxDB1.mkQuery (InfluxDB1.queryStr (H:=example_conversions) "cpu_usage")
          "telegraf") = inr response /\
     InfluxDB1.Error_ response = Some err /\
     "query failed: connection refused" = "InfluxDB v1 query error: " +:+ err).
Proof.
  apply (influxdb1_error_only_from_server (H:=example_conversions) failing_v1_client
           "telegraf" empty_heap "cpu_usage" empty_heap
           "query failed: connection refused").
  reflexivity.
Defined.

Lemma influxdb_query_returns_record_points_witness :
  exists h' p,
    InfluxDB.QueryTimeSeries (H:=example_conversions) example_flux_client
      "metrics" empty_heap "r._field == cpu" = (h', inr p) /\
    returns_series empty_heap h' p [mkDataPoint 60 1%float; mkDataPoint 180 1%float].
Proof.
  destruct (influxdb_query_returns_record_points (H:=example_conversions)
              example_flux_client "metrics" empty_heap "r._field == cpu"
              (InfluxDB.mkQueryResult example_records None))
    as (h' & p & Hquery & Hseries & _).
  - reflexivity.
  - reflexivity.
  - exists h', p. split; [exact Hquery | exact Hseries].
Defined.

Lemma influxdb_read_error_discards_points_witness :
  InfluxDB.QueryTimeSeries (H:=example_conversions) broken_flux_client
    "metrics" example_heap "r._field == cpu" =
    (example_heap, inl "error reading query result: unexpected EOF") /\
  example_heap = example_heap.
Proof.
  assert (Hquery :
    InfluxDB.QueryTimeSeries (H:=example_conversions) broken_flux_client
      "metrics" example_heap "r._field == cpu" =
      (example_heap, inl "error reading query result: unexpected EOF"))
    by reflexivity.
  split; [exact Hquery|].
  exact (proj1 (influxdb_read_error_discards_points (H:=example_conversions)
                  broken_flux_client "metrics" example_heap "r._field == cpu"
                  example_heap "error reading query result: unexpected EOF" Hquery)).
Defined.

Lemma flux_values_convert_in_v1_witness :
  InfluxDB1.convertToFloat64 (H:=example_conversions) (VString "1") = inr 1%float.
Proof.
  apply (flux_values_convert_in_v1 (H:=example_conversions) (VString "1") 1%float).
  reflexivity.
Defined.

Lemma prom_query_returns_matrix_points_witness :
  exists h' p,
    Prom.QueryTimeSeries example_prom_api example_now example_Time_of_ms
      empty_heap "up" = (h', inr p) /\
    returns_series empty_heap h' p
      [mkDataPoint 1000000000 1%float; mkDataPoint 61000000000 2%float;
       mkDataPoint 1000000000 3%float].
Proof.
  destruct (prom_query_returns_matrix_points example_prom_api example_now
              example_Time_of_ms empty_heap "up" example_matrix)
    as (h' & p & Hquery & Hseries & _).
  - reflexivity.
  - exists h', p. split; [exact Hquery | exact Hseries].
Defined.

Lemma prom_rejects_other_result_types_witness :
  Prom.QueryTimeSeries vector_prom_api example_now example_Time_of_ms
    example_heap "up" =
    (example_heap, inl "unsupported result type for range query: vector") /\
  example_heap = example_heap.
Proof.
  assert (Hquery :
    Prom.QueryTimeSeries vector_prom_api example_now example_Time_of_ms
      example_heap "up" =
      (example_heap, inl "unsupported result type for range query: vector"))
    by reflexivity.
  split; [exact Hquery|].
  exact (proj1 (prom_rejects_other_result_types vector_prom_api example_now
                  example_Time_of_ms example_heap "up" example_heap
                  "unsupported result type for range query: vector" Hquery)).
Defined.

Lemma refresh_never_stores_nil_witness :
  exists t',
    refresh_task example_two_panels 1 (inl "timeout") = Ok t' /\
    series_non_nil t' /\
    histories t' !! 1%nat = Some (mkQueryHistory "mem" (Some 2%positive) (Some "timeout")).
Proof.
  destruct (refresh_never_stores_nil example_two_panels 1 (inl "timeout")
              example_two_panels_non_nil)
    as (t' & Hrun & Hnon_nil & _ & _ & _ & Hcell & _).
  exists t'. split_and!; [exact Hrun | exact Hnon_nil |].
  apply (Hcell (mkQueryHistory "mem" (Some 2%positive) None)); [lia | reflexivity].
Defined.

Lemma refreshes_of_different_queries_commute_witness :
  exists ta tb,
    (t1 ← refresh_task example_two_panels 0 (inr 2%positive);
     refresh_task t1 1 (inl "timeout")) = Ok ta /\
    (t1 ← refresh_task example_two_panels 1 (inl "timeout");
     refresh_task t1 0 (inr 2%positive)) = Ok tb /\
    histories ta = histories tb /\ queued ta ≡ₚ queued tb.
Proof.
  destruct (refreshes_of_different_queries_commute example_two_panels 0 1
              (inr 2%positive) (inl "timeout"))
    as (ta & tb & Ha & Hb & Hhs & _ & _ & _ & _ & _ & _ & Hqueue).
  - lia.
  - exists ta, tb. split_and!; [exact Ha | exact Hb | exact Hhs | exact Hqueue].
Defined.
